(** * TravelViz: a shallow embedding of [app.py] and its verified properties

    The development follows the layout of [app.py]: the Python values the
    application moves around (the result of [json.load], the session data),
    the persistence helpers, the badge calculator, the date helpers and the
    reminder scan, the coordinate fallback, the login handler and the
    expense accumulation of the Insights page.

    Python [int] is [Z], Python [float] is the kernel's binary64 [float],
    [str] is [string], the UTF-8 bytes of the text (a surrogate as its
    three bytes), a [dict] is an association list in insertion order, and
    an exception is a constructor of [exn] carried by the [result] type.
    The whitespace [strip] removes and the decimal digits [strptime] and
    [float] accept are those of the Unicode character database of
    Python 3.11 (Unicode 14.0). *)

From Stdlib Require Import ZArith List String Ascii Bool Lia DecimalString.
From Stdlib Require Import Floats.
Import ListNotations.

Set Warnings "-register-all,-inexact-float".
Local Open Scope string_scope.
Local Open Scope list_scope.
Local Open Scope Z_scope.

(** ** Python values and exceptions *)

Module Py.

(** The exception classes the modelled code can meet. [Exception] is the
    base class of all of them. *)
Inductive exn : Type :=
| JSONDecodeError
| AttributeError
| TypeError
| KeyError
| ValueError
| OverflowError
| UnicodeDecodeError.

Inductive result (A : Type) : Type :=
| Ok (a : A)
| Raise (e : exn).

Arguments Ok {A} a.
Arguments Raise {A} e.

Definition bind {A B : Type} (r : result A) (k : A -> result B) : result B :=
  match r with
  | Ok a => k a
  | Raise e => Raise e
  end.

Definition exn_eqb (a b : exn) : bool :=
  match a, b with
  | JSONDecodeError, JSONDecodeError
  | AttributeError, AttributeError
  | TypeError, TypeError
  | KeyError, KeyError
  | ValueError, ValueError
  | OverflowError, OverflowError
  | UnicodeDecodeError, UnicodeDecodeError => true
  | _, _ => false
  end.

(** [try: body  except cls: handler] for a single exception class. *)
Definition try_except {A : Type} (body : result A) (cls : exn) (handler : result A)
  : result A :=
  match body with
  | Ok a => Ok a
  | Raise e => if exn_eqb e cls then handler else Raise e
  end.

(** What [json.load] can build, and what the pages keep in their dicts. *)
Inductive value : Type :=
| PNone
| PBool (b : bool)
| PInt (n : Z)
| PFloat (f : float)
| PStr (s : string)
| PList (l : list value)
| PDict (d : list (string * value)).

Definition dict : Type := list (string * value).

End Py.

Export Py.

Declare Scope py_scope.
Delimit Scope py_scope with py.
Notation "x <- c ;; k" := (bind c (fun x => k))
  (at level 61, c at next level, right associativity) : py_scope.
Local Open Scope py_scope.

(** ** Badges ([get_user_badge]) *)

Module Badges.

Definition tiers : list (string * Z) :=
  [ ("New Traveler", 0);
    ("Explorer", 1);
    ("Adventurer", 3);
    ("Globetrotter", 6);
    ("World Citizen", 10) ].

(** [tiers[i]]; every index the function uses is below [len(tiers)]. *)
Definition tier_at (i : nat) : string * Z := nth i tiers ("", 0).

(** The three locals of the scan: [current_badge], [level_index],
    [next_threshold]. *)
Definition badge : Type := (string * Z * option Z)%type.

(** The body of [for i in range(len(tiers))]: [idxs] is what is left of the
    range, [st] the locals; the [else: break] branch leaves with the locals
    as they are. *)
Fixpoint badge_scan (trip_count : Z) (idxs : list nat) (st : badge) : badge :=
  match idxs with
  | [] => st
  | i :: rest =>
      let '(name, threshold) := tier_at i in
      if trip_count >=? threshold then
        badge_scan trip_count rest
          (name, Z.of_nat i,
           if (S i <? List.length tiers)%nat then Some (snd (tier_at (S i))) else None)
      else st
  end.

Definition get_user_badge (trip_count : Z) : badge :=
  let current_badge := fst (tier_at 0) in
  let level_index := 0 in
  let next_threshold := Some (snd (tier_at 1)) in
  badge_scan trip_count (seq 0 (List.length tiers))
    (current_badge, level_index, next_threshold).

End Badges.

(** ** Text

    A [str] is held as the UTF-8 bytes of its characters, a surrogate
    (which a [str] may hold, though no file does) as its three bytes.
    The sets of characters are those of Unicode 14.0, the version of
    CPython 3.11. *)

Module Unicode.

Definition byte (c : ascii) : Z := Z.of_nat (nat_of_ascii c).

Definition char (n : Z) : string := String (ascii_of_nat (Z.to_nat n)) EmptyString.

Definition is_cont (c : ascii) : bool := (128 <=? byte c) && (byte c <? 192).

(** The bytes of a code point. *)
Definition utf8 (cp : Z) : string :=
  if cp <? 128 then char cp
  else if cp <? 2048 then (char (192 + cp / 64) ++ char (128 + cp mod 64))%string
  else if cp <? 65536 then
    (char (224 + cp / 4096) ++ char (128 + cp / 64 mod 64) ++ char (128 + cp mod 64))%string
  else
    (char (240 + cp / 262144) ++ char (128 + cp / 4096 mod 64)
     ++ char (128 + cp / 64 mod 64) ++ char (128 + cp mod 64))%string.

(** The character at the head of a text, as its code point, and the text
    after it; [None] when the text is empty or the bytes at its head are no
    character in its shortest form. *)
Definition next (s : string) : option (Z * string) :=
  match s with
  | EmptyString => None
  | String c0 s1 =>
      let b0 := byte c0 in
      if b0 <? 128 then Some (b0, s1)
      else if b0 <? 192 then None
      else
        match s1 with
        | String c1 s2 =>
            if negb (is_cont c1) then None
            else if b0 <? 224 then
              let cp := (b0 - 192) * 64 + (byte c1 - 128) in
              if 128 <=? cp then Some (cp, s2) else None
            else
              match s2 with
              | String c2 s3 =>
                  if negb (is_cont c2) then None
                  else if b0 <? 240 then
                    let cp := (b0 - 224) * 4096 + (byte c1 - 128) * 64 + (byte c2 - 128) in
                    if 2048 <=? cp then Some (cp, s3) else None
                  else
                    match s3 with
                    | String c3 s4 =>
                        if negb (is_cont c3) then None
                        else
                          let cp := (b0 - 240) * 262144 + (byte c1 - 128) * 4096
                                    + (byte c2 - 128) * 64 + (byte c3 - 128) in
                          if (65536 <=? cp) && (cp <=? 1114111) then Some (cp, s4) else None
                    | EmptyString => None
                    end
              | EmptyString => None
              end
        | EmptyString => None
        end
  end.

(** The characters [str.isspace] holds for: the whitespace [str.strip()]
    drops. *)
Definition WHITESPACE : list Z :=
  [ 9; 10; 11; 12; 13; 28; 29; 30; 31; 32; 133; 160; 5760;
    8192; 8193; 8194; 8195; 8196; 8197; 8198; 8199; 8200; 8201; 8202;
    8232; 8233; 8239; 8287; 12288 ].

Definition is_whitespace (cp : Z) : bool := existsb (Z.eqb cp) WHITESPACE.

(** The digit zero of every script that has decimal digits (general
    category Nd); the nine code points after each are its digits 1 to 9. *)
Definition DECIMAL_ZEROS : list Z :=
  [ 48; 1632; 1776; 1984; 2406; 2534; 2662; 2790; 2918; 3046; 3174; 3302;
    3430; 3558; 3664; 3792; 3872; 4160; 4240; 6112; 6160; 6470; 6608; 6784;
    6800; 6992; 7088; 7232; 7248; 42528; 43216; 43264; 43472; 43504; 43600;
    44016; 65296; 66720; 68912; 69734; 69872; 69942; 70096; 70384; 70736;
    70864; 71248; 71360; 71472; 71904; 72016; 72784; 73040; 73120; 92768;
    92864; 93008; 120782; 120792; 120802; 120812; 120822; 123200; 123632;
    125264; 130032 ].

(** The value of a decimal digit: what [\d] matches and [int()] and
    [float()] read. *)
Definition decimal (cp : Z) : option Z :=
  match find (fun zero => (zero <=? cp) && (cp <? zero + 10)) DECIMAL_ZEROS with
  | Some zero => Some (cp - zero)
  | None => None
  end.

Definition is_surrogate (cp : Z) : bool := (55296 <=? cp) && (cp <=? 57343).

(** The bytes decode as UTF-8: every character is well formed and none is
    a surrogate. *)
Fixpoint well_formed (fuel : nat) (s : string) : bool :=
  match fuel with
  | O => false
  | S fuel =>
      match s with
      | EmptyString => true
      | _ =>
          match next s with
          | Some (cp, rest) => negb (is_surrogate cp) && well_formed fuel rest
          | None => false
          end
      end
  end.

(** [bytes.decode("utf-8")], as reading a file in text mode under a UTF-8
    locale does it. *)
Definition decode (bytes : string) : result string :=
  if well_formed (S (String.length bytes)) bytes then Ok bytes
  else Raise UnicodeDecodeError.

End Unicode.

(** ** [str] methods used by the application *)

Module Str.

(** [c.isspace()] on the ASCII range: tab, the line breaks, the four
    separators 0x1c-0x1f and the space. *)
Definition is_space (c : ascii) : bool :=
  let n := nat_of_ascii c in
  ((9 <=? n) && (n <=? 13) || (28 <=? n) && (n <=? 32))%nat.

(** The whitespace characters as texts: one byte for those of the ASCII
    range, two or three for the others. *)
Definition SPACES : list string := Eval vm_compute in map Unicode.utf8 Unicode.WHITESPACE.

(** [t] is one whitespace character. *)
Definition is_space_text (t : string) : bool := existsb (String.eqb t) SPACES.

(** [lstrip] drops the whitespace characters at the head, whatever their
    length in bytes. *)
Fixpoint lstrip (s : string) : string :=
  match s with
  | EmptyString => EmptyString
  | String c0 s1 =>
      if is_space_text (String c0 EmptyString) then lstrip s1
      else
        match s1 with
        | EmptyString => s
        | String c1 s2 =>
            if is_space_text (String c0 (String c1 EmptyString)) then lstrip s2
            else
              match s2 with
              | EmptyString => s
              | String c2 s3 =>
                  if is_space_text (String c0 (String c1 (String c2 EmptyString)))
                  then lstrip s3
                  else s
              end
        end
  end.

(** [rstrip] drops the trailing run of whitespace: from the end, the bytes
    kept so far go when, with the byte before them, they are one whitespace
    character. *)
Fixpoint rstrip (s : string) : string :=
  match s with
  | EmptyString => EmptyString
  | String c s' =>
      let r := String c (rstrip s') in
      if is_space_text r then EmptyString else r
  end.

Definition strip (s : string) : string := rstrip (lstrip s).

(** [str.lower()] on ASCII text: the letters A to Z. The case mapping of
    the other characters is the Unicode database's and is not modelled;
    where a property is to hold for any text, the lower-casing is a
    parameter. *)
Definition lower_char (c : ascii) : ascii :=
  let n := nat_of_ascii c in
  if ((65 <=? n) && (n <=? 90))%nat then ascii_of_nat (n + 32) else c.

Fixpoint lower (s : string) : string :=
  match s with
  | EmptyString => EmptyString
  | String c s' => String (lower_char c) (lower s')
  end.

(** [k in s] for two strings: [k] starts at some position of [s]. *)
Fixpoint contains (s k : string) : bool :=
  if prefix k s then true
  else match s with
       | EmptyString => false
       | String _ s' => contains s' k
       end.

End Str.

(** ** Minimal fallback coords *)

Module Geo.

Definition coords : Type := (float * float)%type.

Definition FALLBACK_CENTROIDS : list (string * coords) :=
  [ ("france", (46.2, 2.2)%float);
    ("paris", (48.85, 2.35)%float);
    ("india", (20.59, 78.96)%float);
    ("usa", (37.09, -95.71)%float);
    ("japan", (36.20, 138.25)%float);
    ("tokyo", (35.67, 139.65)%float) ].

(** [for k, v in items: if k in key: return v], then [return None]. *)
Fixpoint first_match (items : list (string * coords)) (key : string) : option coords :=
  match items with
  | [] => None
  | (k, v) :: rest => if Str.contains key k then Some v else first_match rest key
  end.

Section Lower.

(** [str.lower()]: the case mapping of the Unicode database, which is the
    interpreter's, not [app.py]'s. *)
Variable str_lower : string -> string.

Definition fallback_coords (dest : string) : option coords :=
  let key := str_lower (Str.strip dest) in
  first_match FALLBACK_CENTROIDS key.

End Lower.

(** The function on ASCII text, where [str.lower()] is [Str.lower]. *)
Definition fallback_coords_for_destination (dest : string) : option coords :=
  fallback_coords Str.lower dest.

End Geo.

(** ** Methods of Python objects the pages call on loaded data *)

Module Obj.

Fixpoint dict_get (k : string) (d : dict) : option value :=
  match d with
  | [] => None
  | (k', v) :: rest => if String.eqb k k' then Some v else dict_get k rest
  end.

Definition dict_mem (k : string) (d : dict) : bool :=
  match dict_get k d with Some _ => true | None => false end.

(** [d[k] = v]: an existing key keeps its place, a new one goes last. *)
Fixpoint dict_set (k : string) (v : value) (d : dict) : dict :=
  match d with
  | [] => [(k, v)]
  | (k', v') :: rest =>
      if String.eqb k k' then (k', v) :: rest else (k', v') :: dict_set k v rest
  end.

(** [d.setdefault(k, v)], for its effect on [d]. *)
Definition dict_setdefault (k : string) (v : value) (d : dict) : dict :=
  if dict_mem k d then d else dict_set k v d.

(** [x.get(k, default)]: only a dict has the method. *)
Definition get (x : value) (k : string) (default : value) : result value :=
  match x with
  | PDict d => Ok (match dict_get k d with Some v => v | None => default end)
  | _ => Raise AttributeError
  end.

(** [x.setdefault(k, v)] on an object reached through a reference: the
    object after the call. *)
Definition setdefault (x : value) (k : string) (v : value) : result value :=
  match x with
  | PDict d => Ok (PDict (dict_setdefault k v d))
  | _ => Raise AttributeError
  end.

(** [x[k]] with a string subscript. *)
Definition getitem (x : value) (k : string) : result value :=
  match x with
  | PDict d => match dict_get k d with Some v => Ok v | None => Raise KeyError end
  | _ => Raise TypeError
  end.

Fixpoint chars (s : string) : list value :=
  match s with
  | EmptyString => []
  | String c s' => PStr (String c EmptyString) :: chars s'
  end.

(** The elements [for t in x] goes through. *)
Definition iter (x : value) : result (list value) :=
  match x with
  | PList l => Ok l
  | PDict d => Ok (map (fun kv => PStr (fst kv)) d)
  | PStr s => Ok (chars s)
  | _ => Raise TypeError
  end.

(** Truth value of an object, as [or], [and] and [if] test it. *)
Definition truthy (x : value) : bool :=
  match x with
  | PNone => false
  | PBool b => b
  | PInt n => negb (n =? 0)
  | PFloat f => negb (PrimFloat.eqb f 0%float)
  | PStr s => negb (String.eqb s "")
  | PList l => match l with [] => false | _ => true end
  | PDict d => match d with [] => false | _ => true end
  end.

(** [x or y]. *)
Definition or_ (x y : value) : value := if truthy x then x else y.

End Obj.

(** ** Dates: [datetime.date], [datetime.strptime(s, "%Y-%m-%d")] *)

Module Datetime.

Record date : Type := mkdate { year : Z; month : Z; day : Z }.

Definition is_leap (y : Z) : bool :=
  (y mod 4 =? 0) && (negb (y mod 100 =? 0) || (y mod 400 =? 0)).

Definition days_before_year (y : Z) : Z :=
  let p := y - 1 in p * 365 + p / 4 - p / 100 + p / 400.

Definition DAYS_IN_MONTH : list Z := [31; 28; 31; 30; 31; 30; 31; 31; 30; 31; 30; 31].

Definition days_in_month (y m : Z) : Z :=
  if (m =? 2) && is_leap y then 29 else nth (Z.to_nat (m - 1)) DAYS_IN_MONTH 0.

(** Days of the year before the first of month [m]. *)
Definition days_before_month (y m : Z) : Z :=
  fold_right Z.add 0 (firstn (Z.to_nat (m - 1)) DAYS_IN_MONTH)
  + (if (2 <? m) && is_leap y then 1 else 0).

(** [d.toordinal()]: 0001-01-01 is day 1. *)
Definition toordinal (d : date) : Z :=
  days_before_year (year d) + days_before_month (year d) (month d) + day d.

(** [(a - b).days]. *)
Definition days_between (a b : date) : Z := toordinal a - toordinal b.

(** The constructor's range check: [ValueError] outside year 1..9999,
    month 1..12, day 1..days_in_month. *)
Definition make_date (y m d : Z) : result date :=
  if (1 <=? y) && (y <=? 9999) && (1 <=? m) && (m <=? 12)
     && (1 <=? d) && (d <=? days_in_month y m)
  then Ok (mkdate y m d) else Raise ValueError.

(** [[0-9]]: a digit of the ASCII range. *)
Definition digit (c : ascii) : option Z :=
  let n := nat_of_ascii c in
  if ((48 <=? n) && (n <=? 57))%nat then Some (Z.of_nat n - 48) else None.

(** [\d]: a decimal digit of any script at the head of the text, with the
    value [int()] reads it as, and the text after it. *)
Definition decimal_digit (s : string) : option (Z * string) :=
  match Unicode.next s with
  | Some (cp, rest) =>
      match Unicode.decimal cp with
      | Some v => Some (v, rest)
      | None => None
      end
  | None => None
  end.

(** The directives of the format as [strptime] compiles them, each giving
    its ways to match at the head of the input, in the order the regular
    expression tries them, with the rest of the input.
    [%Y] is [\d\d\d\d]. *)
Definition match_Y (s : string) : list (Z * string) :=
  match decimal_digit s with
  | Some (x, s1) =>
      match decimal_digit s1 with
      | Some (y, s2) =>
          match decimal_digit s2 with
          | Some (z, s3) =>
              match decimal_digit s3 with
              | Some (w, rest) => [(x * 1000 + y * 100 + z * 10 + w, rest)]
              | None => []
              end
          | None => []
          end
      | None => []
      end
  | None => []
  end.

(** [%m] is [1[0-2]|0[1-9]|[1-9]]. *)
Definition match_m (s : string) : list (Z * string) :=
  match s with
  | String a rest1 =>
      match digit a with
      | Some x =>
          (match rest1 with
           | String b rest2 =>
               match digit b with
               | Some y =>
                   if (x =? 1) && (y <=? 2) then [(10 + y, rest2)]
                   else if (x =? 0) && (1 <=? y) then [(y, rest2)]
                   else []
               | None => []
               end
           | EmptyString => []
           end)
          ++ (if 1 <=? x then [(x, rest1)] else [])
      | None => []
      end
  | EmptyString => []
  end.

(** [%d] is [3[0-1]|[1-2]\d|0[1-9]|[1-9]| [1-9]]. *)
Definition match_d (s : string) : list (Z * string) :=
  match s with
  | String a rest1 =>
      match digit a with
      | Some x =>
          (if (1 <=? x) && (x <=? 2) then
             match decimal_digit rest1 with
             | Some (y, rest2) => [(x * 10 + y, rest2)]
             | None => []
             end
           else
             match rest1 with
             | String b rest2 =>
                 match digit b with
                 | Some y =>
                     if (x =? 3) && (y <=? 1) then [(30 + y, rest2)]
                     else if (x =? 0) && (1 <=? y) then [(y, rest2)]
                     else []
                 | None => []
                 end
             | EmptyString => []
             end)
          ++ (if 1 <=? x then [(x, rest1)] else [])
      | None =>
          if Ascii.eqb a " " then
            match rest1 with
            | String b rest2 =>
                match digit b with
                | Some y => if 1 <=? y then [(y, rest2)] else []
                | None => []
                end
            | EmptyString => []
            end
          else []
      end
  | EmptyString => []
  end.

(** A literal character of the format. *)
Definition match_lit (c : ascii) (s : string) : list string :=
  match s with
  | String a rest => if Ascii.eqb a c then [rest] else []
  | EmptyString => []
  end.

(** The matches of [%Y-%m-%d] at the head of [s], in the order a
    backtracking matcher finds them. *)
Definition matches_ymd (s : string) : list (Z * Z * Z * string) :=
  flat_map (fun '(y, s1) =>
    flat_map (fun s2 =>
      flat_map (fun '(m, s3) =>
        flat_map (fun s4 =>
          map (fun '(d, s5) => (y, m, d, s5)) (match_d s4))
          (match_lit "-" s3))
        (match_m s2))
      (match_lit "-" s1))
    (match_Y s).

(** [datetime.strptime(x, "%Y-%m-%d").date()]: [TypeError] when [x] is not
    a [str]; [ValueError] when the format does not match, when input is
    left over after the first match, or when the fields are no date. *)
Definition strptime_ymd (x : value) : result date :=
  match x with
  | PStr s =>
      match matches_ymd s with
      | (y, m, d, EmptyString) :: _ => make_date y m d
      | _ => Raise ValueError
      end
  | _ => Raise TypeError
  end.

End Datetime.

(** ** [parse_date_str] and [trigger_reminders] *)

Module Reminders.

Import Datetime.

(** [try: return strptime(..).date()  except Exception: return None]. *)
Definition parse_date_str (s : value) : option date :=
  match strptime_ymd s with
  | Ok d => Some d
  | Raise _ => None
  end.

(** What [st.toast] is called with: the two values the message
    interpolates, the trip's destination and [days_left]. *)
Record toast : Type := mktoast { toast_destination : value; toast_days_left : Z }.

(** The body of [for t in ...], threaded over the toasts shown so far.
    An exception leaves the loop with the toasts already shown. *)
Fixpoint reminder_loop (today : date) (ts : list value) (shown : list toast)
  : list toast * result unit :=
  match ts with
  | [] => (shown, Ok tt)
  | t :: rest =>
      match Obj.get t "start_date" (PStr "") with
      | Raise e => (shown, Raise e)
      | Ok sd =>
          match parse_date_str sd with
          | None => reminder_loop today rest shown
          | Some d =>
              let days_left := days_between d today in
              if (0 <=? days_left) && (days_left <=? 3) then
                match Obj.get t "destination" (PStr "(unknown)") with
                | Raise e => (shown, Raise e)
                | Ok dest => reminder_loop today rest (shown ++ [mktoast dest days_left])
                end
              else reminder_loop today rest shown
          end
      end
  end.

(** [today] stands for the value [date.today()] returns. *)
Definition trigger_reminders (today : date) (username : string) (trips_dict : value)
  : list toast * result unit :=
  match Obj.get trips_dict username (PList []) with
  | Raise e => ([], Raise e)
  | Ok user_trips =>
      match Obj.iter user_trips with
      | Raise e => ([], Raise e)
      | Ok ts => reminder_loop today ts []
      end
  end.

End Reminders.

(** ** Persistence helpers *)

Module Persistence.

(** The two backing files: [None] when the file does not exist, else its
    text. *)
Record files : Type := mkfiles { USERS_FILE : option string; TRIPS_FILE : option string }.

(** [x.keys()], [x.items()] and [x[k] = v]. *)
Definition keys (x : value) : result (list string) :=
  match x with
  | PDict d => Ok (map fst d)
  | _ => Raise AttributeError
  end.

Definition items (x : value) : result (list (string * value)) :=
  match x with
  | PDict d => Ok d
  | _ => Raise AttributeError
  end.

Definition setitem (x : value) (k : string) (v : value) : result value :=
  match x with
  | PDict d => Ok (PDict (Obj.dict_set k v d))
  | _ => Raise TypeError
  end.

(** [data[k].setdefault(f, v)]: the call changes the object [data[k]]
    refers to, so [data] afterwards holds the changed object at [k]. *)
Definition setdefault_at (data : value) (k f : string) (v : value) : result value :=
  x <- Obj.getitem data k ;;
  x' <- Obj.setdefault x f v ;;
  setitem data k x'.

Definition is_str (x : value) : bool :=
  match x with PStr _ => true | _ => false end.

(** The body of [for user in list(data.keys())] in [load_users]. *)
Definition upgrade_user (data : value) (user : string) : result value :=
  x <- Obj.getitem data user ;;
  data <- (if is_str x then
             setitem data user
               (PDict [ ("password", x);
                        ("profile_pic", PNone);
                        ("role", PStr "user");
                        ("bio", PStr "");
                        ("favorite_destination", PStr "");
                        ("goals", PStr "") ])
           else Ok data) ;;
  data <- setdefault_at data user "role" (PStr "user") ;;
  data <- setdefault_at data user "profile_pic" PNone ;;
  data <- setdefault_at data user "bio" (PStr "") ;;
  data <- setdefault_at data user "favorite_destination" (PStr "") ;;
  setdefault_at data user "goals" (PStr "").

Fixpoint upgrade_users (data : value) (users : list string) : result value :=
  match users with
  | [] => Ok data
  | user :: rest => data <- upgrade_user data user ;; upgrade_users data rest
  end.

(** The body of [for t in trs] in [load_trips]: the record after the eight
    [setdefault] calls, which is what is appended to [new_trs]. *)
Definition backfill_trip (t : value) : result value :=
  t <- Obj.setdefault t "destination" (PStr "") ;;
  t <- Obj.setdefault t "start_date" (PStr "") ;;
  t <- Obj.setdefault t "end_date" (PStr "") ;;
  t <- Obj.setdefault t "notes" (PStr "") ;;
  t <- Obj.setdefault t "expenses" (PList []) ;;
  t <- Obj.setdefault t "checklist" (PList []) ;;
  t <- Obj.setdefault t "lat" PNone ;;
  Obj.setdefault t "lon" PNone.

Fixpoint backfill_trips (trs : list value) (new_trs : list value) : result (list value) :=
  match trs with
  | [] => Ok new_trs
  | t :: rest => t <- backfill_trip t ;; backfill_trips rest (new_trs ++ [t])
  end.

(** The body of [for uname, trs in list(data.items())]. *)
Fixpoint backfill_users (data : value) (its : list (string * value)) : result value :=
  match its with
  | [] => Ok data
  | (uname, trs) :: rest =>
      ts <- Obj.iter trs ;;
      new_trs <- backfill_trips ts [] ;;
      data <- setitem data uname (PList new_trs) ;;
      backfill_users data rest
  end.

Section Store.

(** [json.load] on the text of a file and the text [json.dump(_, f, indent=2)]
    writes: the [json] module is a collaborator, not part of [app.py]. *)
Variable json_load : string -> result value.
Variable json_dump : value -> string.

Definition load_users (fs : files) : result value :=
  match USERS_FILE fs with
  | Some text =>
      try_except
        (data <- json_load text ;;
         users <- keys data ;;
         upgrade_users data users)
        JSONDecodeError
        (Ok (PDict []))
  | None => Ok (PDict [])
  end.

Definition save_users (users : value) (fs : files) : files :=
  mkfiles (Some (json_dump users)) (TRIPS_FILE fs).

Definition load_trips (fs : files) : result value :=
  match TRIPS_FILE fs with
  | Some text =>
      try_except
        (data <- json_load text ;;
         its <- items data ;;
         backfill_users data its)
        JSONDecodeError
        (Ok (PDict []))
  | None => Ok (PDict [])
  end.

Definition save_trips (trips : value) (fs : files) : files :=
  mkfiles (USERS_FILE fs) (Some (json_dump trips)).

End Store.

End Persistence.

(** ** The built-in [float()] *)

Module Float.

(** The binary64 nearest (ties to even) to the integer [n]. *)
Definition of_int (n : Z) : float := SF2Prim (binary_normalize prec emax n 0 false).

(** The binary64 nearest to [m * 10^e] for [m > 0]. Beyond 1e310 the
    result is infinite and below 1e-330 it is zero, whatever the digits. A
    negative exponent is a division: the quotient is taken with 64 bits or
    more and one more bit that records a non-zero remainder, which is enough
    for the rounding of [binary_normalize] to be the rounding of the exact
    quotient. *)
Definition of_decimal_pos (m e : Z) : float :=
  if 310 <? 3 * Z.log2 m / 10 + e then infinity
  else if (Z.log2 m + 1) / 3 + 1 + e <? -330 then 0%float
  else if 0 <=? e then of_int (m * 10 ^ e)
  else
    let den := 10 ^ (- e) in
    let s := Z.max 0 (Z.log2 den - Z.log2 m + 64) in
    let num := m * 2 ^ s in
    let q := num / den in
    let sticky := if num mod den =? 0 then 0 else 1 in
    SF2Prim (binary_normalize prec emax (2 * q + sticky) (- (s + 1)) false).

Definition of_decimal (neg : bool) (m e : Z) : float :=
  let f := if m =? 0 then 0%float else of_decimal_pos m e in
  if neg then PrimFloat.opp f else f.

Definition is_digit (c : ascii) : bool :=
  let n := nat_of_ascii c in ((48 <=? n) && (n <=? 57))%nat.

(** Underscores may only stand between two digits; they are dropped
    before the number is read. [prev] is the character before [s]. *)
Fixpoint drop_underscores (prev : option ascii) (s : string) : option string :=
  match s with
  | EmptyString =>
      match prev with
      | Some "_"%char => None
      | _ => Some EmptyString
      end
  | String c s' =>
      if Ascii.eqb c "_" then
        match prev with
        | Some p => if is_digit p then drop_underscores (Some c) s' else None
        | None => None
        end
      else
        match prev with
        | Some "_"%char =>
            if is_digit c then option_map (String c) (drop_underscores (Some c) s')
            else None
        | _ => option_map (String c) (drop_underscores (Some c) s')
        end
  end.

(** A run of digits at the head of [s]: how many, their value after [acc],
    and the rest. *)
Fixpoint digits (s : string) (acc : Z) (n : Z) : Z * Z * string :=
  match s with
  | String c s' =>
      if is_digit c then digits s' (acc * 10 + (Z.of_nat (nat_of_ascii c) - 48)) (n + 1)
      else (acc, n, s)
  | EmptyString => (acc, n, s)
  end.

Definition sign (s : string) : bool * string :=
  match s with
  | String "-" s' => (true, s')
  | String "+" s' => (false, s')
  | _ => (false, s)
  end.

(** The optional exponent: [e] or [E], an optional sign, one digit or more;
    it must end the text. *)
Definition exponent (s : string) : option Z :=
  match s with
  | EmptyString => Some 0
  | String c s' =>
      if Ascii.eqb c "e" || Ascii.eqb c "E" then
        let '(neg, s1) := sign s' in
        match digits s1 0 0 with
        | (v, n, EmptyString) => if 0 <? n then Some (if neg then - v else v) else None
        | _ => None
        end
      else None
  end.

(** [digits [. digits] [exponent]] with a digit on one side of the point at
    least. *)
Definition decimal (neg : bool) (s : string) : option float :=
  let '(ip, n1, s1) := digits s 0 0 in
  let '(m, n2, s2) :=
    match s1 with
    | String "." s' => digits s' ip 0
    | _ => (ip, 0, s1)
    end in
  if 0 <? n1 + n2 then
    match exponent s2 with
    | Some e => Some (of_decimal neg m (e - n2))
    | None => None
    end
  else None.

(** What [float()] reads of a text that is not all ASCII: a whitespace
    character counts as a space and a decimal digit of any script as its
    ASCII digit; at any other character beyond the ASCII range the text
    ends, with a question mark in its place. *)
Fixpoint translate (fuel : nat) (s : string) : string :=
  match fuel with
  | O => EmptyString
  | S fuel =>
      match s with
      | EmptyString => EmptyString
      | _ =>
          match Unicode.next s with
          | Some (cp, rest) =>
              if cp <? 127 then (Unicode.char cp ++ translate fuel rest)%string
              else if Unicode.is_whitespace cp then String " " (translate fuel rest)
              else
                match Unicode.decimal cp with
                | Some v => (Unicode.char (48 + v) ++ translate fuel rest)%string
                | None => "?"
                end
          | None => "?"
          end
      end
  end.

Fixpoint is_ascii (s : string) : bool :=
  match s with
  | EmptyString => true
  | String c s' => (Unicode.byte c <? 128) && is_ascii s'
  end.

Definition to_ascii (s : string) : string :=
  if is_ascii s then s else translate (String.length s) s.

(** The whitespace of the C locale, which is what is dropped around the
    number: the space, the tab and the line breaks. *)
Definition is_c_space (c : ascii) : bool :=
  let n := Unicode.byte c in ((9 <=? n) && (n <=? 13)) || (n =? 32).

Fixpoint c_lstrip (s : string) : string :=
  match s with
  | String c s' => if is_c_space c then c_lstrip s' else s
  | EmptyString => EmptyString
  end.

Fixpoint c_rstrip (s : string) : string :=
  match s with
  | EmptyString => EmptyString
  | String c s' =>
      match c_rstrip s' with
      | EmptyString => if is_c_space c then EmptyString else String c EmptyString
      | r => String c r
      end
  end.

(** [float(s)] for a [str]: the text is brought to ASCII, the underscores
    are checked and dropped, the whitespace around the number is dropped,
    and what is left is a sign, then [inf], [infinity] or [nan] in any
    case, or a decimal number. *)
Definition of_str (s : string) : result float :=
  match drop_underscores None (to_ascii s) with
  | None => Raise ValueError
  | Some t =>
      let '(neg, body) := sign (c_rstrip (c_lstrip t)) in
      let low := Str.lower body in
      if String.eqb low "inf" || String.eqb low "infinity" then
        Ok (if neg then neg_infinity else infinity)
      else if String.eqb low "nan" then Ok nan
      else match decimal neg body with
           | Some f => Ok f
           | None => Raise ValueError
           end
  end.

(** *** [repr] of a float *)

(** [str(n)] for an integer. *)
Definition str_int (n : Z) : string := NilZero.string_of_int (Z.to_int n).

(** [10^p <= num/den], for positive [num] and [den]. *)
Definition pow10_le (p num den : Z) : bool :=
  if 0 <=? p then 10 ^ p * den <=? num else den <=? num * 10 ^ (- p).

(** The largest [p] with [10^p <= num/den]: the estimate from the binary
    logarithms is off by one at most. *)
Definition floor_log10 (num den : Z) : Z :=
  let p0 := (Z.log2 num - Z.log2 den) * 30103 / 100000 in
  if pow10_le (p0 + 1) num den then p0 + 1
  else if pow10_le p0 num den then p0
  else p0 - 1.

(** The decimal of [n] significant digits that reads back as [f = num/den]
    and is nearest to it, as its digits [c] and exponent: [c * 10^e]. *)
Definition shortest_at (f : float) (num den p : Z) (n : Z) : option (Z * Z) :=
  let k := n - 1 - p in
  let num' := if 0 <=? k then num * 10 ^ k else num in
  let den' := if 0 <=? k then den else den * 10 ^ (- k) in
  let lo := num' / den' in
  let r := num' mod den' in
  let ok c := PrimFloat.eqb (of_decimal false c (- k)) f in
  let lo_first := (2 * r <? den') || ((2 * r =? den') && Z.even lo) in
  if lo_first then
    if ok lo then Some (lo, - k) else if ok (lo + 1) then Some (lo + 1, - k) else None
  else
    if ok (lo + 1) then Some (lo + 1, - k) else if ok lo then Some (lo, - k) else None.

Fixpoint shortest (f : float) (num den p : Z) (n : Z) (tries : nat) : Z * Z :=
  match tries with
  | O => (num / den, 0)
  | S tries =>
      match shortest_at f num den p n with
      | Some ce => ce
      | None => shortest f num den p (n + 1) tries
      end
  end.

(** Trailing zeros of [c] move to the exponent. *)
Fixpoint drop_zeros (fuel : nat) (c e : Z) : Z * Z :=
  match fuel with
  | O => (c, e)
  | S fuel => if (c mod 10 =? 0) && negb (c =? 0) then drop_zeros fuel (c / 10) (e + 1) else (c, e)
  end.

Fixpoint zeros (n : nat) : string :=
  match n with O => EmptyString | S n => String "0" (zeros n) end.

(** [repr] of a positive finite float from its shortest digits [ds] and
    the position [decpt] of the point after the first [decpt] digits. *)
Definition format_repr (ds : string) (decpt : Z) : string :=
  let nd := Z.of_nat (String.length ds) in
  if (decpt <=? -4) || (16 <? decpt) then
    let e := decpt - 1 in
    let es := str_int (Z.abs e) in
    let es := if Z.abs e <? 10 then String "0" es else es in
    (substring 0 1 ds
     ++ (if (1 <? nd)%Z then "." ++ substring 1 (String.length ds - 1)%nat ds else "")
     ++ "e" ++ (if (e <? 0)%Z then "-" else "+") ++ es)%string
  else if decpt <=? 0 then
    ("0." ++ zeros (Z.to_nat (- decpt)) ++ ds)%string
  else if nd <=? decpt then
    (ds ++ zeros (Z.to_nat (decpt - nd)) ++ ".0")%string
  else
    (substring 0 (Z.to_nat decpt) ds ++ "."
     ++ substring (Z.to_nat decpt) (String.length ds - Z.to_nat decpt)%nat ds)%string.

(** [repr(f)]: the shortest decimal that reads back as [f]. *)
Definition repr (f : float) : string :=
  match Prim2SF f with
  | S754_nan => "nan"
  | S754_infinity s => if s then "-inf" else "inf"
  | S754_zero s => if s then "-0.0" else "0.0"
  | S754_finite s m e =>
      let num := if 0 <=? e then Zpos m * 2 ^ e else Zpos m in
      let den := if 0 <=? e then 1 else 2 ^ (- e) in
      let '(c, x) := shortest (PrimFloat.abs f) num den (floor_log10 num den) 1 17 in
      let '(c, x) := drop_zeros 400 c x in
      let ds := str_int c in
      ((if s then "-" else "") ++ format_repr ds (Z.of_nat (String.length ds) + x))%string
  end.

(** [float(x)]. *)
Definition float_ (x : value) : result float :=
  match x with
  | PFloat f => Ok f
  | PInt n =>
      let f := of_int n in
      if PrimFloat.eqb (PrimFloat.abs f) infinity then Raise OverflowError else Ok f
  | PBool b => Ok (if b then 1%float else 0%float)
  | PStr s => of_str s
  | PNone | PList _ | PDict _ => Raise TypeError
  end.

End Float.

(** ** A reader and a writer of JSON text

    [loads] and [dumps] follow the [json] module on text held as UTF-8
    bytes: [loads] is [json.loads], [dumps] is [json.dumps(_, indent=2)].
    They give the persistence helpers a [json.load] and a [json.dump] to run
    with on concrete files; [load] is [json.load] on the bytes of a file
    opened in text mode. The interpreter's limit on the depth of nesting
    (a [RecursionError] that depends on the state of its stack) is not
    modelled. *)

Module Json.

Import Unicode.

Definition dquote : ascii := ascii_of_nat 34.
Definition backslash : ascii := ascii_of_nat 92.

Definition is_ws (c : ascii) : bool :=
  let n := nat_of_ascii c in
  ((n =? 32) || (n =? 9) || (n =? 10) || (n =? 13))%nat.

Fixpoint skip_ws (s : string) : string :=
  match s with
  | String c s' => if is_ws c then skip_ws s' else s
  | EmptyString => s
  end.

Definition hex (c : ascii) : option Z :=
  let n := Z.of_nat (nat_of_ascii c) in
  if (48 <=? n) && (n <=? 57) then Some (n - 48)
  else if (65 <=? n) && (n <=? 70) then Some (n - 55)
  else if (97 <=? n) && (n <=? 102) then Some (n - 87)
  else None.

(** The code unit of [\uXXXX], at the four characters after the [u]. *)
Definition hex4 (s : string) : option (Z * string) :=
  match s with
  | String a (String b (String c (String d rest))) =>
      match hex a, hex b, hex c, hex d with
      | Some x, Some y, Some z, Some w => Some (x * 4096 + y * 256 + z * 16 + w, rest)
      | _, _, _, _ => None
      end
  | _ => None
  end.

(** A [\uXXXX] escape, with a low surrogate after a high one joined to it. *)
Definition unicode_escape (s : string) : option (string * string) :=
  match hex4 s with
  | None => None
  | Some (u, rest) =>
      if (55296 <=? u) && (u <=? 56319) then
        match rest with
        | String b (String c rest') =>
            if Ascii.eqb b backslash && Ascii.eqb c "u" then
              match hex4 rest' with
              | Some (u2, rest'') =>
                  if (56320 <=? u2) && (u2 <=? 57343)
                  then Some (utf8 (65536 + (u - 55296) * 1024 + (u2 - 56320)), rest'')
                  else Some (utf8 u, rest)
              | None => Some (utf8 u, rest)
              end
            else Some (utf8 u, rest)
        | _ => Some (utf8 u, rest)
        end
      else Some (utf8 u, rest)
  end.

Definition simple_escape (c : ascii) : option string :=
  if Ascii.eqb c dquote then Some (String dquote EmptyString)
  else if Ascii.eqb c backslash then Some (String backslash EmptyString)
  else if Ascii.eqb c "/" then Some "/"
  else if Ascii.eqb c "b" then Some (char 8)
  else if Ascii.eqb c "f" then Some (char 12)
  else if Ascii.eqb c "n" then Some (char 10)
  else if Ascii.eqb c "r" then Some (char 13)
  else if Ascii.eqb c "t" then Some (char 9)
  else None.

(** A string, from the character after its opening quote. *)
Fixpoint read_string (fuel : nat) (s : string) (acc : string) : result (string * string) :=
  match fuel with
  | O => Raise JSONDecodeError
  | S fuel =>
      match s with
      | EmptyString => Raise JSONDecodeError
      | String c s' =>
          if Ascii.eqb c dquote then Ok (acc, s')
          else if Ascii.eqb c backslash then
            match s' with
            | EmptyString => Raise JSONDecodeError
            | String e s'' =>
                if Ascii.eqb e "u" then
                  match unicode_escape s'' with
                  | Some (bytes, rest) => read_string fuel rest (acc ++ bytes)%string
                  | None => Raise JSONDecodeError
                  end
                else
                  match simple_escape e with
                  | Some bytes => read_string fuel s'' (acc ++ bytes)%string
                  | None => Raise JSONDecodeError
                  end
            end
          else if (nat_of_ascii c <? 32)%nat then Raise JSONDecodeError
          else read_string fuel s' (acc ++ String c EmptyString)%string
      end
  end.

(** A number at the head of [s]: an optional minus, then [0] or digits
    not starting with [0], then an optional fraction (a point and digits)
    and an optional exponent ([e] or [E], an optional sign, digits). It is
    an [int] without fraction and exponent and a [float] with one. *)
Definition read_number (s : string) : option (value * string) :=
  let '(neg, s1) := match s with String "-" s' => (true, s') | _ => (false, s) end in
  let int_part :=
    match s1 with
    | String "0" s2 => Some (0, s2)
    | String c _ =>
        if Float.is_digit c then let '(v, _, s2) := Float.digits s1 0 0 in Some (v, s2)
        else None
    | EmptyString => None
    end in
  match int_part with
  | None => None
  | Some (ip, s2) =>
      let '(m, nfrac, s3) :=
        match s2 with
        | String "." s' =>
            let '(v, n, r) := Float.digits s' ip 0 in
            if 0 <? n then (v, n, r) else (ip, 0, s2)
        | _ => (ip, 0, s2)
        end in
      let '(ex, has_exp, s4) :=
        match s3 with
        | String c s' =>
            if Ascii.eqb c "e" || Ascii.eqb c "E" then
              let '(eneg, r1) := Float.sign s' in
              let '(v, n, r2) := Float.digits r1 0 0 in
              if 0 <? n then (if eneg then - v else v, true, r2) else (0, false, s3)
            else (0, false, s3)
        | EmptyString => (0, false, s3)
        end in
      if (0 <? nfrac) || has_exp
      then Some (PFloat (Float.of_decimal neg m (ex - nfrac)), s4)
      else Some (PInt (if neg then - ip else ip), s4)
  end.

(** [s] without the prefix [p], when it starts with it. *)
Fixpoint after (p s : string) : option string :=
  match p, s with
  | EmptyString, _ => Some s
  | String a p', String b s' => if Ascii.eqb a b then after p' s' else None
  | String _ _, EmptyString => None
  end.

(** The constants, and the number forms that are no JSON. *)
Definition read_constant (s : string) : option (value * string) :=
  match after "null" s with Some r => Some (PNone, r) | None =>
  match after "true" s with Some r => Some (PBool true, r) | None =>
  match after "false" s with Some r => Some (PBool false, r) | None =>
  match read_number s with Some vr => Some vr | None =>
  match after "NaN" s with Some r => Some (PFloat nan, r) | None =>
  match after "Infinity" s with Some r => Some (PFloat infinity, r) | None =>
  match after "-Infinity" s with Some r => Some (PFloat neg_infinity, r) | None =>
  None end end end end end end end.

(** [int()] refuses a text of more than 4300 digits (the default of
    [sys.set_int_max_str_digits]) with a [ValueError]; the scanner passes it
    the digits of a number without fraction and exponent. *)
Definition MAX_STR_DIGITS : Z := 4300.

Definition int_digits (s : string) : Z :=
  let s1 := match s with String "-" s' => s' | _ => s end in
  snd (fst (Float.digits s1 0 0)).

(** A value at the head of [s], and the members of an object and the
    elements of an array from the first one on. A key met again keeps its
    place and takes the later value. *)
Fixpoint read_value (fuel : nat) (s : string) : result (value * string) :=
  match fuel with
  | O => Raise JSONDecodeError
  | S fuel =>
      match s with
      | EmptyString => Raise JSONDecodeError
      | String c s' =>
          if Ascii.eqb c dquote then
            r <- read_string (String.length s') s' EmptyString ;;
            Ok (PStr (fst r), snd r)
          else if Ascii.eqb c "{" then
            match skip_ws s' with
            | String "}" rest => Ok (PDict [], rest)
            | s1 => read_members fuel s1 []
            end
          else if Ascii.eqb c "[" then
            match skip_ws s' with
            | String "]" rest => Ok (PList [], rest)
            | s1 => read_elements fuel s1 []
            end
          else
            match read_constant s with
            | Some (PInt n, rest) =>
                if MAX_STR_DIGITS <? int_digits s then Raise ValueError
                else Ok (PInt n, rest)
            | Some vr => Ok vr
            | None => Raise JSONDecodeError
            end
      end
  end

with read_members (fuel : nat) (s : string) (acc : dict) : result (value * string) :=
  match fuel with
  | O => Raise JSONDecodeError
  | S fuel =>
      match s with
      | String q s1 =>
          if Ascii.eqb q dquote then
            k <- read_string (String.length s1) s1 EmptyString ;;
            match skip_ws (snd k) with
            | String ":" s2 =>
                v <- read_value fuel (skip_ws s2) ;;
                let acc := Obj.dict_set (fst k) (fst v) acc in
                match skip_ws (snd v) with
                | String "}" rest => Ok (PDict acc, rest)
                | String "," rest => read_members fuel (skip_ws rest) acc
                | _ => Raise JSONDecodeError
                end
            | _ => Raise JSONDecodeError
            end
          else Raise JSONDecodeError
      | EmptyString => Raise JSONDecodeError
      end
  end

with read_elements (fuel : nat) (s : string) (acc : list value) : result (value * string) :=
  match fuel with
  | O => Raise JSONDecodeError
  | S fuel =>
      v <- read_value fuel s ;;
      let acc := acc ++ [fst v] in
      match skip_ws (snd v) with
      | String "]" rest => Ok (PList acc, rest)
      | String "," rest => read_elements fuel (skip_ws rest) acc
      | _ => Raise JSONDecodeError
      end
  end.

(** [json.loads(s)]: one value, with whitespace around it and nothing else. *)
Definition loads (s : string) : result value :=
  r <- read_value (2 * String.length s + 2) (skip_ws s) ;;
  match skip_ws (snd r) with
  | EmptyString => Ok (fst r)
  | _ => Raise JSONDecodeError
  end.

(** [json.load(f)] for a file opened with [open(path, "r")]: the bytes are
    decoded, then read. *)
Definition load (bytes : string) : result value :=
  text <- decode bytes ;;
  loads text.

(** *** Writing *)

Definition hex_digit (n : Z) : string :=
  if n <? 10 then char (48 + n) else char (87 + n).

Definition u_escape (u : Z) : string :=
  (String backslash "u" ++ hex_digit (u / 4096) ++ hex_digit (u / 256 mod 16)
   ++ hex_digit (u / 16 mod 16) ++ hex_digit (u mod 16))%string.

(** A code point as [ensure_ascii] writes it. *)
Definition escape_code_point (cp : Z) : string :=
  if cp <? 65536 then u_escape cp
  else (u_escape (55296 + (cp - 65536) / 1024) ++ u_escape (56320 + (cp - 65536) mod 1024))%string.

(** The text between the quotes of a written string: [ensure_ascii]
    leaves the characters from the space to the tilde as they are, but the
    quote and the backslash. *)
Fixpoint escape (fuel : nat) (s : string) : string :=
  match fuel with
  | O => EmptyString
  | S fuel =>
      match s with
      | EmptyString => EmptyString
      | String c s' =>
          let n := byte c in
          if Ascii.eqb c dquote then String backslash (String dquote (escape fuel s'))
          else if Ascii.eqb c backslash then String backslash (String backslash (escape fuel s'))
          else if n =? 10 then String backslash (String "n" (escape fuel s'))
          else if n =? 13 then String backslash (String "r" (escape fuel s'))
          else if n =? 9 then String backslash (String "t" (escape fuel s'))
          else if n =? 8 then String backslash (String "b" (escape fuel s'))
          else if n =? 12 then String backslash (String "f" (escape fuel s'))
          else if (n <? 32) || (n =? 127) then (u_escape n ++ escape fuel s')%string
          else if n <? 128 then String c (escape fuel s')
          else
            match s' with
            | String c1 s1 =>
                if (192 <=? n) && (n <? 224) && is_cont c1 then
                  (escape_code_point ((n - 192) * 64 + (byte c1 - 128)) ++ escape fuel s1)%string
                else
                  match s1 with
                  | String c2 s2 =>
                      if (224 <=? n) && (n <? 240) && is_cont c1 && is_cont c2 then
                        (escape_code_point ((n - 224) * 4096 + (byte c1 - 128) * 64 + (byte c2 - 128))
                         ++ escape fuel s2)%string
                      else
                        match s2 with
                        | String c3 s3 =>
                            if (240 <=? n) && is_cont c1 && is_cont c2 && is_cont c3 then
                              (escape_code_point
                                 ((n - 240) * 262144 + (byte c1 - 128) * 4096
                                  + (byte c2 - 128) * 64 + (byte c3 - 128))
                               ++ escape fuel s3)%string
                            else (u_escape n ++ escape fuel s')%string
                        | EmptyString => (u_escape n ++ escape fuel s')%string
                        end
                  | EmptyString => (u_escape n ++ escape fuel s')%string
                  end
            | EmptyString => u_escape n
            end
      end
  end.

Definition write_string (s : string) : string :=
  (String dquote (escape (String.length s) s) ++ String dquote EmptyString)%string.

Definition write_float (f : float) : string :=
  match Prim2SF f with
  | S754_nan => "NaN"
  | S754_infinity s => if s then "-Infinity" else "Infinity"
  | _ => Float.repr f
  end.

Definition newline : string := char 10.

Fixpoint spaces (n : nat) : string :=
  match n with O => EmptyString | S n => String " " (spaces n) end.

Fixpoint join (sep : string) (parts : list string) : string :=
  match parts with
  | [] => EmptyString
  | [p] => p
  | p :: rest => (p ++ sep ++ join sep rest)%string
  end.

(** A value written at nesting depth [depth], two spaces a level. *)
Fixpoint write (depth : nat) (v : value) : string :=
  let inner := (newline ++ spaces (2 * S depth))%string in
  let outer := (newline ++ spaces (2 * depth))%string in
  match v with
  | PNone => "null"
  | PBool b => if b then "true" else "false"
  | PInt n => Float.str_int n
  | PFloat f => write_float f
  | PStr s => write_string s
  | PList [] => "[]"
  | PList l =>
      ("[" ++ inner ++ join ("," ++ inner) (map (write (S depth)) l) ++ outer ++ "]")%string
  | PDict [] => "{}"
  | PDict d =>
      ("{" ++ inner
       ++ join ("," ++ inner)
            (map (fun kv => write_string (fst kv) ++ ": " ++ write (S depth) (snd kv)) d)
       ++ outer ++ "}")%string
  end.

(** [json.dumps(v, indent=2)]. *)
Definition dumps (v : value) : string := write 0 v.

End Json.

(** ** Passwords and the Login page *)

Module Auth.

(** [s.split("$")]. *)
Fixpoint split_dollar (s : string) (cur : string) : list string :=
  match s with
  | EmptyString => [cur]
  | String c s' =>
      if Ascii.eqb c "$" then cur :: split_dollar s' EmptyString
      else split_dollar s' (cur ++ String c EmptyString)%string
  end.

Definition nonempty (s : string) : bool := negb (String.eqb s "").

Section Bcrypt.

(** The hash computation of the [bcrypt] library on a stored value that
    has the three fields of a bcrypt hash (version, cost, salt and digest);
    it may still reject them. *)
Variable crypt : string -> list string -> result string.

(** [bcrypt.hashpw(password, salt)] as far as the stored value decides it:
    the value is taken apart at the dollar signs, and anything but three
    non-empty fields is [ValueError("Invalid salt")]. *)
Definition hashpw (password salt : string) : result string :=
  match filter nonempty (split_dollar salt EmptyString) with
  | [version; cost; rest] => crypt password [version; cost; rest]
  | _ => Raise ValueError
  end.

(** [bcrypt.checkpw(password, hashed)]. *)
Definition checkpw (password hashed : string) : result bool :=
  h <- hashpw password hashed ;;
  Ok (String.eqb h hashed).

(** [hashed.encode()] needs a [str]. *)
Definition check_password (password : string) (hashed : value) : result bool :=
  match hashed with
  | PStr h => checkpw password h
  | _ => Raise AttributeError
  end.

Record session : Type :=
  mksession { logged_in : bool; session_username : string; session_role : value }.

(** What the handler shows. *)
Inductive shown : Type :=
| Success (username : string)
| Error (message : string)
| Toasts (ts : list Reminders.toast)
| Balloons.

(** [username in users and check_password(password, users[username]['password'])],
    where [users] is the dict [load_users] returned. *)
Definition credentials_ok (users : dict) (username password : string) : result bool :=
  if Obj.dict_mem username users then
    u <- Obj.getitem (PDict users) username ;;
    hashed <- Obj.getitem u "password" ;;
    check_password password hashed
  else Ok false.

(** The handler of the Login button: the session and what was shown when
    it ends, and whether it ended with an exception. *)
Definition login_button (today : Datetime.date) (users : dict) (trips : value)
    (username password : string) (s : session)
  : session * list shown * result unit :=
  match credentials_ok users username password with
  | Raise e => (s, [], Raise e)
  | Ok false => (s, [Error "Invalid credentials."], Ok tt)
  | Ok true =>
      match (u <- Obj.getitem (PDict users) username ;; Obj.get u "role" (PStr "user")) with
      | Raise e => (mksession true username (session_role s), [], Raise e)
      | Ok role =>
          let s' := mksession true username role in
          let '(ts, r) := Reminders.trigger_reminders today username trips in
          match r with
          | Raise e => (s', [Success username; Toasts ts], Raise e)
          | Ok _ => (s', [Success username; Toasts ts; Balloons], Ok tt)
          end
      end
  end.

End Bcrypt.

End Auth.

(** ** Insights page: total expenses across all trips *)

Module Insights.

Record expense_row : Type :=
  mkrow { row_destination : value;
          row_date : Datetime.date;
          row_category : value;
          row_amount : float }.

(** The body of [for e in t.get("expenses", [])]. *)
Fixpoint expense_loop (trip_name : value) (trip_date : Datetime.date)
    (es : list value) (trip_total : float) (rows : list expense_row)
  : result (float * list expense_row) :=
  match es with
  | [] => Ok (trip_total, rows)
  | e :: rest =>
      a <- Obj.get e "amount" (PInt 0) ;;
      amt <- Float.float_ (Obj.or_ a (PInt 0)) ;;
      let trip_total := PrimFloat.add trip_total amt in
      c <- Obj.get e "category" (PStr "") ;;
      expense_loop trip_name trip_date rest trip_total
        (rows ++ [mkrow trip_name trip_date c amt])
  end.

(** The body of [for t in user_trips]. *)
Fixpoint trip_loop (today : Datetime.date) (ts : list value)
    (total_expenses : float) (rows : list expense_row)
  : result (float * list expense_row) :=
  match ts with
  | [] => Ok (total_expenses, rows)
  | t :: rest =>
      trip_name <- Obj.get t "destination" (PStr "(unknown)") ;;
      sd <- Obj.get t "start_date" (PStr "") ;;
      let trip_date :=
        match Reminders.parse_date_str sd with Some d => d | None => today end in
      ex <- Obj.get t "expenses" (PList []) ;;
      es <- Obj.iter ex ;;
      r <- expense_loop trip_name trip_date es 0%float rows ;;
      let '(trip_total, rows) := r in
      trip_loop today rest (PrimFloat.add total_expenses trip_total) rows
  end.

(** [total_expenses] and [expenses_rows] as the page has them after the
    loop over [user_trips = trips.get(username, [])]. *)
Definition total_expenses (today : Datetime.date) (trips : value) (username : string)
  : result (float * list expense_row) :=
  user_trips <- Obj.get trips username (PList []) ;;
  ts <- Obj.iter user_trips ;;
  trip_loop today ts 0%float [].

End Insights.

(** * Specification vocabulary

    The notions the properties below are stated with, and the sample data
    they are run on. *)

(** ** Badges *)

Module BadgeSpec.

Import Badges.

(** The tier of index [i] with its name and threshold. *)
Definition tier_is (i : nat) (name : string) (threshold : Z) : Prop :=
  nth_error tiers i = Some (name, threshold).

(** The threshold of the tier right above index [i], when there is one. *)
Definition threshold_above (i : nat) : option Z :=
  option_map snd (nth_error tiers (S i)).

(** [b] is what the specification asks for at [n]: the highest tier whose
    threshold is at most [n], with its index and the threshold above. *)
Definition highest_tier (n : Z) (b : badge) : Prop :=
  exists i name threshold,
    tier_is i name threshold /\
    threshold <= n /\
    (forall j name' threshold',
        tier_is j name' threshold' -> threshold' <= n -> (j <= i)%nat) /\
    b = (name, Z.of_nat i, threshold_above i).

End BadgeSpec.

(** ** Strings *)

Module StrSpec.

Import Str.

(** [k] occurs in [s]: the meaning of [k in s]. *)
Definition occurs (k s : string) : Prop :=
  exists a b, s = (a ++ k ++ b)%string.

(** [w] is one whitespace character. *)
Definition space_text (w : string) : Prop := In w SPACES.

(** Whitespace only: a run of whitespace characters. *)
Inductive blank : string -> Prop :=
| blank_nil : blank EmptyString
| blank_cons (w a : string) : space_text w -> blank a -> blank (w ++ a).

(** The head of [s] is a whitespace character. *)
Definition space_at_head (s : string) : bool :=
  match s with
  | EmptyString => false
  | String c0 s1 =>
      is_space_text (String c0 EmptyString)
      || match s1 with
         | EmptyString => false
         | String c1 s2 =>
             is_space_text (String c0 (String c1 EmptyString))
             || match s2 with
                | EmptyString => false
                | String c2 _ => is_space_text (String c0 (String c1 (String c2 EmptyString)))
                end
         end
  end.

(** No whitespace character at either end. *)
Definition trimmed (s : string) : Prop :=
  (forall w r, space_text w -> s <> (w ++ r)%string) /\
  (forall w r, space_text w -> s <> (r ++ w)%string).




End StrSpec.

(** ** Coordinate fallback *)

Module GeoSpec.

Import Str Geo StrSpec.

(** [(k, v)] is the first entry of [items] whose key occurs in [key]. *)
Definition first_entry (items : list (string * coords)) (key : string)
    (k : string) (v : coords) : Prop :=
  exists before after,
    items = before ++ (k, v) :: after /\
    occurs k key /\
    forall k' v', In (k', v') before -> ~ occurs k' key.

End GeoSpec.

(** ** Dates *)

Module DateSpec.

Import Datetime Reminders.

(** The Gregorian calendar, stated on its own: the leap years and the
    lengths of the months. *)
Definition leap (y : Z) : bool :=
  ((y mod 4 =? 0) && negb (y mod 100 =? 0)) || (y mod 400 =? 0).

Definition month_length (y m : Z) : Z :=
  match m with
  | 1 | 3 | 5 | 7 | 8 | 10 | 12 => 31
  | 4 | 6 | 9 | 11 => 30
  | 2 => if leap y then 29 else 28
  | _ => 0
  end.

(** A day of the calendar, and the dates [datetime.date] can hold: those
    of the years 1 to 9999. *)
Definition calendar_date (d : date) : Prop :=
  1 <= year d /\ 1 <= month d <= 12 /\ 1 <= day d <= month_length (year d) (month d).

Definition valid_date (d : date) : Prop :=
  calendar_date d /\ year d <= 9999.

(** The day after [d], and the day [n] days after [d]. *)
Definition tomorrow (d : date) : date :=
  if day d <? month_length (year d) (month d) then mkdate (year d) (month d) (day d + 1)
  else if month d <? 12 then mkdate (year d) (month d + 1) 1
  else mkdate (year d + 1) 1 1.

Fixpoint days_later (n : nat) (d : date) : date :=
  match n with
  | O => d
  | S n => tomorrow (days_later n d)
  end.

(** The character of an ASCII digit, and a number below 100 written with
    two digits in front of [rest]. *)
Definition digit_char (n : Z) : ascii := ascii_of_nat (Z.to_nat (48 + n)).

Definition pad2 (n : Z) (rest : string) : string :=
  String (digit_char (n / 10)) (String (digit_char (n mod 10)) rest).

(** [str(d)] for a date, [d.isoformat()]: what the trip planner stores. *)
Definition isoformat (d : date) : string :=
  String (digit_char (year d / 1000))
    (String (digit_char (year d / 100 mod 10))
       (pad2 (year d mod 100) (String "-" (pad2 (month d) (String "-" (pad2 (day d) EmptyString)))))).

(** The texts the format [%Y-%m-%d] accepts, and the numbers they stand
    for. A decimal digit of any script: *)
Definition digit_text (t : string) (v : Z) : Prop :=
  exists zero, In zero Unicode.DECIMAL_ZEROS /\ 0 <= v <= 9 /\ t = Unicode.utf8 (zero + v).

(** ... the year, four such digits: *)
Definition year_text (t : string) (y : Z) : Prop :=
  exists t1 t2 t3 t4 a b c e,
    digit_text t1 a /\ digit_text t2 b /\ digit_text t3 c /\ digit_text t4 e /\
    t = (t1 ++ t2 ++ t3 ++ t4)%string /\ y = a * 1000 + b * 100 + c * 10 + e.

(** ... the month, two ASCII digits or one without a zero in front: *)
Inductive month_text : string -> Z -> Prop :=
| month_two (m : Z) : 1 <= m <= 12 -> month_text (pad2 m EmptyString) m
| month_one (m : Z) : 1 <= m <= 9 -> month_text (String (digit_char m) EmptyString) m.

(** ... the day: 30 or 31, a 1 or a 2 and a digit of any script, an ASCII
    digit but zero with a zero, nothing or a space in front. *)
Inductive day_text : string -> Z -> Prop :=
| day_thirty (y : Z) :
    0 <= y <= 1 -> day_text (String "3" (String (digit_char y) EmptyString)) (30 + y)
| day_tens (x y : Z) (t : string) :
    1 <= x <= 2 -> digit_text t y -> day_text (String (digit_char x) t) (x * 10 + y)
| day_zero (y : Z) :
    1 <= y <= 9 -> day_text (String "0" (String (digit_char y) EmptyString)) y
| day_one (y : Z) :
    1 <= y <= 9 -> day_text (String (digit_char y) EmptyString) y
| day_space (y : Z) :
    1 <= y <= 9 -> day_text (String " " (String (digit_char y) EmptyString)) y.

(** [text] is the date [d] in the format [%Y-%m-%d]. *)
Definition reads_as (text : string) (d : date) : Prop :=
  exists ty tm td,
    text = (ty ++ "-" ++ tm ++ "-" ++ td)%string /\
    year_text ty (year d) /\ month_text tm (month d) /\ day_text td (day d) /\
    valid_date d.

End DateSpec.

(** ** Reminders *)

Module ReminderSpec.

Import Datetime Reminders.

(** [t.get(k, default)] on a trip record. *)
Definition field (t : dict) (k : string) (default : value) : value :=
  match Obj.dict_get k t with Some v => v | None => default end.

(** [days_until_start] of a trip whose start date parses. *)
Definition days_until_start (today : date) (t : dict) : option Z :=
  match parse_date_str (field t "start_date" (PStr "")) with
  | Some d => Some (days_between d today)
  | None => None
  end.

(** The reminder a trip is due, if any: its start date parses and lies 0 to
    3 days ahead. *)
Definition due (today : date) (t : dict) : option toast :=
  match days_until_start today t with
  | Some n =>
      if (0 <=? n) && (n <=? 3)
      then Some (mktoast (field t "destination" (PStr "(unknown)")) n)
      else None
  | None => None
  end.

(** The reminders of a list of trips, in the order of the trips. *)
Fixpoint select (today : date) (ts : list dict) : list toast :=
  match ts with
  | [] => []
  | t :: rest =>
      match due today t with
      | Some r => r :: select today rest
      | None => select today rest
      end
  end.

(** The reminders [trigger_reminders] is to show for a list of trips,
    stated with the calendar alone: a trip whose start date is a date in
    the format, [n] days after today with [n] at most 3, gets a reminder
    with its destination and [n]; any other trip gets none. *)
Inductive shows (today : date) : list dict -> list toast -> Prop :=
| shows_nil : shows today [] []
| shows_due (t : dict) (ts : list dict) (shown : list toast)
    (text : string) (d : date) (n : nat) :
    field t "start_date" (PStr "") = PStr text ->
    DateSpec.reads_as text d ->
    d = DateSpec.days_later n today ->
    (n <= 3)%nat ->
    shows today ts shown ->
    shows today (t :: ts)
      (mktoast (field t "destination" (PStr "(unknown)")) (Z.of_nat n) :: shown)
| shows_skip (t : dict) (ts : list dict) (shown : list toast) :
    (forall text d n,
        field t "start_date" (PStr "") = PStr text ->
        DateSpec.reads_as text d ->
        d = DateSpec.days_later n today ->
        (3 < n)%nat) ->
    shows today ts shown ->
    shows today (t :: ts) shown.

(** A trip as the trip planner saves it (no expenses, checklist or
    coordinates yet). *)
Definition trip (destination start_date : string) : dict :=
  [ ("destination", PStr destination);
    ("start_date", PStr start_date);
    ("end_date", PStr start_date);
    ("notes", PStr "");
    ("expenses", PList []);
    ("checklist", PList []);
    ("lat", PNone);
    ("lon", PNone) ].

End ReminderSpec.

(** ** Persistence *)

Module PersistenceSpec.

Import Obj Persistence.

(** The record a bare password string is upgraded to. *)
Definition legacy_record (password : string) : value :=
  PDict [ ("password", PStr password);
          ("profile_pic", PNone);
          ("role", PStr "user");
          ("bio", PStr "");
          ("favorite_destination", PStr "");
          ("goals", PStr "") ].

(** The five profile defaults of [load_users], on a record. *)
Definition with_defaults (d : dict) : dict :=
  dict_setdefault "goals" (PStr "")
    (dict_setdefault "favorite_destination" (PStr "")
       (dict_setdefault "bio" (PStr "")
          (dict_setdefault "profile_pic" PNone
             (dict_setdefault "role" (PStr "user") d)))).

(** What [load_users] leaves at a username whose stored value is [v]. *)
Definition upgraded (v : value) : value :=
  match v with
  | PStr password => legacy_record password
  | PDict d => PDict (with_defaults d)
  | _ => v
  end.

(** The values a users document holds: a record or a bare password. *)
Definition user_entry (v : value) : Prop :=
  match v with
  | PStr _ | PDict _ => True
  | _ => False
  end.

(** A users document: every username has such a value. *)
Definition users_document (doc : dict) : Prop :=
  Forall (fun kv => user_entry (snd kv)) doc.

(** The fields [load_trips] looks for in a trip record. *)
Definition trip_fields : list string :=
  ["destination"; "start_date"; "end_date"; "notes"; "expenses"; "checklist"; "lat"; "lon"].

(** A complete trip record has them all. *)
Definition complete (t : dict) : Prop :=
  forall f, In f trip_fields -> dict_mem f t = true.

(** A user's trips: a list of complete trip records. *)
Definition complete_trips (v : value) : Prop :=
  exists ts, v = PList (map PDict ts) /\ Forall complete ts.

(** A well-formed trip mapping: distinct usernames, each with a list of
    complete trip records. *)
Definition well_formed_trips (T : dict) : Prop :=
  NoDup (map fst T) /\ Forall (fun kv => complete_trips (snd kv)) T.

(** Backing files whose text is no JSON. *)
Definition malformed_files : files := mkfiles (Some "{oops") (Some "[1, 2,").

(** A users document saved in Latin-1, where the e with an acute accent of
    the username is the single byte 233 (it is two bytes in UTF-8), and a
    trips document with a number of 4301 digits. *)
Definition latin1_document : string :=
  let q := String Json.dquote EmptyString in
  ("{" ++ q ++ "ren" ++ String "233" EmptyString ++ q ++ ": " ++ q ++ "pw" ++ q ++ "}")%string.

Definition long_number_document : string :=
  let q := String Json.dquote EmptyString in
  ("{" ++ q ++ "ana" ++ q ++ ": [" ++ string_of_list_ascii (repeat "1"%char 4301) ++ "]}")%string.

(** A users document with a legacy entry and a current one. *)
Definition legacy_users : dict :=
  [ ("alice", PStr "hunter2");
    ("bob", PDict [ ("password", PStr "$2b$12$abcdefghijklmnopqrstuuJ9Xv0pYF1sQy8g1m5f0o0Qd0C1e2f3g");
                    ("role", PStr "admin") ]) ].

(** The backing files with this users document written to [users.json]. *)
Definition legacy_files : files :=
  mkfiles (Some (Json.dumps (PDict legacy_users))) None.

(** A trip mapping with a complete record that has an expense and
    coordinates, and a user without trips. *)
Definition sample_trips : dict :=
  [ ("ana", PList [ PDict [ ("destination", PStr "Rome");
                            ("start_date", PStr "2025-06-03");
                            ("end_date", PStr "2025-06-08");
                            ("notes", PStr "");
                            ("expenses",
                             PList [ PDict [ ("category", PStr "Food");
                                             ("description", PStr "dinner");
                                             ("amount", PFloat 10.5) ] ]);
                            ("checklist",
                             PList [ PDict [ ("text", PStr "passport");
                                             ("done", PBool false) ] ]);
                            ("lat", PFloat 41.9);
                            ("lon", PFloat 12.5) ] ]);
    ("ben", PList []) ].

End PersistenceSpec.

(** ** Total expenses *)

Module InsightsSpec.

Import Obj Insights.

(** [float(e.get("amount", 0) or 0)] for an expense record [e]. *)
Definition amount_of (e : value) : result float :=
  a <- get e "amount" (PInt 0) ;; Float.float_ (or_ a (PInt 0)).

(** An expense record with the amount [amount]. *)
Definition expense (amount : value) : value :=
  PDict [("category", PStr "Food"); ("description", PStr "meal"); ("amount", amount)].

(** One trip whose expenses have the amounts [amounts]. *)
Definition trips_with (amounts : list value) : value :=
  PDict [ ("ana", PList [ PDict [ ("destination", PStr "Rome");
                                  ("start_date", PStr "2025-06-03");
                                  ("end_date", PStr "2025-06-08");
                                  ("notes", PStr "");
                                  ("expenses", PList (map expense amounts));
                                  ("checklist", PList []);
                                  ("lat", PNone);
                                  ("lon", PNone) ] ]) ].

End InsightsSpec.

(** * Further vocabulary and pages

    The rest of the program: what the loaders guarantee for every document,
    the numbers the Home and Insights pages derive from the trips, the rows
    of the map, the chatbot, and the handlers of the Sign Up, Trip Planner
    and Settings pages. *)

(** ** Loaded documents *)

Module LoadSpec.

Import Obj Persistence PersistenceSpec.

(** The profile fields [load_users] defaults. *)
Definition profile_fields : list string :=
  ["role"; "profile_pic"; "bio"; "favorite_destination"; "goals"].

(** A user record in loaded form: it has the profile fields. *)
Definition loaded_user (v : value) : Prop :=
  exists r, v = PDict r /\ forall f, In f profile_fields -> dict_mem f r = true.

(** A users mapping in loaded form. *)
Definition loaded_users (U : dict) : Prop :=
  forall k v, In (k, v) U -> loaded_user v.

(** [r] keeps every field of [d] with its value. *)
Definition extends (d r : dict) : Prop :=
  forall f x, dict_get f d = Some x -> dict_get f r = Some x.

(** A trip record after the eight defaults of [load_trips]. *)
Definition backfilled (t : dict) : dict :=
  dict_setdefault "lon" PNone
    (dict_setdefault "lat" PNone
       (dict_setdefault "checklist" (PList [])
          (dict_setdefault "expenses" (PList [])
             (dict_setdefault "notes" (PStr "")
                (dict_setdefault "end_date" (PStr "")
                   (dict_setdefault "start_date" (PStr "")
                      (dict_setdefault "destination" (PStr "") t))))))).

(** A user's trips after [load_trips]: every record backfilled. *)
Definition loaded_trips (v : value) : value :=
  match v with
  | PList l =>
      PList (map (fun x => match x with PDict t => PDict (backfilled t) | _ => x end) l)
  | _ => v
  end.

(** A trips document: distinct usernames, each with a list of records. *)
Definition trips_document (doc : dict) : Prop :=
  NoDup (map fst doc) /\
  forall k v, In (k, v) doc -> exists ts : list dict, v = PList (map PDict ts).

(** Objects a [for] loop cannot go through. *)
Definition not_iterable (v : value) : Prop :=
  match v with
  | PNone | PBool _ | PInt _ | PFloat _ => True
  | _ => False
  end.

Definition is_dict (v : value) : bool :=
  match v with PDict _ => true | _ => false end.

(** Sample documents. *)
Definition mixed_users : dict :=
  [ ("alice", PStr "hunter2");
    ("bob", PDict [("password", PStr "$2b$12$abcdefghijklmnopqrstuu"); ("role", PStr "admin")]) ].

Definition sparse_trips : dict :=
  [ ("ana", PList [PDict [("destination", PStr "Rome")]; PDict []]);
    ("ben", PList []) ].

End LoadSpec.

(** ** Home page: quick stats *)

Module Home.

Import Datetime.

(** [a >= b] on dates: the fields are compared in order. *)
Definition date_ge (a b : date) : bool :=
  if year a =? year b then
    if month a =? month b then day b <=? day a
    else month b <? month a
  else year b <? year a.

(** The body of [for t in user_trips] that counts the upcoming trips:
    [if d and d >= today: upcoming_count += 1]; a date is always true. *)
Fixpoint upcoming_loop (today : date) (ts : list value) (upcoming_count : Z) : result Z :=
  match ts with
  | [] => Ok upcoming_count
  | t :: rest =>
      sd <- Obj.get t "start_date" (PStr "") ;;
      match Reminders.parse_date_str sd with
      | Some d =>
          if date_ge d today then upcoming_loop today rest (upcoming_count + 1)
          else upcoming_loop today rest upcoming_count
      | None => upcoming_loop today rest upcoming_count
      end
  end.

(** [upcoming_count] for the trips of the page. *)
Definition upcoming_count (today : date) (user_trips : list value) : result Z :=
  upcoming_loop today user_trips 0.

(** [remaining = max(0, (next_threshold - total_trips) if next_threshold
    is not None else 0)]. *)
Definition remaining (next_threshold : option Z) (total_trips : Z) : Z :=
  Z.max 0 (match next_threshold with
           | Some t => t - total_trips
           | None => 0
           end).

(** The "Next Badge Progress" card for a user with [total_trips] trips:
    [None] stands for "Maxed", [Some r] for "r to go". *)
Definition next_badge_progress (total_trips : Z) : option Z :=
  let '(_, _, next_threshold) := Badges.get_user_badge total_trips in
  match next_threshold with
  | None => None
  | Some _ => Some (remaining next_threshold total_trips)
  end.

End Home.

(** ** Chatbot *)

Module Chatbot.

Definition responses : list (string * string) :=
  [ ("hello", "Hello! Welcome to TravelViz. How can I help you today?");
    ("what is travelviz",
     "TravelViz is your travel insights dashboard — track destinations, explore data, and plan trips!");
    ("features",
     "We have login/signup, dashboard, insights, trip planner, interactive map, profile management, and an admin panel.");
    ("bye", "Safe travels! 🌍✈") ].

Definition default_response : string :=
  "I'm not sure about that, but I can tell you more about TravelViz!".

(** [for key in responses: if key in text: return responses[key]]. *)
Fixpoint first_response (items : list (string * string)) (text : string) : option string :=
  match items with
  | [] => None
  | (key, answer) :: rest =>
      if Str.contains text key then Some answer else first_response rest text
  end.

Definition chatbot_response (user_input : string) : string :=
  match first_response responses (Str.lower user_input) with
  | Some answer => answer
  | None => default_response
  end.

End Chatbot.

(** ** Map rows (Insights and Map pages) *)

Module MapPage.

Import Obj.

Record map_row : Type :=
  mkmap_row { map_destination : value;
              map_lat : float;
              map_lon : float;
              map_start_date : value }.

(** [fallback_coords_for_destination(dest)] on what [t.get] returned:
    [dest.strip()] needs a [str]. *)
Definition fallback_of (dest : value) : result (option Geo.coords) :=
  match dest with
  | PStr s => Ok (Geo.fallback_coords_for_destination s)
  | _ => Raise AttributeError
  end.

Definition is_none (x : value) : bool :=
  match x with PNone => true | _ => false end.

(** [float(x) if x is not None else None]. *)
Definition float_or_none (x : value) : result (option float) :=
  if is_none x then Ok None else f <- Float.float_ x ;; Ok (Some f).

(** The [try] block: both conversions, and [None, None] when one raises. *)
Definition floats_or_none (lat lon : value) : option float * option float :=
  match (lat_f <- float_or_none lat ;; lon_f <- float_or_none lon ;; Ok (lat_f, lon_f)) with
  | Ok p => p
  | Raise _ => (None, None)
  end.

(** The body of [for t in user_trips]: the row appended for [t], if any. *)
Definition map_row_of (t : value) : result (option map_row) :=
  dest <- get t "destination" (PStr "") ;;
  lat <- get t "lat" PNone ;;
  lon <- get t "lon" PNone ;;
  latlon <- (if is_none lat || is_none lon then
               coords <- fallback_of dest ;;
               match coords with
               | Some (la, lo) => Ok (PFloat la, PFloat lo)
               | None => Ok (lat, lon)
               end
             else Ok (lat, lon)) ;;
  match floats_or_none (fst latlon) (snd latlon) with
  | (Some lat_f, Some lon_f) =>
      sd <- get t "start_date" (PStr "") ;;
      Ok (Some (mkmap_row dest lat_f lon_f sd))
  | _ => Ok None
  end.


End MapPage.

(** ** Insights page: most visited destination *)

Module Stats.

(** [dest_counts[k] += 1] on a [defaultdict(int)]. *)
Fixpoint count_incr (k : string) (counts : list (string * Z)) : list (string * Z) :=
  match counts with
  | [] => [(k, 1)]
  | (k', n) :: rest =>
      if String.eqb k k' then (k', n + 1) :: rest else (k', n) :: count_incr k rest
  end.

(** [for t in user_trips: dest_counts[t.get("destination","").strip()] += 1]. *)
Fixpoint dest_loop (ts : list value) (dest_counts : list (string * Z))
  : result (list (string * Z)) :=
  match ts with
  | [] => Ok dest_counts
  | t :: rest =>
      d <- Obj.get t "destination" (PStr "") ;;
      match d with
      | PStr s => dest_loop rest (count_incr (Str.strip s) dest_counts)
      | _ => Raise AttributeError
      end
  end.

(** [max(items, key=lambda x: x[1])]: an item replaces the best so far when
    its count is greater. *)
Fixpoint max_by_count (items : list (string * Z)) (best : string * Z) : string * Z :=
  match items with
  | [] => best
  | item :: rest =>
      if snd best <? snd item then max_by_count rest item else max_by_count rest best
  end.

Definition placeholder : string := "—".

Definition most_visited (user_trips : list value) : result string :=
  dest_counts <- dest_loop user_trips [] ;;
  match dest_counts with
  | [] => Ok placeholder
  | first :: rest => Ok (fst (max_by_count rest first))
  end.

End Stats.

(** ** Vocabulary for the pages *)

Module PageSpec.

Import Obj ReminderSpec.

(** The trimmed destination of a trip record, when it is a string. *)
Definition dest_of (t : dict) : string :=
  match field t "destination" (PStr "") with
  | PStr s => Str.strip s
  | _ => EmptyString
  end.

(** The destination of the record is a string, or missing. *)
Definition has_text_destination (t : dict) : Prop :=
  exists s, field t "destination" (PStr "") = PStr s.

(** How often [k] is among [ds]. *)
Definition times (k : string) (ds : list string) : Z :=
  Z.of_nat (count_occ string_dec ds k).

(** [k] is met in [ds] before any of the [others] is. *)
Definition first_before (k other : string) (ds : list string) : Prop :=
  exists l1 l2, ds = l1 ++ k :: l2 /\ ~ In other l1.

(** The count [dest_counts] holds for [k]; 0 when [k] is no key. *)
Fixpoint count_of (k : string) (counts : list (string * Z)) : Z :=
  match counts with
  | [] => 0
  | (k', n) :: rest => if String.eqb k k' then n else count_of k rest
  end.

(** The counts after the destinations [ds], from none. *)
Definition tally (ds : list string) : list (string * Z) :=
  fold_left (fun counts d => Stats.count_incr d counts) ds [].

(** The trip starts today or later: its start date parses and its ordinal
    is at least today's. *)
Definition starts_on_or_after (today : Datetime.date) (t : dict) : bool :=
  match Reminders.parse_date_str (field t "start_date" (PStr "")) with
  | Some d => Datetime.toordinal today <=? Datetime.toordinal d
  | None => false
  end.

(** What a float amount [x] counts for: [float(x or 0)], that is [x], or
    [0.0] when [x] is zero. *)
Definition counted (x : float) : float :=
  if PrimFloat.eqb x 0%float then 0%float else x.

(** The floats added one after the other to [0.0], from the left. *)
Definition running_sum (xs : list float) : float :=
  fold_left PrimFloat.add xs 0%float.

(** The expense record [e] has the float amount [x]. *)
Definition priced (e : dict) (x : float) : Prop :=
  dict_get "amount" e = Some (PFloat x).

(** The trip [t] has a list of expense records with the amounts [xs]. *)
Definition priced_trip (t : dict) (xs : list float) : Prop :=
  exists es, dict_get "expenses" t = Some (PList (map PDict es)) /\ Forall2 priced es xs.

End PageSpec.

(** ** Sidebar: logout and the menu *)

Module Sidebar.

Import Auth.

(** The handler of the Logout button. *)
Definition logout_button (s : session) : session :=
  mksession false "" (PStr "user").

(** [st.session_state.role == "admin"]. *)
Definition is_admin (role : value) : bool :=
  match role with
  | PStr r => String.eqb r "admin"
  | _ => false
  end.

(** The entries of the menu select box. *)
Definition menu_options (s : session) : list string :=
  if logged_in s then
    let options := ["Home"; "Dashboard"; "Insights"; "Trip Planner"; "Map";
                    "Edit Profile"; "Settings"; "Contact"; "Chatbot"] in
    if is_admin (session_role s) then options ++ ["Admin Panel"] else options
  else ["Login"; "Sign Up"].

End Sidebar.

(** ** Sign Up *)

Module SignUp.

Import Obj Persistence.

(** What the handler shows. *)
Inductive notice : Type :=
| Warning (message : string)
| Created (message : string)
| Balloons.

Section Handler.

Variable crypt : string -> list string -> result string.
Variable json_dump : value -> string.

(** [hash_password(password)]; [salt] stands for the value
    [bcrypt.gensalt()] returns. *)
Definition hash_password (salt password : string) : result string :=
  Auth.hashpw crypt password salt.

(** [img_filename]: [profile_image] is [None] when no picture was uploaded,
    and else the outcome of [Image.open(profile_image).save(img_filename)],
    which is the work of the image library. *)
Definition img_filename (new_user : string) (profile_image : option (result unit))
  : result value :=
  match profile_image with
  | None => Ok PNone
  | Some saved =>
      _ <- saved ;;
      Ok (PStr ("profile_pics/" ++ new_user ++ ".png"))
  end.

(** The handler of the Sign Up button: the users mapping and the backing
    files when it ends, what was shown, and whether it ended with an
    exception. *)
Definition signup_button (salt : string) (profile_image : option (result unit))
    (users : dict) (new_user new_pass : string) (fs : files)
  : dict * files * list notice * result unit :=
  if dict_mem new_user users then
    (users, fs, [Warning "Username already exists."], Ok tt)
  else if String.eqb new_user "" || String.eqb new_pass "" then
    (users, fs, [Warning "Please enter both username and password."], Ok tt)
  else
    match img_filename new_user profile_image with
    | Raise e => (users, fs, [], Raise e)
    | Ok img =>
        match hash_password salt new_pass with
        | Raise e => (users, fs, [], Raise e)
        | Ok hashed =>
            let users :=
              dict_set new_user
                (PDict [ ("password", PStr hashed);
                         ("profile_pic", img);
                         ("role", PStr "user");
                         ("bio", PStr "");
                         ("favorite_destination", PStr "");
                         ("goals", PStr "") ])
                users in
            (users, save_users json_dump (PDict users) fs,
             [Created "Account created successfully! You can now login."; Balloons],
             Ok tt)
        end
    end.

End Handler.

(** A stand-in for the hash computation in examples: the first four
    characters of the third field are kept as the salt and the password
    follows them. *)
Definition sample_crypt (password : string) (fields : list string) : result string :=
  match fields with
  | [version; cost; rest] =>
      Ok ("$" ++ version ++ "$" ++ cost ++ "$" ++ String.substring 0 4 rest ++ password)%string
  | _ => Raise ValueError
  end.

End SignUp.

(** ** Trip Planner: saving a trip *)

Module Planner.

Import Obj Persistence.

(** What the handler shows. *)
Inductive notice : Type :=
| Saved (destination : string)
| Toasts (ts : list Reminders.toast)
| Warning (message : string).

(** [float(x) if x not in (None, "") else None] on the text of an input. *)
Definition coord (input : string) : result value :=
  if String.eqb input "" then Ok PNone
  else f <- Float.of_str input ;; Ok (PFloat f).

(** The [try] block: [lat_val] and [lon_val], both [None] when a
    conversion raises. *)
Definition coords (lat_input lon_input : string) : value * value :=
  match (lat_val <- coord lat_input ;; lon_val <- coord lon_input ;; Ok (lat_val, lon_val)) with
  | Ok p => p
  | Raise _ => (PNone, PNone)
  end.

(** [new_trip]; [str(start_date)] is the ISO format of the date. *)
Definition new_trip (destination : string) (start_date end_date : Datetime.date)
    (notes lat_input lon_input : string) : dict :=
  let '(lat_val, lon_val) := coords lat_input lon_input in
  [ ("destination", PStr destination);
    ("start_date", PStr (DateSpec.isoformat start_date));
    ("end_date", PStr (DateSpec.isoformat end_date));
    ("notes", PStr notes);
    ("expenses", PList []);
    ("checklist", PList []);
    ("lat", lat_val);
    ("lon", lon_val) ].

(** [x.append(item)]: only a list has the method. *)
Definition append (x item : value) : result value :=
  match x with
  | PList l => Ok (PList (l ++ [item]))
  | _ => Raise AttributeError
  end.

Section Handler.

Variable json_dump : value -> string.

(** The handler of the Save Trip button on the mapping [load_trips]
    returned: the mapping and the backing files when it ends, what was
    shown, and whether it ended with an exception. *)
Definition save_trip_button (today : Datetime.date) (username : string) (trips : dict)
    (destination : string) (start_date end_date : Datetime.date)
    (notes lat_input lon_input : string) (fs : files)
  : dict * files * list notice * result unit :=
  let user_trips := match dict_get username trips with Some v => v | None => PList [] end in
  if negb (String.eqb destination "") then
    match append user_trips
            (PDict (new_trip destination start_date end_date notes lat_input lon_input)) with
    | Raise e => (trips, fs, [], Raise e)
    | Ok user_trips =>
        let trips := dict_set username user_trips trips in
        let fs := save_trips json_dump (PDict trips) fs in
        let '(ts, r) := Reminders.trigger_reminders today username (PDict trips) in
        (trips, fs, [Saved destination; Toasts ts], r)
    end
  else (trips, fs, [Warning "Please enter a destination."], Ok tt).

End Handler.

End Planner.

(** ** Trip Planner: adding an expense *)

Module Expenses.

Import Obj Persistence.

(** [trip[k].append(item)]: the trip after the call. The list is changed
    in place, so the key keeps its position in the record. *)
Definition append_at (k : string) (item : value) (trip : value) : result value :=
  l <- getitem trip k ;;
  l' <- Planner.append l item ;;
  match trip with
  | PDict d => Ok (PDict (dict_set k l' d))
  | _ => Raise TypeError
  end.

Section Handler.

Variable json_dump : value -> string.

(** The handler of the Add Expense button beside the trip of index [i] in
    [user_trips = trips.get(username, [])]; [amount] is the float of the
    number input. The loop draws the button only beside an element of a
    list, so outside this case nothing happens. *)
Definition add_expense_button (username : string) (trips : dict) (i : nat)
    (category desc : string) (amount : float) (fs : files)
  : dict * files * list Planner.notice * result unit :=
  match (match dict_get username trips with Some v => v | None => PList [] end) with
  | PList user_trips =>
      match nth_error user_trips i with
      | Some trip =>
          if negb (String.eqb desc "") && PrimFloat.ltb 0%float amount then
            match append_at "expenses"
                    (PDict [ ("category", PStr category);
                             ("description", PStr desc);
                             ("amount", PFloat amount) ])
                    trip with
            | Raise e => (trips, fs, [], Raise e)
            | Ok trip' =>
                let user_trips := firstn i user_trips ++ trip' :: skipn (S i) user_trips in
                let trips := dict_set username (PList user_trips) trips in
                (trips, save_trips json_dump (PDict trips) fs, [], Ok tt)
            end
          else (trips, fs, [Planner.Warning "Enter a description and amount."], Ok tt)
      | None => (trips, fs, [], Ok tt)
      end
  | _ => (trips, fs, [], Ok tt)
  end.

End Handler.

End Expenses.

(** ** Settings: changing the password *)

Module Settings.

Import Obj Persistence.

(** What the handler shows. *)
Inductive notice : Type :=
| Updated (message : string).

(** [data[k][f] = v]: the object [data[k]] refers to is changed, so [data]
    afterwards holds the changed object at [k]. *)
Definition setitem_at (data : dict) (k f : string) (v : value) : result dict :=
  x <- getitem (PDict data) k ;;
  x' <- setitem x f v ;;
  Ok (dict_set k x' data).

Section Handler.

Variable crypt : string -> list string -> result string.
Variable json_dump : value -> string.

(** The handler of the Update Password button for the user of the session;
    the right-hand side of the assignment is evaluated first. *)
Definition update_password_button (salt : string) (username : string) (users : dict)
    (new_pass : string) (fs : files)
  : dict * files * list notice * result unit :=
  if negb (String.eqb new_pass "") then
    match (hashed <- SignUp.hash_password crypt salt new_pass ;;
           setitem_at users username "password" (PStr hashed)) with
    | Raise e => (users, fs, [], Raise e)
    | Ok users' =>
        (users', save_users json_dump (PDict users') fs,
         [Updated "Password updated successfully!"], Ok tt)
    end
  else (users, fs, [], Ok tt).

End Handler.

End Settings.

(** * Properties *)

(** ** Badges *)

Module BadgeFacts.

Import Badges BadgeSpec.

Ltac decide_scan :=
  repeat match goal with
         | |- context [?a >=? ?b] =>
             let E := fresh "E" in
             destruct (Z.geb_spec a b) as [E | E]; try lia; cbn
         end.

(** The scan in closed form, one line per band of trip counts. *)
Lemma get_user_badge_bands (n : Z) :
  (n < 1 -> get_user_badge n = ("New Traveler", 0, Some 1)) /\
  (1 <= n < 3 -> get_user_badge n = ("Explorer", 1, Some 3)) /\
  (3 <= n < 6 -> get_user_badge n = ("Adventurer", 2, Some 6)) /\
  (6 <= n < 10 -> get_user_badge n = ("Globetrotter", 3, Some 10)) /\
  (10 <= n -> get_user_badge n = ("World Citizen", 4, None)).
Proof.
  unfold get_user_badge; cbn.
  repeat split; intros H; decide_scan; reflexivity.
Qed.

Lemma tier_index_bound (j : nat) (name : string) (threshold : Z) :
  tier_is j name threshold -> (j < 5)%nat.
Proof.
  unfold tier_is. intros H.
  assert (L : (j < List.length tiers)%nat) by (apply nth_error_Some; congruence).
  exact L.
Qed.

(** Thresholds grow with the index. *)
Lemma tiers_increasing (i j : nat) (ni nj : string) (ti tj : Z) :
  tier_is i ni ti -> tier_is j nj tj -> (i < j)%nat -> ti < tj.
Proof.
  unfold tier_is. intros Hi Hj Hlt.
  destruct i as [|[|[|[|[|i]]]]]; destruct j as [|[|[|[|[|j]]]]];
    cbn in Hi, Hj; try lia;
    try (destruct i; discriminate); try (destruct j; discriminate);
    inversion Hi; inversion Hj; subst; lia.
Qed.

(** Once the tier right above [i] is out of reach, all tiers above are. *)
Lemma above_cut (n : Z) (i : nat) (namek : string) (thk : Z) :
  tier_is (S i) namek thk -> n < thk ->
  forall j name' th', tier_is j name' th' -> (i < j)%nat -> n < th'.
Proof.
  intros Hk Hlt j name' th' Hj Hij.
  destruct (Nat.eq_dec j (S i)) as [-> | Hne].
  - unfold tier_is in *. congruence.
  - assert (thk < th') by (eapply (tiers_increasing (S i) j); eauto; lia). lia.
Qed.

(** A tier within reach with every tier above out of reach is the answer. *)
Lemma highest_tier_intro (n : Z) (b : badge) (i : nat) (name : string) (th : Z) :
  tier_is i name th -> th <= n ->
  (forall j name' th', tier_is j name' th' -> (i < j)%nat -> n < th') ->
  b = (name, Z.of_nat i, threshold_above i) ->
  highest_tier n b.
Proof.
  intros Hi Hle Above Heq.
  exists i, name, th. repeat split; auto.
  intros j name' th' Hj Hle'.
  destruct (Nat.le_gt_cases j i) as [ | Hlt]; [assumption | ].
  specialize (Above _ _ _ Hj Hlt). lia.
Qed.

(** C3: for every non-negative trip count, [get_user_badge] returns the
    highest tier whose threshold is at most the count, with that tier's
    index and the threshold of the tier right above it ([None] for the last
    tier); and it takes the four values the specification lists at 0, 3, 10
    and 999. *)
Theorem get_user_badge_highest_tier (n : Z) :
  0 <= n ->
  highest_tier n (get_user_badge n) /\
  get_user_badge 0 = ("New Traveler", 0, Some 1) /\
  get_user_badge 3 = ("Adventurer", 2, Some 6) /\
  get_user_badge 10 = ("World Citizen", 4, None) /\
  get_user_badge 999 = ("World Citizen", 4, None).
Proof.
  intros Hn. split; [ | repeat split; reflexivity ].
  destruct (get_user_badge_bands n) as (B0 & B1 & B2 & B3 & B4).
  destruct (Z_lt_le_dec n 1) as [H1 | H1].
  { apply (highest_tier_intro n _ 0%nat "New Traveler" 0);
      [reflexivity | lia | | rewrite B0 by lia; reflexivity].
    apply (above_cut n 0%nat "Explorer" 1); [reflexivity | lia]. }
  destruct (Z_lt_le_dec n 3) as [H3 | H3].
  { apply (highest_tier_intro n _ 1%nat "Explorer" 1);
      [reflexivity | lia | | rewrite B1 by lia; reflexivity].
    apply (above_cut n 1%nat "Adventurer" 3); [reflexivity | lia]. }
  destruct (Z_lt_le_dec n 6) as [H6 | H6].
  { apply (highest_tier_intro n _ 2%nat "Adventurer" 3);
      [reflexivity | lia | | rewrite B2 by lia; reflexivity].
    apply (above_cut n 2%nat "Globetrotter" 6); [reflexivity | lia]. }
  destruct (Z_lt_le_dec n 10) as [H10 | H10].
  { apply (highest_tier_intro n _ 3%nat "Globetrotter" 6);
      [reflexivity | lia | | rewrite B3 by lia; reflexivity].
    apply (above_cut n 3%nat "World Citizen" 10); [reflexivity | lia]. }
  apply (highest_tier_intro n _ 4%nat "World Citizen" 10);
    [reflexivity | lia | | rewrite B4 by lia; reflexivity].
  intros j name' th' Hj Hij. pose proof (tier_index_bound _ _ _ Hj). lia.
Qed.

Lemma get_user_badge_highest_tier_witness :
  0 <= 7 /\ highest_tier 7 (get_user_badge 7) /\
  get_user_badge 0 = ("New Traveler", 0, Some 1).
Proof.
  split; [lia | ].
  pose proof (get_user_badge_highest_tier 7 ltac:(lia)) as H.
  split; [exact (proj1 H) | exact (proj1 (proj2 H))].
Defined.

(** C4: for every non-negative [n], the third component of
    [get_user_badge n] is [None] or a threshold strictly above [n]. *)
Theorem next_threshold_above (n : Z) :
  0 <= n ->
  match snd (get_user_badge n) with
  | None => True
  | Some next_threshold => n < next_threshold
  end.
Proof.
  intros _.
  destruct (get_user_badge_bands n) as (B0 & B1 & B2 & B3 & B4).
  destruct (Z_lt_le_dec n 1); [rewrite B0 by lia; cbn; lia | ].
  destruct (Z_lt_le_dec n 3); [rewrite B1 by lia; cbn; lia | ].
  destruct (Z_lt_le_dec n 6); [rewrite B2 by lia; cbn; lia | ].
  destruct (Z_lt_le_dec n 10); [rewrite B3 by lia; cbn; lia | ].
  rewrite B4 by lia; exact I.
Qed.

Lemma next_threshold_above_witness :
  0 <= 4 /\ match snd (get_user_badge 4) with
            | None => True
            | Some next_threshold => 4 < next_threshold
            end.
Proof.
  split; [lia | apply (next_threshold_above 4); lia].
Defined.

(** C10: a negative trip count leaves the scan at its first test, so the
    initial locals come back: the result is [("New Traveler", 0, 1)], the
    one for a count of 0. *)
Theorem get_user_badge_negative (n : Z) :
  n < 0 ->
  get_user_badge n = ("New Traveler", 0, Some 1) /\
  get_user_badge n = get_user_badge 0 /\
  badge_scan n (seq 0 (List.length tiers)) ("New Traveler", 0, Some 1)
    = ("New Traveler", 0, Some 1).
Proof.
  intros Hn.
  assert (E : get_user_badge n = ("New Traveler", 0, Some 1)).
  { unfold get_user_badge; cbn. decide_scan. reflexivity. }
  repeat split; [exact E | rewrite E; reflexivity | exact E].
Qed.

Lemma get_user_badge_negative_witness :
  -5 < 0 /\ get_user_badge (-5) = ("New Traveler", 0, Some 1).
Proof.
  split; [lia | apply (get_user_badge_negative (-5)); lia].
Defined.

End BadgeFacts.

(** ** Strings *)

Module StrFacts.

Import Str StrSpec.

Lemma append_empty_r (s : string) : (s ++ "")%string = s.
Proof. induction s as [| c s IH]; cbn; [reflexivity | rewrite IH; reflexivity]. Qed.

Lemma append_assoc (a b c : string) : ((a ++ b) ++ c)%string = (a ++ (b ++ c))%string.
Proof. induction a as [| x a IH]; cbn; [reflexivity | rewrite IH; reflexivity]. Qed.

(** [prefix k s] says that [s] starts with [k]. *)
Lemma prefix_app (k s : string) :
  prefix k s = true <-> exists b, s = (k ++ b)%string.
Proof.
  revert s. induction k as [| c k IH]; intros s; cbn.
  - split; [intros _; exists s; reflexivity | intros _; destruct s; reflexivity].
  - destruct s as [| d s].
    + split; [discriminate | intros [b Hb]; discriminate].
    + simpl. destruct (ascii_dec c d) as [-> | Hne].
      * rewrite IH. split; intros [b Hb]; exists b; congruence.
      * split; [discriminate | intros [b Hb]; congruence].
Qed.

Lemma contains_unfold (s k : string) :
  contains s k =
  if prefix k s then true
  else match s with
       | EmptyString => false
       | String _ s' => contains s' k
       end.
Proof. destruct s; reflexivity. Qed.

(** [contains] decides whether [k] occurs in [s]. *)
Lemma contains_occurs (s k : string) :
  contains s k = true <-> occurs k s.
Proof.
  induction s as [| c s IH]; rewrite contains_unfold;
    match goal with |- context [prefix k ?t] => destruct (prefix k t) eqn:P end.
  - split; [intros _ | reflexivity].
    apply prefix_app in P. destruct P as [b Hb]. exists EmptyString, b. exact Hb.
  - split; [discriminate | ].
    intros (a & b & H). destruct a as [| x a]; [ | discriminate].
    assert (prefix k EmptyString = true) by (apply prefix_app; exists b; exact H).
    congruence.
  - split; [intros _ | reflexivity].
    apply prefix_app in P. destruct P as [b Hb]. exists EmptyString, b. exact Hb.
  - rewrite IH. split.
    + intros (a & b & H). exists (String c a), b. cbn. congruence.
    + intros (a & b & H). destruct a as [| x a].
      * assert (prefix k (String c s) = true) by (apply prefix_app; exists b; exact H).
        congruence.
      * cbn in H. exists a, b. congruence.
Qed.

Lemma contains_not_occurs (s k : string) :
  contains s k = false <-> ~ occurs k s.
Proof.
  rewrite <- contains_occurs. destruct (contains s k); split; congruence.
Qed.

Lemma is_space_text_iff (t : string) : is_space_text t = true <-> space_text t.
Proof.
  unfold is_space_text, space_text. rewrite existsb_exists. split.
  - intros (w & Hin & E). apply String.eqb_eq in E. subst w. exact Hin.
  - intros Hin. exists t. split; [exact Hin | apply String.eqb_refl].
Qed.

(** A whitespace character has one, two or three bytes. *)
Lemma space_text_bytes (w : string) :
  space_text w ->
  (exists c0, w = String c0 EmptyString) \/
  (exists c0 c1, w = String c0 (String c1 EmptyString)) \/
  (exists c0 c1 c2, w = String c0 (String c1 (String c2 EmptyString))).
Proof.
  unfold space_text, SPACES. cbn [In]. intros H.
  repeat (destruct H as [<- | H]; [eauto 6 | ]). destruct H.
Qed.

Lemma space_at_head_iff (s : string) :
  space_at_head s = true <-> exists w r, space_text w /\ s = (w ++ r)%string.
Proof.
  split.
  - destruct s as [| c0 s1]; cbn [space_at_head]; [discriminate | ].
    destruct (is_space_text (String c0 EmptyString)) eqn:T1.
    { intros _. exists (String c0 EmptyString), s1.
      apply is_space_text_iff in T1. auto. }
    destruct s1 as [| c1 s2]; cbn [orb]; [discriminate | ].
    destruct (is_space_text (String c0 (String c1 EmptyString))) eqn:T2.
    { intros _. exists (String c0 (String c1 EmptyString)), s2.
      apply is_space_text_iff in T2. auto. }
    destruct s2 as [| c2 s3]; cbn [orb]; [discriminate | ].
    intros T3. exists (String c0 (String c1 (String c2 EmptyString))), s3.
    apply is_space_text_iff in T3. auto.
  - intros (w & r & Hw & ->). pose proof Hw as Hw'. apply is_space_text_iff in Hw'.
    destruct (space_text_bytes w Hw) as [(c0 & ->) | [(c0 & c1 & ->) | (c0 & c1 & c2 & ->)]];
      cbn [append space_at_head]; rewrite Hw', ?orb_true_r; reflexivity.
Qed.

Lemma lstrip_unfold (s : string) :
  lstrip s =
  match s with
  | EmptyString => EmptyString
  | String c0 s1 =>
      if is_space_text (String c0 EmptyString) then lstrip s1
      else
        match s1 with
        | EmptyString => s
        | String c1 s2 =>
            if is_space_text (String c0 (String c1 EmptyString)) then lstrip s2
            else
              match s2 with
              | EmptyString => s
              | String c2 s3 =>
                  if is_space_text (String c0 (String c1 (String c2 EmptyString)))
                  then lstrip s3
                  else s
              end
        end
  end.
Proof. destruct s as [| c0 [| c1 [| c2 s3]]]; reflexivity. Qed.

(** What [lstrip] does in one step: it drops the whitespace character at
    the head, or stops where there is none. *)
Lemma lstrip_step (s : string) :
  (space_at_head s = false /\ lstrip s = s) \/
  (exists w r, space_text w /\ s = (w ++ r)%string /\ lstrip s = lstrip r).
Proof.
  rewrite lstrip_unfold.
  destruct s as [| c0 s1]; [left; split; reflexivity | ].
  cbn [space_at_head].
  destruct (is_space_text (String c0 EmptyString)) eqn:T1.
  { right. exists (String c0 EmptyString), s1. apply is_space_text_iff in T1. auto. }
  destruct s1 as [| c1 s2]; [left; split; reflexivity | ].
  destruct (is_space_text (String c0 (String c1 EmptyString))) eqn:T2.
  { right. exists (String c0 (String c1 EmptyString)), s2. apply is_space_text_iff in T2. auto. }
  destruct s2 as [| c2 s3]; [left; split; reflexivity | ].
  destruct (is_space_text (String c0 (String c1 (String c2 EmptyString)))) eqn:T3.
  { right. exists (String c0 (String c1 (String c2 EmptyString))), s3.
    apply is_space_text_iff in T3. auto. }
  left. split; reflexivity.
Qed.

Lemma length_append (a b : string) :
  String.length (a ++ b) = (String.length a + String.length b)%nat.
Proof. induction a as [| c a IH]; cbn; [reflexivity | rewrite IH; reflexivity]. Qed.

Lemma space_text_nonempty (w : string) : space_text w -> (0 < String.length w)%nat.
Proof.
  intros H.
  destruct (space_text_bytes w H) as [(c0 & ->) | [(c0 & c1 & ->) | (c0 & c1 & c2 & ->)]];
    cbn; lia.
Qed.

(** [lstrip] drops a run of whitespace characters and leaves none in front. *)
Lemma lstrip_spec (s : string) :
  exists a, s = (a ++ lstrip s)%string /\ blank a /\ space_at_head (lstrip s) = false.
Proof.
  remember (String.length s) as n eqn:Hn. revert s Hn.
  induction n as [n IH] using lt_wf_ind. intros s Hn.
  destruct (lstrip_step s) as [[Hh ->] | (w & r & Hw & -> & ->)].
  - exists EmptyString. repeat split; [constructor | exact Hh].
  - pose proof (space_text_nonempty w Hw) as Hl.
    destruct (IH (String.length r)) with (s := r) as (a & Hr & Ha & Hh);
      [rewrite Hn, length_append; lia | reflexivity | ].
    exists (w ++ a)%string. repeat split.
    + rewrite append_assoc, <- Hr. reflexivity.
    + constructor; assumption.
    + exact Hh.
Qed.

Lemma rstrip_unfold (c : ascii) (s : string) :
  rstrip (String c s) =
  if is_space_text (String c (rstrip s)) then EmptyString else String c (rstrip s).
Proof. reflexivity. Qed.

(** [rstrip] drops a run of whitespace characters and leaves none at the
    end. *)
Lemma rstrip_spec (s : string) :
  exists b, s = (rstrip s ++ b)%string /\ blank b /\
            forall w r, space_text w -> rstrip s <> (r ++ w)%string.
Proof.
  induction s as [| c s (b & Hs & Hb & Hl)].
  - exists EmptyString. repeat split; [constructor | ].
    intros w r Hw E. apply space_text_nonempty in Hw.
    apply (f_equal String.length) in E. rewrite length_append in E. cbn in E. lia.
  - rewrite rstrip_unfold. destruct (is_space_text (String c (rstrip s))) eqn:T.
    + exists (String c (rstrip s) ++ b)%string. repeat split.
      * cbn. rewrite <- Hs. reflexivity.
      * constructor; [apply is_space_text_iff; exact T | exact Hb].
      * intros w r Hw E. apply space_text_nonempty in Hw.
        apply (f_equal String.length) in E. rewrite length_append in E. cbn in E. lia.
    + exists b. repeat split; [cbn; rewrite <- Hs; reflexivity | exact Hb | ].
      intros w r Hw E. destruct r as [| x r]; cbn in E.
      * subst w. apply is_space_text_iff in Hw. congruence.
      * injection E as _ E. apply (Hl w r Hw E).
Qed.

(** [strip] drops whitespace at both ends, and all of it. *)
Lemma strip_spec (s : string) :
  exists a b, s = (a ++ strip s ++ b)%string /\ blank a /\ blank b /\
              trimmed (strip s).
Proof.
  destruct (lstrip_spec s) as (a & Hs & Ha & Hh).
  destruct (rstrip_spec (lstrip s)) as (b & Hr & Hb & Hl).
  exists a, b. unfold strip. repeat split; try assumption.
  - rewrite <- Hr. exact Hs.
  - intros w r Hw E.
    assert (H : space_at_head (lstrip s) = true).
    { apply space_at_head_iff. exists w, (r ++ b)%string. split; [exact Hw | ].
      rewrite Hr at 1. rewrite E, append_assoc. reflexivity. }
    congruence.
Qed.

(** [lower] replaces each character by its lower-case form. *)
Lemma lower_chars (s : string) :
  list_ascii_of_string (lower s) = map lower_char (list_ascii_of_string s).
Proof. induction s as [| c s IH]; cbn; [reflexivity | rewrite IH; reflexivity]. Qed.

Example strip_lower_paris :
  lower (strip "  Paris, France ") = "paris, france".
Proof. reflexivity. Qed.

Example contains_france :
  contains "paris, france" "france" = true /\ contains "paris, france" "tokyo" = false.
Proof. split; reflexivity. Qed.

End StrFacts.

(** ** Coordinate fallback *)

Module GeoFacts.

Import Str Geo StrSpec StrFacts GeoSpec.

(** The scan returns [v] exactly when [v] is the value of the first entry
    whose key occurs in [key]. *)
Lemma first_match_Some (items : list (string * coords)) (key : string) (v : coords) :
  first_match items key = Some v <-> exists k, first_entry items key k v.
Proof.
  induction items as [| [k0 v0] items IH]; cbn.
  - split; [discriminate | ].
    intros (k & before & after & H & _). destruct before; discriminate.
  - destruct (contains key k0) eqn:C.
    + split.
      * intros E. inversion E; subst. exists k0, [], items.
        repeat split; [apply contains_occurs; exact C | intros ? ? []].
      * intros (k & before & after & H & Hk & Hb).
        destruct before as [| [k1 v1] before]; cbn in H.
        -- congruence.
        -- inversion H; subst. exfalso.
           apply (Hb k1 v1); [left; reflexivity | apply contains_occurs; exact C].
    + rewrite IH. split.
      * intros (k & before & after & H & Hk & Hb).
        exists k, ((k0, v0) :: before), after. repeat split.
        -- cbn. congruence.
        -- exact Hk.
        -- intros k' v' [E | Hin].
           ++ inversion E; subst. apply contains_not_occurs. exact C.
           ++ eapply Hb; eauto.
      * intros (k & before & after & H & Hk & Hb).
        destruct before as [| [k1 v1] before]; cbn in H.
        -- inversion H; subst. apply contains_occurs in Hk. congruence.
        -- inversion H; subst. exists k, before, after. repeat split; auto.
           intros k' v' Hin. apply (Hb k' v'). right. exact Hin.
Qed.

(** It returns [None] exactly when no key occurs in [key]. *)
Lemma first_match_None (items : list (string * coords)) (key : string) :
  first_match items key = None <->
  forall k v, In (k, v) items -> ~ occurs k key.
Proof.
  induction items as [| [k0 v0] items IH]; cbn.
  - split; [intros _ ? ? [] | reflexivity].
  - destruct (contains key k0) eqn:C.
    + split; [discriminate | ].
      intros H. exfalso. apply (H k0 v0); [left; reflexivity | ].
      apply contains_occurs. exact C.
    + rewrite IH. split.
      * intros H k v [E | Hin]; [ | eauto].
        inversion E; subst. apply contains_not_occurs. exact C.
      * intros H k v Hin. apply (H k v). right. exact Hin.
Qed.

(** C1, as the code has it: the fallback trims the input (the whitespace
    characters at both ends are dropped, and only they) and lower-cases it
    with [str.lower()], whatever case mapping that is, and returns the
    coordinates of the first table key, in table order, that occurs in the
    result, or [None] when no key does; the table lists ["france"] before
    ["paris"], so for ["Paris, France"], whose lower-case form is
    ["paris, france"], the answer is the ["france"] entry (46.2, 2.2). *)
Theorem fallback_first_match (str_lower : string -> string) :
  (forall dest,
      exists a b,
        dest = (a ++ strip dest ++ b)%string /\
        blank a /\ blank b /\ trimmed (strip dest)) /\
  (forall dest v,
      fallback_coords str_lower dest = Some v <->
      exists k, first_entry FALLBACK_CENTROIDS (str_lower (strip dest)) k v) /\
  (forall dest,
      fallback_coords str_lower dest = None <->
      forall k v, In (k, v) FALLBACK_CENTROIDS -> ~ occurs k (str_lower (strip dest))) /\
  (str_lower "Paris, France" = "paris, france" ->
   fallback_coords str_lower "Paris, France" = Some (46.2, 2.2)%float /\
   first_entry FALLBACK_CENTROIDS (str_lower (strip "Paris, France")) "france"
     (46.2, 2.2)%float).
Proof.
  split; [exact strip_spec | ].
  split; [ | split].
  - intros dest v. apply first_match_Some.
  - intros dest. apply first_match_None.
  - intros Hlow.
    assert (S : strip "Paris, France" = "Paris, France") by reflexivity.
    unfold fallback_coords. rewrite S, Hlow. split; [reflexivity | ].
    exists [], (tl FALLBACK_CENTROIDS). repeat split.
    + apply contains_occurs. reflexivity.
    + intros ? ? [].
Qed.

(** On ASCII text, where [Str.lower] is the lower-casing. *)
Lemma fallback_first_match_witness :
  fallback_coords_for_destination "Paris, France" = Some (46.2, 2.2)%float /\
  first_entry FALLBACK_CENTROIDS (lower (strip "Paris, France")) "france" (46.2, 2.2)%float.
Proof.
  apply (fallback_first_match lower). reflexivity.
Defined.

(** C1 as stated fails: for ["Paris, France"] the fallback does not return
    the table's ["paris"] entry (48.85, 2.35). *)
Lemma fallback_paris_france_not_paris :
  In ("paris", (48.85, 2.35)%float) FALLBACK_CENTROIDS /\
  fallback_coords_for_destination "Paris, France" <> Some (48.85, 2.35)%float.
Proof.
  split.
  - right; left; reflexivity.
  - intros H.
    assert (E : option_map (fun c => PrimFloat.ltb (fst c) 47) (fallback_coords_for_destination "Paris, France")
                = option_map (fun c => PrimFloat.ltb (fst c) 47) (Some (48.85, 2.35)%float))
      by (rewrite H; reflexivity).
    vm_compute in E. discriminate E.
Qed.

Example fallback_tokyo :
  fallback_coords_for_destination "Tokyo Tower" = Some (35.67, 139.65)%float.
Proof. reflexivity. Qed.

Example fallback_unknown : fallback_coords_for_destination "Oslo" = None.
Proof. reflexivity. Qed.

End GeoFacts.

(** ** Text *)

Module UnicodeFacts.

Import Unicode.

Lemma byte_range (c : ascii) : 0 <= byte c < 256.
Proof. unfold byte. pose proof (nat_ascii_bounded c). lia. Qed.

Lemma char_byte (c : ascii) : char (byte c) = String c EmptyString.
Proof. unfold char, byte. rewrite Nat2Z.id, ascii_nat_embedding. reflexivity. Qed.

Lemma byte_char (n : Z) : 0 <= n < 256 -> byte (ascii_of_nat (Z.to_nat n)) = n.
Proof. intros H. unfold byte. rewrite nat_ascii_embedding by lia. lia. Qed.

Lemma is_cont_range (c : ascii) : is_cont c = true <-> 128 <= byte c < 192.
Proof. unfold is_cont. rewrite andb_true_iff, Z.leb_le, Z.ltb_lt. reflexivity. Qed.

(** What [next] reads is the character's bytes. *)
Lemma next_inv (s : string) (cp : Z) (rest : string) :
  next s = Some (cp, rest) -> s = (utf8 cp ++ rest)%string /\ 0 <= cp <= 1114111.
Proof.
  destruct s as [| c0 s1]; cbn [next]; [discriminate | ].
  pose proof (byte_range c0) as R0. pose proof (char_byte c0) as C0.
  cbv zeta. destruct (Z.ltb_spec (byte c0) 128).
  { intros E. inversion E. subst. unfold utf8.
    destruct (Z.ltb_spec (byte c0) 128); [ | lia]. rewrite C0. split; [reflexivity | lia]. }
  destruct (Z.ltb_spec (byte c0) 192); [discriminate | ].
  destruct s1 as [| c1 s2]; [discriminate | ].
  pose proof (byte_range c1) as R1. pose proof (char_byte c1) as C1.
  destruct (is_cont c1) eqn:K1; cbn [negb]; [ | discriminate].
  apply is_cont_range in K1.
  destruct (Z.ltb_spec (byte c0) 224).
  { destruct (Z.leb_spec 128 ((byte c0 - 192) * 64 + (byte c1 - 128))); [ | discriminate].
    intros E. inversion E. subst. unfold utf8.
    set (cp := (byte c0 - 192) * 64 + (byte c1 - 128)) in *.
    assert (Q : cp / 64 = byte c0 - 192 /\ cp mod 64 = byte c1 - 128)
      by (subst cp; Z.div_mod_to_equations; lia).
    destruct Q as [-> ->].
    destruct (Z.ltb_spec cp 128); [lia | ].
    destruct (Z.ltb_spec cp 2048); [ | subst cp; lia].
    replace (192 + (byte c0 - 192)) with (byte c0) by lia.
    replace (128 + (byte c1 - 128)) with (byte c1) by lia.
    rewrite C0, C1. split; [reflexivity | subst cp; lia]. }
  destruct s2 as [| c2 s3]; [discriminate | ].
  pose proof (byte_range c2) as R2. pose proof (char_byte c2) as C2.
  destruct (is_cont c2) eqn:K2; cbn [negb]; [ | discriminate].
  apply is_cont_range in K2.
  destruct (Z.ltb_spec (byte c0) 240).
  { destruct (Z.leb_spec 2048
                ((byte c0 - 224) * 4096 + (byte c1 - 128) * 64 + (byte c2 - 128)));
      [ | discriminate].
    intros E. inversion E. subst. unfold utf8.
    set (cp := (byte c0 - 224) * 4096 + (byte c1 - 128) * 64 + (byte c2 - 128)) in *.
    assert (Q : cp / 4096 = byte c0 - 224 /\ cp / 64 mod 64 = byte c1 - 128
                /\ cp mod 64 = byte c2 - 128)
      by (subst cp; Z.div_mod_to_equations; lia).
    destruct Q as (-> & -> & ->).
    destruct (Z.ltb_spec cp 128); [lia | ].
    destruct (Z.ltb_spec cp 2048); [lia | ].
    destruct (Z.ltb_spec cp 65536); [ | subst cp; lia].
    replace (224 + (byte c0 - 224)) with (byte c0) by lia.
    replace (128 + (byte c1 - 128)) with (byte c1) by lia.
    replace (128 + (byte c2 - 128)) with (byte c2) by lia.
    rewrite C0, C1, C2. split; [reflexivity | subst cp; lia]. }
  destruct s3 as [| c3 s4]; [discriminate | ].
  pose proof (byte_range c3) as R3. pose proof (char_byte c3) as C3.
  destruct (is_cont c3) eqn:K3; cbn [negb]; [ | discriminate].
  apply is_cont_range in K3.
  set (u := (byte c0 - 240) * 262144 + (byte c1 - 128) * 4096
            + (byte c2 - 128) * 64 + (byte c3 - 128)).
  destruct (Z.leb_spec 65536 u); cbn [andb]; [ | discriminate].
  destruct (Z.leb_spec u 1114111); [ | discriminate].
  intros E. inversion E. subst rest cp. unfold utf8.
  assert (Q : u / 262144 = byte c0 - 240 /\ u / 4096 mod 64 = byte c1 - 128
              /\ u / 64 mod 64 = byte c2 - 128 /\ u mod 64 = byte c3 - 128)
    by (subst u; Z.div_mod_to_equations; lia).
  destruct Q as (Q0 & Q1 & Q2 & Q3).
  rewrite Q0, Q1, Q2, Q3.
  destruct (Z.ltb_spec u 128); [lia | ].
  destruct (Z.ltb_spec u 2048); [lia | ].
  destruct (Z.ltb_spec u 65536); [lia | ].
  replace (240 + (byte c0 - 240)) with (byte c0) by lia.
  replace (128 + (byte c1 - 128)) with (byte c1) by lia.
  replace (128 + (byte c2 - 128)) with (byte c2) by lia.
  replace (128 + (byte c3 - 128)) with (byte c3) by lia.
  rewrite C0, C1, C2, C3. split; [reflexivity | lia].
Qed.

(** Deciding the comparisons met in a goal, the impossible side by
    arithmetic. *)
Ltac decide_comparisons :=
  repeat match goal with
         | |- context [?a <? ?b] =>
             destruct (Z.ltb_spec a b); try (exfalso; Z.div_mod_to_equations; lia)
         | |- context [?a <=? ?b] =>
             destruct (Z.leb_spec a b); try (exfalso; Z.div_mod_to_equations; lia)
         end.

(** [next] reads a character back from its bytes. *)
Lemma next_utf8 (cp : Z) (rest : string) :
  0 <= cp <= 1114111 -> next (utf8 cp ++ rest) = Some (cp, rest).
Proof.
  intros H. unfold utf8.
  destruct (Z.ltb_spec cp 128); [ | destruct (Z.ltb_spec cp 2048);
                                    [ | destruct (Z.ltb_spec cp 65536)]];
    unfold char; cbn [append next]; unfold is_cont;
    rewrite !byte_char by (Z.div_mod_to_equations; lia);
    cbv zeta; decide_comparisons; cbn [andb negb];
    f_equal; f_equal; Z.div_mod_to_equations; lia.
Qed.

(** The value of a decimal digit, and the digits of every script. *)
Lemma decimal_inv (cp v : Z) :
  decimal cp = Some v -> exists zero, In zero DECIMAL_ZEROS /\ 0 <= v <= 9 /\ cp = zero + v.
Proof.
  unfold decimal.
  destruct (find (fun zero => (zero <=? cp) && (cp <? zero + 10)) DECIMAL_ZEROS)
    as [zero | ] eqn:F; [ | discriminate].
  apply find_some in F. destruct F as [Hin Hb].
  apply andb_prop in Hb. destruct Hb as [H1 H2].
  apply Z.leb_le in H1. apply Z.ltb_lt in H2.
  intros E. inversion E. exists zero. repeat split; try assumption; lia.
Qed.

Lemma decimal_digits (zero v : Z) :
  In zero DECIMAL_ZEROS -> 0 <= v <= 9 ->
  decimal (zero + v) = Some v /\ 0 <= zero + v <= 1114111.
Proof.
  intros Hin Hv.
  assert (E : v = Z.of_nat (Z.to_nat v)) by lia.
  generalize dependent (Z.to_nat v). intros k E. subst v.
  do 10 (destruct k as [| k];
         [unfold DECIMAL_ZEROS in Hin; cbn [In] in Hin;
          repeat (destruct Hin as [<- | Hin]; [vm_compute; intuition discriminate | ]);
          destruct Hin
         | ]).
  lia.
Qed.

End UnicodeFacts.

(** ** Dates *)

Module DateFacts.

Import Datetime Reminders DateSpec StrFacts UnicodeFacts.

(** Case analysis on an integer [m] known to lie in [0..n-1]: [tac] is run
    with [m] replaced by each value. *)
Tactic Notation "each_value" constr(m) integer(n) tactic3(tac) :=
  let k := fresh "k" in
  let E := fresh "E" in
  assert (E : m = Z.of_nat (Z.to_nat m)) by lia;
  generalize dependent (Z.to_nat m); intros k E; subst m;
  do n (destruct k as [| k]; [try lia; tac | ]); lia.

(** The quotient by [k] steps up at the multiples of [k]. *)
Lemma step_div (y k : Z) :
  0 < k -> y / k = (y - 1) / k + (if y mod k =? 0 then 1 else 0).
Proof.
  intros Hk. destruct (Z.eqb_spec (y mod k) 0); Z.div_mod_to_equations; nia.
Qed.

(** A year has 365 days, and one more when it is a leap year. *)
Lemma days_before_next_year (y : Z) :
  days_before_year (y + 1) = days_before_year y + 365 + (if is_leap y then 1 else 0).
Proof.
  unfold days_before_year. replace (y + 1 - 1) with y by lia. cbv zeta.
  rewrite (step_div y 4), (step_div y 100), (step_div y 400) by lia.
  assert (M1 : y mod 400 = 0 -> y mod 100 = 0).
  { intros H. Z.div_mod_to_equations. lia. }
  assert (M2 : y mod 100 = 0 -> y mod 4 = 0).
  { intros H. Z.div_mod_to_equations. lia. }
  unfold is_leap.
  destruct (Z.eqb_spec (y mod 4) 0), (Z.eqb_spec (y mod 100) 0), (Z.eqb_spec (y mod 400) 0);
    cbn; try lia; intuition lia.
Qed.

(** The days before a month are the days before the previous month and
    the days of that one. *)
Lemma days_before_next_month (y m : Z) :
  1 <= m < 12 ->
  days_before_month y (m + 1) = days_before_month y m + days_in_month y m.
Proof.
  intros Hm.
  each_value m 12
    (unfold days_before_month, days_in_month; cbn; destruct (is_leap y); reflexivity).
Qed.

(** The leap years and the month lengths of the code are those of the
    calendar. *)
Lemma is_leap_leap (y : Z) : is_leap y = leap y.
Proof.
  unfold is_leap, leap.
  assert (M : y mod 400 = 0 -> y mod 4 = 0 /\ y mod 100 = 0)
    by (intros H; Z.div_mod_to_equations; lia).
  destruct (Z.eqb_spec (y mod 4) 0), (Z.eqb_spec (y mod 100) 0), (Z.eqb_spec (y mod 400) 0);
    cbn; try reflexivity; intuition lia.
Qed.

Lemma days_in_month_length (y m : Z) :
  1 <= m <= 12 -> days_in_month y m = month_length y m.
Proof.
  intros H. unfold days_in_month, month_length. rewrite is_leap_leap.
  each_value m 13 (cbn; destruct (leap y); reflexivity).
Qed.

(** The ordinal counts days: the day after has the next ordinal. *)
Lemma toordinal_tomorrow (d : date) :
  calendar_date d -> toordinal (tomorrow d) = toordinal d + 1.
Proof.
  destruct d as [y m dd]. unfold calendar_date, tomorrow, toordinal. cbn [year month day].
  intros (Hy & Hm & Hd). rewrite <- days_in_month_length in * by exact Hm.
  destruct (Z.ltb_spec dd (days_in_month y m)); cbn [year month day]; [lia | ].
  destruct (Z.ltb_spec m 12); cbn [year month day].
  - rewrite days_before_next_month by lia. lia.
  - assert (m = 12) by lia. subst m.
    rewrite days_before_next_year.
    assert (E1 : days_before_month (y + 1) 1 = 0)
      by (unfold days_before_month; cbn; reflexivity).
    assert (E2 : days_before_month y 12 = 334 + (if is_leap y then 1 else 0))
      by (unfold days_before_month; cbn; destruct (is_leap y); reflexivity).
    assert (E3 : days_in_month y 12 = 31) by reflexivity.
    rewrite E1, E2. rewrite E3 in *. destruct (is_leap y); lia.
Qed.

Lemma month_length_positive (y m : Z) : 1 <= m <= 12 -> 28 <= month_length y m <= 31.
Proof.
  intros H. unfold month_length. each_value m 13 (cbn; destruct (leap y); lia).
Qed.

(** The day after a day of the calendar is one. *)
Lemma calendar_tomorrow (d : date) : calendar_date d -> calendar_date (tomorrow d).
Proof.
  destruct d as [y m dd]. unfold calendar_date, tomorrow. cbn [year month day].
  intros (Hy & Hm & Hd).
  destruct (Z.ltb_spec dd (month_length y m)); cbn [year month day]; [lia | ].
  destruct (Z.ltb_spec m 12); cbn [year month day].
  - pose proof (month_length_positive y (m + 1)). lia.
  - pose proof (month_length_positive (y + 1) 1). lia.
Qed.

Lemma calendar_days_later (n : nat) (d : date) :
  calendar_date d -> calendar_date (days_later n d).
Proof.
  intros H. induction n as [| n IH]; cbn [days_later]; [exact H | ].
  apply calendar_tomorrow. exact IH.
Qed.

Lemma toordinal_days_later (n : nat) (d : date) :
  calendar_date d -> toordinal (days_later n d) = toordinal d + Z.of_nat n.
Proof.
  intros H. induction n as [| n IH]; cbn [days_later]; [lia | ].
  rewrite toordinal_tomorrow by (apply calendar_days_later; exact H). lia.
Qed.

(** The days before a year grow with the year. *)
Lemma days_before_year_monotone (y1 y2 : Z) :
  y1 <= y2 -> days_before_year y1 <= days_before_year y2.
Proof.
  intros H. unfold days_before_year. cbv zeta.
  Z.div_mod_to_equations. lia.
Qed.

(** The days of a year before a month and the days of this month fit
    before the next month. *)
Lemma days_before_month_step (y m1 m2 : Z) :
  1 <= m1 -> m1 < m2 -> m2 <= 12 ->
  days_before_month y m1 + days_in_month y m1 <= days_before_month y m2.
Proof.
  intros H1 H12 H2.
  each_value m1 12
    (each_value m2 13
       (unfold days_before_month, days_in_month; destruct (is_leap y); cbv; discriminate)).
Qed.

(** A day of the calendar lies within its year. *)
Lemma toordinal_in_year (d : date) :
  calendar_date d ->
  days_before_year (year d) < toordinal d <= days_before_year (year d + 1).
Proof.
  destruct d as [y m dd]. unfold calendar_date, toordinal. cbn [year month day].
  intros (Hy & Hm & Hd). rewrite <- days_in_month_length in Hd by exact Hm.
  assert (B : 0 <= days_before_month y m /\
              days_before_month y m + days_in_month y m
              <= 365 + (if is_leap y then 1 else 0)).
  { each_value m 13
      (unfold days_before_month, days_in_month; destruct (is_leap y); cbv;
       split; discriminate). }
  rewrite days_before_next_year. lia.
Qed.

(** The ordinals of two days of the calendar are in the order of their
    years, then of their months, then of their days. *)
Lemma toordinal_order (a b : date) :
  calendar_date a -> calendar_date b ->
  (toordinal b <= toordinal a <->
   year b < year a \/
   (year b = year a /\ (month b < month a \/ (month b = month a /\ day b <= day a)))).
Proof.
  intros Ca Cb.
  pose proof (toordinal_in_year a Ca) as Ya. pose proof (toordinal_in_year b Cb) as Yb.
  destruct a as [ya ma da], b as [yb mb db].
  unfold calendar_date in *. cbn [year month day] in *.
  destruct Ca as (Hya & Hma & Hda), Cb as (Hyb & Hmb & Hdb).
  rewrite <- days_in_month_length in Hda, Hdb by assumption.
  destruct (Z.lt_trichotomy yb ya) as [Hy | [Hy | Hy]].
  - pose proof (days_before_year_monotone (yb + 1) ya ltac:(lia)). lia.
  - subst yb. unfold toordinal. cbn [year month day].
    destruct (Z.lt_trichotomy mb ma) as [Hm | [Hm | Hm]].
    + pose proof (days_before_month_step ya mb ma ltac:(lia) Hm ltac:(lia)). lia.
    + subst mb. lia.
    + pose proof (days_before_month_step ya ma mb ltac:(lia) Hm ltac:(lia)). lia.
  - pose proof (days_before_year_monotone (ya + 1) yb ltac:(lia)). lia.
Qed.

(** Two days of the calendar with the same ordinal are the same day. *)
Lemma toordinal_injective (a b : date) :
  calendar_date a -> calendar_date b -> toordinal a = toordinal b -> a = b.
Proof.
  intros Ca Cb E.
  pose proof (proj1 (toordinal_order a b Ca Cb) ltac:(lia)) as H1.
  pose proof (proj1 (toordinal_order b a Cb Ca) ltac:(lia)) as H2.
  destruct a as [ya ma da], b as [yb mb db]. cbn [year month day] in *.
  assert (ya = yb) by lia. assert (ma = mb) by lia. assert (da = db) by lia.
  congruence.
Qed.

(** The difference of two dates in days is the number of days from the
    one to the other. *)
Lemma days_between_later (d today : date) (n : nat) :
  calendar_date d -> calendar_date today ->
  (days_between d today = Z.of_nat n <-> d = days_later n today).
Proof.
  intros Cd Ct. unfold days_between. split.
  - intros E. apply toordinal_injective;
      [exact Cd | apply calendar_days_later; exact Ct | ].
    rewrite toordinal_days_later by exact Ct. lia.
  - intros ->. rewrite toordinal_days_later by exact Ct. lia.
Qed.

(** *** The format [%Y-%m-%d] *)

(** A digit of the ASCII range is read back from its character, and comes
    from it. *)
Lemma digit_digit_char (n : Z) : 0 <= n <= 9 -> digit (digit_char n) = Some n.
Proof.
  intros H. each_value n 10 reflexivity.
Qed.

Lemma digit_inv (a : ascii) (x : Z) :
  digit a = Some x -> 0 <= x <= 9 /\ a = digit_char x.
Proof.
  unfold digit, digit_char. cbv zeta.
  destruct ((48 <=? nat_of_ascii a)%nat && (nat_of_ascii a <=? 57)%nat) eqn:B;
    [ | discriminate].
  apply andb_prop in B. destruct B as [B1 B2].
  apply Nat.leb_le in B1. apply Nat.leb_le in B2.
  intros E. inversion E. split; [lia | ].
  replace (Z.to_nat (48 + (Z.of_nat (nat_of_ascii a) - 48))) with (nat_of_ascii a) by lia.
  rewrite ascii_nat_embedding. reflexivity.
Qed.

Lemma digit_text_ascii (v : Z) :
  0 <= v <= 9 -> digit_text (String (digit_char v) EmptyString) v.
Proof.
  intros H. exists 48. split; [left; reflexivity | split; [exact H | ]].
  unfold Unicode.utf8. destruct (Z.ltb_spec (48 + v) 128); [reflexivity | lia].
Qed.

(** [\d] reads a digit of any script, and nothing else. *)
Lemma decimal_digit_text (t : string) (v : Z) (rest : string) :
  digit_text t v -> decimal_digit (t ++ rest) = Some (v, rest).
Proof.
  intros (zero & Hin & Hv & ->). unfold decimal_digit.
  destruct (decimal_digits zero v Hin Hv) as [D R].
  rewrite next_utf8 by exact R. rewrite D. reflexivity.
Qed.

Lemma decimal_digit_inv (s : string) (v : Z) (rest : string) :
  decimal_digit s = Some (v, rest) -> exists t, digit_text t v /\ s = (t ++ rest)%string.
Proof.
  unfold decimal_digit.
  destruct (Unicode.next s) as [[cp r] | ] eqn:N; [ | discriminate].
  destruct (Unicode.decimal cp) as [w | ] eqn:D; [ | discriminate].
  intros E. inversion E. subst w r.
  apply next_inv in N. destruct N as [-> _].
  destruct (decimal_inv cp v D) as (zero & Hin & Hv & ->).
  exists (Unicode.utf8 (zero + v)). split; [ | reflexivity].
  exists zero. auto.
Qed.

(** [%Y] has one way to match, on four digits. *)
Lemma match_Y_text (ty : string) (y : Z) (rest : string) :
  year_text ty y -> match_Y (ty ++ rest) = [(y, rest)].
Proof.
  intros (t1 & t2 & t3 & t4 & a & b & c & e & H1 & H2 & H3 & H4 & -> & ->).
  unfold match_Y. rewrite !append_assoc.
  rewrite (decimal_digit_text t1 a _ H1), (decimal_digit_text t2 b _ H2),
    (decimal_digit_text t3 c _ H3), (decimal_digit_text t4 e _ H4).
  reflexivity.
Qed.

Lemma match_Y_inv (s : string) (y : Z) (rest : string) :
  In (y, rest) (match_Y s) -> exists ty, year_text ty y /\ s = (ty ++ rest)%string.
Proof.
  unfold match_Y.
  destruct (decimal_digit s) as [[a s1] | ] eqn:D1; [ | intros []].
  destruct (decimal_digit s1) as [[b s2] | ] eqn:D2; [ | intros []].
  destruct (decimal_digit s2) as [[c s3] | ] eqn:D3; [ | intros []].
  destruct (decimal_digit s3) as [[e s4] | ] eqn:D4; [ | intros []].
  intros [E | []]. inversion E. subst s4.
  apply decimal_digit_inv in D1, D2, D3, D4.
  destruct D1 as (t1 & H1 & ->), D2 as (t2 & H2 & ->),
           D3 as (t3 & H3 & ->), D4 as (t4 & H4 & ->).
  exists (t1 ++ t2 ++ t3 ++ t4)%string. split.
  - exists t1, t2, t3, t4, a, b, c, e. auto 10.
  - rewrite !append_assoc. reflexivity.
Qed.

(** The first way [%m] matches a month in front of a hyphen. *)
Lemma match_m_text (tm : string) (m : Z) (rest : string) :
  month_text tm m ->
  exists more, match_m (tm ++ String "-" rest) = (m, String "-" rest) :: more.
Proof.
  intros [m' H | m' H].
  - each_value m' 13 (eexists; reflexivity).
  - each_value m' 10 (eexists; reflexivity).
Qed.

Lemma match_m_inv (s : string) (m : Z) (rest : string) :
  In (m, rest) (match_m s) -> exists tm, month_text tm m /\ s = (tm ++ rest)%string.
Proof.
  unfold match_m. destruct s as [| a rest1]; [intros [] | ].
  destruct (digit a) as [x | ] eqn:Da; [ | intros []].
  apply digit_inv in Da. destruct Da as [Hx ->].
  intros Hin. apply in_app_or in Hin. destruct Hin as [Hin | Hin].
  - destruct rest1 as [| b rest2]; [destruct Hin | ].
    destruct (digit b) as [y | ] eqn:Db; [ | destruct Hin].
    apply digit_inv in Db. destruct Db as [Hy ->].
    destruct ((x =? 1) && (y <=? 2)) eqn:C1.
    + apply andb_prop in C1. destruct C1 as [C1 C2].
      apply Z.eqb_eq in C1. apply Z.leb_le in C2. subst x.
      destruct Hin as [E | []]. apply pair_equal_spec in E. destruct E as [<- <-].
      exists (pad2 (10 + y) EmptyString). split; [constructor; lia | ].
      unfold pad2. replace ((10 + y) / 10) with 1 by (Z.div_mod_to_equations; lia).
      replace ((10 + y) mod 10) with y by (Z.div_mod_to_equations; lia). reflexivity.
    + destruct ((x =? 0) && (1 <=? y)) eqn:C2; [ | destruct Hin].
      apply andb_prop in C2. destruct C2 as [C2 C3].
      apply Z.eqb_eq in C2. apply Z.leb_le in C3. subst x.
      destruct Hin as [E | []]. apply pair_equal_spec in E. destruct E as [<- <-].
      exists (pad2 y EmptyString). split; [constructor; lia | ].
      unfold pad2. replace (y / 10) with 0 by (Z.div_mod_to_equations; lia).
      replace (y mod 10) with y by (Z.div_mod_to_equations; lia). reflexivity.
  - destruct (Z.leb_spec 1 x); [ | destruct Hin].
    destruct Hin as [E | []]. apply pair_equal_spec in E. destruct E as [<- <-].
    exists (String (digit_char x) EmptyString). split; [constructor; lia | reflexivity].
Qed.

(** The first way [%d] matches a day that ends the text. *)
Lemma match_d_text (td : string) (d : Z) :
  day_text td d -> exists more, match_d td = (d, EmptyString) :: more.
Proof.
  intros [y H | x y t H Ht | y H | y H | y H].
  - each_value y 2 (eexists; reflexivity).
  - pose proof (decimal_digit_text t y EmptyString Ht) as D.
    rewrite append_empty_r in D.
    unfold match_d. rewrite digit_digit_char by lia.
    destruct (Z.leb_spec 1 x), (Z.leb_spec x 2); try lia. cbn [andb].
    rewrite D. eexists. reflexivity.
  - each_value y 10 (eexists; reflexivity).
  - each_value y 10 (eexists; reflexivity).
  - each_value y 10 (eexists; reflexivity).
Qed.

Lemma match_d_inv (s : string) (d : Z) (rest : string) :
  In (d, rest) (match_d s) -> exists td, day_text td d /\ s = (td ++ rest)%string.
Proof.
  unfold match_d. destruct s as [| a rest1]; [intros [] | ].
  destruct (digit a) as [x | ] eqn:Da.
  - apply digit_inv in Da. destruct Da as [Hx ->].
    intros Hin. apply in_app_or in Hin. destruct Hin as [Hin | Hin].
    + destruct ((1 <=? x) && (x <=? 2)) eqn:C.
      * apply andb_prop in C. destruct C as [C1 C2].
        apply Z.leb_le in C1. apply Z.leb_le in C2.
        destruct (decimal_digit rest1) as [[y rest2] | ] eqn:D; [ | destruct Hin].
        destruct Hin as [E | []]. apply pair_equal_spec in E. destruct E as [<- <-].
        apply decimal_digit_inv in D. destruct D as (t & Ht & ->).
        exists (String (digit_char x) t). split; [constructor; [lia | exact Ht] | reflexivity].
      * destruct rest1 as [| b rest2]; [destruct Hin | ].
        destruct (digit b) as [y | ] eqn:Db; [ | destruct Hin].
        apply digit_inv in Db. destruct Db as [Hy ->].
        destruct ((x =? 3) && (y <=? 1)) eqn:C1.
        -- apply andb_prop in C1. destruct C1 as [C1 C2].
           apply Z.eqb_eq in C1. apply Z.leb_le in C2. subst x.
           destruct Hin as [E | []]. apply pair_equal_spec in E. destruct E as [<- <-].
           exists (String "3" (String (digit_char y) EmptyString)).
           split; [constructor; lia | reflexivity].
        -- destruct ((x =? 0) && (1 <=? y)) eqn:C2; [ | destruct Hin].
           apply andb_prop in C2. destruct C2 as [C2 C3].
           apply Z.eqb_eq in C2. apply Z.leb_le in C3. subst x.
           destruct Hin as [E | []]. apply pair_equal_spec in E. destruct E as [<- <-].
           exists (String "0" (String (digit_char y) EmptyString)).
           split; [constructor; lia | reflexivity].
    + destruct (Z.leb_spec 1 x); [ | destruct Hin].
      destruct Hin as [E | []]. apply pair_equal_spec in E. destruct E as [<- <-].
      exists (String (digit_char x) EmptyString). split; [constructor; lia | reflexivity].
  - destruct (Ascii.eqb_spec a " ") as [-> | ]; [ | intros []].
    destruct rest1 as [| b rest2]; [intros [] | ].
    destruct (digit b) as [y | ] eqn:Db; [ | intros []].
    apply digit_inv in Db. destruct Db as [Hy ->].
    destruct (Z.leb_spec 1 y); [ | intros []].
    intros [E | []]. apply pair_equal_spec in E. destruct E as [<- <-].
    exists (String " " (String (digit_char y) EmptyString)).
    split; [constructor; lia | reflexivity].
Qed.

Lemma match_lit_inv (c : ascii) (s rest : string) :
  In rest (match_lit c s) -> s = String c rest.
Proof.
  unfold match_lit. destruct s as [| a r]; [intros [] | ].
  destruct (Ascii.eqb_spec a c) as [-> | ]; [ | intros []].
  intros [-> | []]. reflexivity.
Qed.

(** The matches of the whole format are the texts of a year, a month and
    a day with hyphens between them. *)
Lemma matches_ymd_inv (s : string) (y m d : Z) (rest : string) :
  In (y, m, d, rest) (matches_ymd s) ->
  exists ty tm td,
    s = (ty ++ "-" ++ tm ++ "-" ++ td ++ rest)%string /\
    year_text ty y /\ month_text tm m /\ day_text td d.
Proof.
  unfold matches_ymd. intros H.
  apply in_flat_map in H. destruct H as ([y' s1] & HY & H).
  apply in_flat_map in H. destruct H as (s2 & HL1 & H).
  apply in_flat_map in H. destruct H as ([m' s3] & HM & H).
  apply in_flat_map in H. destruct H as (s4 & HL2 & H).
  apply in_map_iff in H. destruct H as ([d' s5] & E & HD).
  inversion E. subst y' m' d' s5.
  apply match_Y_inv in HY. destruct HY as (ty & Hy & ->).
  apply match_lit_inv in HL1. subst s1.
  apply match_m_inv in HM. destruct HM as (tm & Hm & ->).
  apply match_lit_inv in HL2. subst s3.
  apply match_d_inv in HD. destruct HD as (td & Hd & ->).
  exists ty, tm, td. repeat split; assumption.
Qed.

Lemma matches_ymd_text (ty tm td : string) (y m d : Z) :
  year_text ty y -> month_text tm m -> day_text td d ->
  exists more,
    matches_ymd (ty ++ "-" ++ tm ++ "-" ++ td) = (y, m, d, EmptyString) :: more.
Proof.
  intros Hy Hm Hd. unfold matches_ymd.
  rewrite (match_Y_text ty y _ Hy). cbn [flat_map match_lit append].
  rewrite Ascii.eqb_refl. cbn [flat_map].
  destruct (match_m_text tm m td Hm) as [mm ->].
  cbn [flat_map match_lit]. rewrite Ascii.eqb_refl. cbn [flat_map].
  destruct (match_d_text td d Hd) as [md ->].
  cbn [map app]. eexists. reflexivity.
Qed.

(** The constructor accepts the dates of the years 1 to 9999, and no
    others. *)
Lemma make_date_iff (y m d : Z) (x : date) :
  make_date y m d = Ok x <-> x = mkdate y m d /\ valid_date x.
Proof.
  unfold make_date, valid_date, calendar_date. split.
  - destruct (Z.leb_spec 1 y), (Z.leb_spec y 9999), (Z.leb_spec 1 m), (Z.leb_spec m 12),
      (Z.leb_spec 1 d); cbn [andb]; try discriminate.
    destruct (Z.leb_spec d (days_in_month y m)); [ | discriminate].
    intros E. inversion E. cbn [year month day].
    rewrite <- days_in_month_length by lia. repeat split; lia.
  - intros (-> & (Hy & Hm & Hd) & Hy'). cbn [year month day] in *.
    rewrite <- days_in_month_length in Hd by lia.
    repeat match goal with
           | |- context [?a <=? ?b] => destruct (Z.leb_spec a b); [ | lia]
           end.
    reflexivity.
Qed.

(** [parse_date_str] gives a date exactly for the texts of the format, and
    the date they stand for. *)
Lemma parse_reads (text : string) (d : date) :
  parse_date_str (PStr text) = Some d <-> reads_as text d.
Proof.
  unfold parse_date_str, strptime_ymd. split.
  - destruct (matches_ymd text) as [| [[[y m] dd] r] more] eqn:M; [discriminate | ].
    destruct r as [| c r]; [ | discriminate].
    destruct (make_date y m dd) as [x | e] eqn:K; [ | discriminate].
    intros E. inversion E. subst x.
    apply make_date_iff in K. destruct K as [-> V].
    destruct (matches_ymd_inv text y m dd EmptyString) as (ty & tm & td & -> & Hy & Hm & Hd).
    { rewrite M. left. reflexivity. }
    exists ty, tm, td. rewrite append_empty_r. auto.
  - intros (ty & tm & td & -> & Hy & Hm & Hd & V).
    destruct (matches_ymd_text ty tm td _ _ _ Hy Hm Hd) as [more ->].
    destruct d as [y m dd]. cbn [year month day].
    rewrite (proj2 (make_date_iff y m dd (mkdate y m dd)) (conj eq_refl V)). reflexivity.
Qed.

(** Anything but a text is no date. *)
Lemma parse_text (v : value) (d : date) :
  parse_date_str v = Some d -> exists text, v = PStr text.
Proof.
  destruct v; try discriminate. intros _. eexists. reflexivity.
Qed.

(** The text [str(date)] writes is the date in the format. *)
Lemma reads_isoformat (d : date) : valid_date d -> reads_as (isoformat d) d.
Proof.
  intros V. pose proof V as ((Hy & Hm & Hd) & Hy').
  pose proof (month_length_positive (year d) (month d) Hm) as H31.
  exists (String (digit_char (year d / 1000))
            (String (digit_char (year d / 100 mod 10))
               (pad2 (year d mod 100) EmptyString))),
         (pad2 (month d) EmptyString), (pad2 (day d) EmptyString).
  split; [reflexivity | split; [ | split; [ | split; [ | exact V]]]].
  - exists (String (digit_char (year d / 1000)) EmptyString),
           (String (digit_char (year d / 100 mod 10)) EmptyString),
           (String (digit_char (year d mod 100 / 10)) EmptyString),
           (String (digit_char (year d mod 100 mod 10)) EmptyString),
           (year d / 1000), (year d / 100 mod 10), (year d mod 100 / 10),
           (year d mod 100 mod 10).
    repeat split; try (apply digit_text_ascii; Z.div_mod_to_equations; lia).
    Z.div_mod_to_equations. lia.
  - constructor. exact Hm.
  - assert (E : day d = day d / 10 * 10 + day d mod 10) by (Z.div_mod_to_equations; lia).
    assert (Hq : 0 <= day d / 10 <= 3) by (Z.div_mod_to_equations; lia).
    assert (Hr : 0 <= day d mod 10 <= 9) by (Z.div_mod_to_equations; lia).
    unfold pad2. rewrite E at 3.
    generalize dependent (day d mod 10). generalize dependent (day d / 10).
    intros q Hq r E Hr.
    each_value q 4
      (first [ replace (Z.of_nat 0 * 10 + r) with r by lia; apply (day_zero r); lia
             | apply (day_tens _ r); [lia | apply digit_text_ascii; lia]
             | replace (Z.of_nat 3 * 10 + r) with (30 + r) by lia;
               apply (day_thirty r); lia ]).
Qed.

(** A date written by [str(date)] is parsed back. *)
Lemma parse_isoformat (d : date) :
  valid_date d -> parse_date_str (PStr (isoformat d)) = Some d.
Proof. intros V. apply parse_reads. apply reads_isoformat. exact V. Qed.

Example parse_date_str_forms :
  map (fun s => parse_date_str (PStr s))
    ["2025-06-03"; "2025-6-3"; "2024-02-29"; "2025-02-29"; "2025-06-31";
     "2025-13-01"; "2025-06-03 "; "03/06/2025"; ""]
  = [Some (mkdate 2025 6 3); Some (mkdate 2025 6 3); Some (mkdate 2024 2 29);
     None; None; None; None; None; None].
Proof. vm_compute. reflexivity. Qed.

Example parse_date_str_not_a_string :
  parse_date_str PNone = None /\ parse_date_str (PInt 20250603) = None.
Proof. split; reflexivity. Qed.

Example toordinal_2025_06_01 : toordinal (mkdate 2025 6 1) = 739403.
Proof. reflexivity. Qed.

Example days_between_example :
  days_between (mkdate 2025 6 3) (mkdate 2025 6 1) = 2 /\
  days_between (mkdate 2025 6 10) (mkdate 2025 6 1) = 9 /\
  days_between (mkdate 2025 3 1) (mkdate 2024 3 1) = 365.
Proof. repeat split; reflexivity. Qed.

End DateFacts.



(** ** Reminders *)

Module ReminderFacts.

Import Datetime Reminders DateSpec DateFacts ReminderSpec.

(** On a list of dicts the loop ends without an exception and adds the
    reminders that are due, in order, to those already shown. *)
Lemma reminder_loop_select (today : date) (ts : list dict) (shown : list toast) :
  reminder_loop today (map PDict ts) shown = (shown ++ select today ts, Ok tt).
Proof.
  revert shown. induction ts as [| t ts IH]; intros shown; cbn [map reminder_loop select].
  - rewrite app_nil_r. reflexivity.
  - unfold due, days_until_start. cbn [Obj.get]. fold (field t "start_date" (PStr "")).
    destruct (parse_date_str (field t "start_date" (PStr ""))) as [d | ]; [ | apply IH].
    cbv zeta.
    destruct ((0 <=? days_between d today) && (days_between d today <=? 3)); [ | apply IH].
    fold (field t "destination" (PStr "(unknown)")).
    rewrite IH, <- app_assoc. reflexivity.
Qed.

(** The reminders selected are those of the trips that are due one. *)
Lemma in_select (today : date) (ts : list dict) (r : toast) :
  In r (select today ts) <-> exists t, In t ts /\ due today t = Some r.
Proof.
  induction ts as [| t ts IH]; cbn [select].
  - split; [intros [] | intros (t & [] & _)].
  - destruct (due today t) as [r0 | ] eqn:D.
    + cbn [In]. rewrite IH. split.
      * intros [<- | (t' & Hin & Hd)]; [exists t | exists t']; cbn; auto.
      * intros (t' & [<- | Hin] & Hd); [left; congruence | right; exists t'; auto].
    + rewrite IH. split.
      * intros (t' & Hin & Hd). exists t'. cbn; auto.
      * intros (t' & [<- | Hin] & Hd); [congruence | exists t'; auto].
Qed.

(** A trip is due a reminder exactly when its start date parses and lies
    0 to 3 days after today. *)
Lemma due_iff (today : date) (t : dict) (r : toast) :
  due today t = Some r <->
  exists d,
    parse_date_str (field t "start_date" (PStr "")) = Some d /\
    0 <= days_between d today <= 3 /\
    r = mktoast (field t "destination" (PStr "(unknown)")) (days_between d today).
Proof.
  unfold due, days_until_start.
  destruct (parse_date_str (field t "start_date" (PStr ""))) as [d | ].
  - destruct (Z.leb_spec 0 (days_between d today));
      destruct (Z.leb_spec (days_between d today) 3); cbn [andb]; split;
      try discriminate;
      try (intros E; inversion E; exists d; repeat split; auto; lia);
      try (intros (d' & E & B & ->); inversion E; subst; reflexivity);
      intros (d' & E & B & _); inversion E; subst; lia.
  - split; [discriminate | intros (d & E & _); discriminate].
Qed.

(** A trip the planner saved for the date [d] is due a reminder exactly
    when [d] is 0 to 3 days ahead. *)
Lemma planner_trip_due (today d : date) (destination : string) :
  valid_date d ->
  due today (trip destination (isoformat d))
  = if (0 <=? days_between d today) && (days_between d today <=? 3)
    then Some (mktoast (PStr destination) (days_between d today))
    else None.
Proof.
  intros V. unfold due, days_until_start, field, trip.
  cbn [Obj.dict_get String.eqb Ascii.eqb Bool.eqb].
  rewrite (parse_isoformat d V). reflexivity.
Qed.

(** What [due] decides, in terms of the calendar: a trip is due a
    reminder exactly when its start date is a text of the format that
    stands for a date [n] days after today, with [n] at most 3. *)
Lemma due_Some (today : date) (t : dict) (r : toast) :
  valid_date today ->
  due today t = Some r ->
  exists text d n,
    field t "start_date" (PStr "") = PStr text /\ reads_as text d /\
    d = days_later n today /\ (n <= 3)%nat /\
    r = mktoast (field t "destination" (PStr "(unknown)")) (Z.of_nat n).
Proof.
  intros [Ct _] H. apply due_iff in H. destruct H as (d & Hp & Hb & ->).
  destruct (parse_text _ _ Hp) as [text Ht]. rewrite Ht in Hp.
  apply parse_reads in Hp. pose proof Hp as (_ & _ & _ & _ & _ & _ & _ & [Cd _]).
  exists text, d, (Z.to_nat (days_between d today)).
  repeat split; try assumption.
  - apply days_between_later; [exact Cd | exact Ct | lia].
  - lia.
  - rewrite Z2Nat.id by lia. reflexivity.
Qed.

Lemma due_intro (today : date) (t : dict) (text : string) (d : date) (n : nat) :
  valid_date today ->
  field t "start_date" (PStr "") = PStr text -> reads_as text d ->
  d = days_later n today ->
  due today t
  = if (n <=? 3)%nat
    then Some (mktoast (field t "destination" (PStr "(unknown)")) (Z.of_nat n))
    else None.
Proof.
  intros [Ct _] Ht Hr Hd.
  pose proof Hr as (_ & _ & _ & _ & _ & _ & _ & [Cd _]).
  apply parse_reads in Hr. apply (days_between_later d today n Cd Ct) in Hd.
  unfold due, days_until_start. rewrite Ht, Hr, Hd.
  destruct (Z.leb_spec 0 (Z.of_nat n)); [ | lia]. cbn [andb].
  destruct (Z.leb_spec (Z.of_nat n) 3), (Nat.leb_spec n 3); try lia; reflexivity.
Qed.

(** The reminders selected are those the calendar asks for, and no other
    list is. *)
Lemma select_shows (today : date) (ts : list dict) :
  valid_date today -> shows today ts (select today ts).
Proof.
  intros V. induction ts as [| t ts IH]; cbn [select]; [constructor | ].
  destruct (due today t) as [r | ] eqn:D.
  - destruct (due_Some today t r V D) as (text & d & n & Ht & Hr & Hd & Hn & ->).
    apply (shows_due today t ts _ text d n); assumption.
  - apply shows_skip; [ | exact IH].
    intros text d n Ht Hr Hd. rewrite (due_intro today t text d n V Ht Hr Hd) in D.
    destruct (Nat.leb_spec n 3); [discriminate | lia].
Qed.

Lemma shows_select (today : date) (ts : list dict) (shown : list toast) :
  valid_date today -> shows today ts shown -> shown = select today ts.
Proof.
  intros V H. induction H as [| t ts shown text d n Ht Hr Hd Hn _ IH | t ts shown Hskip _ IH];
    cbn [select].
  - reflexivity.
  - rewrite (due_intro today t text d n V Ht Hr Hd).
    destruct (Nat.leb_spec n 3); [ | lia]. rewrite IH. reflexivity.
  - destruct (due today t) as [r | ] eqn:D; [ | exact IH].
    destruct (due_Some today t r V D) as (text & d & n & Ht & Hr & Hd & Hn & _).
    specialize (Hskip text d n Ht Hr Hd). lia.
Qed.

(** C9: given the user's trips and today's date, [trigger_reminders] ends
    without an exception and shows, in the order of the trips, a reminder
    for exactly the trips whose start date is a text in the format
    [%Y-%m-%d] standing for a date of the calendar [n] days after today
    with [n] from 0 to 3, each with its destination and [n]; a trip whose
    start date does not parse, or lies before today or more than 3 days
    ahead, is skipped. The calendar and the format are stated on their
    own ([days_later], [reads_as]). With today = 2025-06-01, a trip
    starting 2025-06-03 is shown with 2 days and one starting 2025-06-10
    is not shown. *)
Theorem trigger_reminders_selects
    (today : date) (username : string) (trips_dict : dict) (ts : list dict) :
  valid_date today ->
  field trips_dict username (PList []) = PList (map PDict ts) ->
  exists shown,
    trigger_reminders today username (PDict trips_dict) = (shown, Ok tt) /\
    shows today ts shown /\
    (forall other, shows today ts other -> other = shown) /\
    (forall r,
        In r shown <->
        exists t text d n,
          In t ts /\
          field t "start_date" (PStr "") = PStr text /\ reads_as text d /\
          d = days_later n today /\ (n <= 3)%nat /\
          r = mktoast (field t "destination" (PStr "(unknown)")) (Z.of_nat n)) /\
    trigger_reminders (mkdate 2025 6 1) "ana"
      (PDict [("ana", PList [PDict (trip "Rome" "2025-06-03");
                             PDict (trip "Oslo" "2025-06-10")])])
    = ([mktoast (PStr "Rome") 2], Ok tt).
Proof.
  intros V Hts. exists (select today ts). split; [ | split; [ | split; [ | split]]].
  - unfold trigger_reminders. cbn [Obj.get]. fold (field trips_dict username (PList [])).
    rewrite Hts. cbn [Obj.iter]. apply (reminder_loop_select today ts []).
  - apply select_shows. exact V.
  - intros other H. apply shows_select; assumption.
  - intros r. rewrite in_select. split.
    + intros (t & Hin & D).
      destruct (due_Some today t r V D) as (text & d & n & Ht & Hr & Hd & Hn & ->).
      exists t, text, d, n. auto 10.
    + intros (t & text & d & n & Hin & Ht & Hr & Hd & Hn & ->).
      exists t. split; [exact Hin | ].
      rewrite (due_intro today t text d n V Ht Hr Hd).
      destruct (Nat.leb_spec n 3); [reflexivity | lia].
  - vm_compute. reflexivity.
Qed.

Lemma trigger_reminders_selects_witness :
  exists shown,
    trigger_reminders (mkdate 2025 6 1) "ana"
      (PDict [("ana", PList [PDict (trip "Rome" "2025-06-03");
                             PDict (trip "Lima" "soon")])])
    = (shown, Ok tt) /\
    shows (mkdate 2025 6 1) [trip "Rome" "2025-06-03"; trip "Lima" "soon"] shown.
Proof.
  assert (V : valid_date (mkdate 2025 6 1)) by (vm_compute; intuition discriminate).
  destruct (trigger_reminders_selects (mkdate 2025 6 1) "ana"
              [("ana", PList [PDict (trip "Rome" "2025-06-03"); PDict (trip "Lima" "soon")])]
              [trip "Rome" "2025-06-03"; trip "Lima" "soon"] V eq_refl)
    as (shown & E & S & _).
  exists shown. split; assumption.
Defined.

End ReminderFacts.

(** ** Dictionaries *)

Module DictFacts.

Import Obj.

(** Lookup after an assignment. *)
Lemma dict_get_set_same (k : string) (v : value) (d : dict) :
  dict_get k (dict_set k v d) = Some v.
Proof.
  induction d as [| [k' v'] d IH]; cbn.
  - rewrite String.eqb_refl. reflexivity.
  - destruct (String.eqb k k') eqn:E; cbn; rewrite E; [reflexivity | exact IH].
Qed.

Lemma dict_get_set_other (k k' : string) (v : value) (d : dict) :
  k <> k' -> dict_get k (dict_set k' v d) = dict_get k d.
Proof.
  intros Hne. induction d as [| [k0 v0] d IH]; cbn.
  - apply String.eqb_neq in Hne. rewrite Hne. reflexivity.
  - destruct (String.eqb k' k0) eqn:E; cbn.
    + apply String.eqb_eq in E. subst k0.
      apply String.eqb_neq in Hne. rewrite Hne. reflexivity.
    + rewrite IH. reflexivity.
Qed.

(** A second assignment to a key overrides the first. *)
Lemma dict_set_set (k : string) (v1 v2 : value) (d : dict) :
  dict_set k v2 (dict_set k v1 d) = dict_set k v2 d.
Proof.
  induction d as [| [k' v'] d IH]; cbn.
  - rewrite String.eqb_refl. reflexivity.
  - destruct (String.eqb k k') eqn:E; cbn; rewrite E; [reflexivity | ].
    rewrite IH. reflexivity.
Qed.

(** Storing what is already there changes nothing. *)
Lemma dict_set_get (k : string) (v : value) (d : dict) :
  dict_get k d = Some v -> dict_set k v d = d.
Proof.
  induction d as [| [k' v'] d IH]; cbn; [discriminate | ].
  destruct (String.eqb k k') eqn:E.
  - intros H. inversion H. reflexivity.
  - intros H. rewrite (IH H). reflexivity.
Qed.

(** In a dict, whose keys are distinct, every entry is the one its key
    looks up. *)
Lemma dict_get_in (k : string) (v : value) (d : dict) :
  NoDup (map fst d) -> In (k, v) d -> dict_get k d = Some v.
Proof.
  induction d as [| [k' v'] d IH]; cbn; [intros _ [] | ].
  intros Hnd [E | Hin].
  - inversion E; subst. rewrite String.eqb_refl. reflexivity.
  - inversion Hnd as [| ? ? Hnotin Hnd']; subst.
    destruct (String.eqb k k') eqn:E.
    + apply String.eqb_eq in E. subst k'. exfalso. apply Hnotin.
      apply (in_map fst) in Hin. exact Hin.
    + apply IH; assumption.
Qed.

(** What a key looks up is an entry, and every key looks something up. *)
Lemma dict_get_some_in (k : string) (v : value) (d : dict) :
  dict_get k d = Some v -> In (k, v) d.
Proof.
  induction d as [| [k' v'] d IH]; cbn; [discriminate | ].
  destruct (String.eqb k k') eqn:E.
  - apply String.eqb_eq in E. subst k'. intros H. inversion H. left. reflexivity.
  - intros H. right. apply IH. exact H.
Qed.

Lemma dict_get_key_in (k : string) (d : dict) :
  In k (map fst d) -> exists v, dict_get k d = Some v.
Proof.
  induction d as [| [k' v'] d IH]; cbn; [intros [] | ].
  intros [E | Hin].
  - subst k'. rewrite String.eqb_refl. eauto.
  - destruct (String.eqb k k'); eauto.
Qed.

(** [setdefault] makes its key present, keeps the others, and does
    nothing when the key is there. *)
Lemma dict_mem_setdefault_same (k : string) (v : value) (d : dict) :
  dict_mem k (dict_setdefault k v d) = true.
Proof.
  unfold dict_setdefault. destruct (dict_mem k d) eqn:M; [exact M | ].
  unfold dict_mem. rewrite dict_get_set_same. reflexivity.
Qed.

Lemma dict_mem_setdefault_keep (k k' : string) (v : value) (d : dict) :
  dict_mem k d = true -> dict_mem k (dict_setdefault k' v d) = true.
Proof.
  intros M. unfold dict_setdefault. destruct (dict_mem k' d) eqn:M'; [exact M | ].
  unfold dict_mem in *. destruct (String.eqb k k') eqn:E.
  - apply String.eqb_eq in E. subst k'. rewrite dict_get_set_same. reflexivity.
  - apply String.eqb_neq in E. rewrite dict_get_set_other by exact E. exact M.
Qed.

Lemma dict_setdefault_present (k : string) (v : value) (d : dict) :
  dict_mem k d = true -> dict_setdefault k v d = d.
Proof. intros M. unfold dict_setdefault. rewrite M. reflexivity. Qed.

End DictFacts.

(** ** Persistence *)

Module PersistenceFacts.

Import Obj Persistence DictFacts PersistenceSpec.

(** [data[k].setdefault(f, v)] when [data[k]] is a dict. *)
Lemma setdefault_at_dict (data : dict) (k f : string) (v : value) (d : dict) :
  dict_get k data = Some (PDict d) ->
  setdefault_at (PDict data) k f v
  = Ok (PDict (dict_set k (PDict (dict_setdefault f v d)) data)).
Proof.
  intros H. unfold setdefault_at. cbn. rewrite H. reflexivity.
Qed.

(** Defaulting twice is defaulting once. *)
Lemma with_defaults_idempotent (d : dict) :
  with_defaults (with_defaults d) = with_defaults d.
Proof.
  unfold with_defaults at 1.
  assert (R : dict_mem "role" (with_defaults d) = true)
    by (unfold with_defaults; do 4 apply dict_mem_setdefault_keep;
        apply dict_mem_setdefault_same).
  assert (P : dict_mem "profile_pic" (with_defaults d) = true)
    by (unfold with_defaults; do 3 apply dict_mem_setdefault_keep;
        apply dict_mem_setdefault_same).
  assert (B : dict_mem "bio" (with_defaults d) = true)
    by (unfold with_defaults; do 2 apply dict_mem_setdefault_keep;
        apply dict_mem_setdefault_same).
  assert (F : dict_mem "favorite_destination" (with_defaults d) = true)
    by (unfold with_defaults; do 1 apply dict_mem_setdefault_keep;
        apply dict_mem_setdefault_same).
  assert (G : dict_mem "goals" (with_defaults d) = true)
    by (unfold with_defaults; apply dict_mem_setdefault_same).
  rewrite (dict_setdefault_present "role") by exact R.
  rewrite (dict_setdefault_present "profile_pic") by exact P.
  rewrite (dict_setdefault_present "bio") by exact B.
  rewrite (dict_setdefault_present "favorite_destination") by exact F.
  rewrite (dict_setdefault_present "goals") by exact G.
  reflexivity.
Qed.

Lemma upgraded_idempotent (v : value) : upgraded (upgraded v) = upgraded v.
Proof.
  destruct v; try reflexivity.
  cbn [upgraded]. rewrite with_defaults_idempotent. reflexivity.
Qed.

Lemma upgraded_entry (v : value) : user_entry v -> user_entry (upgraded v).
Proof. destruct v; cbn; auto. Qed.

(** One turn of the loop of [load_users] stores the upgraded value. *)
Lemma upgrade_user_entry (data : dict) (user : string) (v : value) :
  dict_get user data = Some v -> user_entry v ->
  upgrade_user (PDict data) user = Ok (PDict (dict_set user (upgraded v) data)).
Proof.
  intros Hget Hv. unfold upgrade_user. cbn [getitem bind]. rewrite Hget. cbn [bind].
  destruct v as [ | | | | password | | d]; try contradiction; cbn [is_str setitem bind].
  - repeat (erewrite setdefault_at_dict by apply dict_get_set_same;
            cbn [bind]; rewrite dict_set_set).
    reflexivity.
  - rewrite (setdefault_at_dict _ _ _ _ _ Hget). cbn [bind].
    repeat (erewrite setdefault_at_dict by apply dict_get_set_same;
            cbn [bind]; rewrite dict_set_set).
    reflexivity.
Qed.

(** The loop of [load_users] over the usernames [users]: it ends without
    an exception, and each username it went through holds the upgraded
    value, the others what they held. *)
Lemma upgrade_users_entries (users : list string) (data : dict) :
  (forall u, In u users -> exists v, dict_get u data = Some v) ->
  (forall k v, dict_get k data = Some v -> user_entry v) ->
  exists data',
    upgrade_users (PDict data) users = Ok (PDict data') /\
    forall k,
      dict_get k data' =
      if existsb (String.eqb k) users
      then option_map upgraded (dict_get k data)
      else dict_get k data.
Proof.
  revert data. induction users as [| u users IH]; intros data Hkeys Hvals.
  - exists data. split; reflexivity.
  - destruct (Hkeys u (or_introl eq_refl)) as [v Hv].
    cbn [upgrade_users]. rewrite (upgrade_user_entry data u v Hv (Hvals u v Hv)).
    cbn [bind].
    destruct (IH (dict_set u (upgraded v) data)) as (data' & Hrun & Hget).
    + intros u' Hin. destruct (String.eqb u' u) eqn:E.
      * apply String.eqb_eq in E. subst u'. rewrite dict_get_set_same. eauto.
      * apply String.eqb_neq in E. rewrite dict_get_set_other by exact E.
        apply Hkeys. right. exact Hin.
    + intros k w. destruct (String.eqb k u) eqn:E.
      * apply String.eqb_eq in E. subst k. rewrite dict_get_set_same.
        intros H. inversion H. apply upgraded_entry. eauto.
      * apply String.eqb_neq in E. rewrite dict_get_set_other by exact E.
        apply Hvals.
    + exists data'. split; [exact Hrun | ].
      intros k. rewrite Hget. cbn [existsb].
      destruct (String.eqb k u) eqn:E.
      * apply String.eqb_eq in E. subst k. rewrite dict_get_set_same, Hv. cbn.
        destruct (existsb (String.eqb u) users); cbn;
          [rewrite upgraded_idempotent | ]; reflexivity.
      * apply String.eqb_neq in E. rewrite dict_get_set_other by exact E.
        reflexivity.
Qed.

(** Membership in a list of usernames, as the loop invariant tests it. *)
Lemma existsb_eqb_in (k : string) (l : list string) :
  In k l -> existsb (String.eqb k) l = true.
Proof.
  intros H. apply existsb_exists. exists k. split; [exact H | apply String.eqb_refl].
Qed.

(** The backfill leaves a complete record as it is. *)
Lemma backfill_trip_complete (t : dict) :
  complete t -> backfill_trip (PDict t) = Ok (PDict t).
Proof.
  intros C. unfold backfill_trip. cbn [setdefault bind].
  repeat (rewrite (dict_setdefault_present _ _ t) by (apply C; cbn; tauto); cbn [bind]).
  reflexivity.
Qed.

(** So the inner loop appends the records unchanged. *)
Lemma backfill_trips_complete (ts : list dict) (new_trs : list value) :
  Forall complete ts ->
  backfill_trips (map PDict ts) new_trs = Ok (new_trs ++ map PDict ts).
Proof.
  intros H. revert new_trs. induction H as [| t ts Ht Hts IH]; intros new_trs; cbn [map backfill_trips].
  - rewrite app_nil_r. reflexivity.
  - rewrite (backfill_trip_complete t Ht). cbn [bind].
    rewrite IH, <- app_assoc. reflexivity.
Qed.

(** The loop of [load_trips] over items that [data] holds unchanged and
    that are complete: [data] comes back as it was. *)
Lemma backfill_users_complete (its : list (string * value)) (data : dict) :
  (forall k v, In (k, v) its -> dict_get k data = Some v /\ complete_trips v) ->
  backfill_users (PDict data) its = Ok (PDict data).
Proof.
  induction its as [| [uname trs] its IH]; intros H; cbn [backfill_users].
  - reflexivity.
  - destruct (H uname trs (or_introl eq_refl)) as (Hget & ts & -> & Hts).
    cbn [iter bind]. rewrite (backfill_trips_complete ts [] Hts). cbn [bind app setitem].
    rewrite (dict_set_get _ _ _ Hget).
    apply IH. intros k v Hin. apply H. right. exact Hin.
Qed.

(** On a well-formed mapping the items are what the mapping holds. *)
Lemma backfill_well_formed (T : dict) :
  well_formed_trips T -> backfill_users (PDict T) T = Ok (PDict T).
Proof.
  intros [Hnd Hall]. apply backfill_users_complete.
  intros k v Hin. split.
  - apply dict_get_in; assumption.
  - rewrite Forall_forall in Hall. apply (Hall (k, v) Hin).
Qed.

Section Store.

Variable json_load : string -> result value.
Variable json_dump : value -> string.

(** The parse error is swallowed: when [json.load] raises
    [JSONDecodeError] on the text of the backing file, [load_users] and
    [load_trips] return an empty mapping. *)
Lemma load_malformed_is_empty (fs : files) (text : string) :
  json_load text = Raise JSONDecodeError ->
  (USERS_FILE fs = Some text -> load_users json_load fs = Ok (PDict [])) /\
  (TRIPS_FILE fs = Some text -> load_trips json_load fs = Ok (PDict [])).
Proof.
  intros Hbad. split; intros Hfile.
  - unfold load_users. rewrite Hfile, Hbad. reflexivity.
  - unfold load_trips. rewrite Hfile, Hbad. reflexivity.
Qed.

(** Any other exception of [json.load] leaves the loaders. *)
Lemma load_propagates (fs : files) (text : string) (e : exn) :
  json_load text = Raise e -> e <> JSONDecodeError ->
  (USERS_FILE fs = Some text -> load_users json_load fs = Raise e) /\
  (TRIPS_FILE fs = Some text -> load_trips json_load fs = Raise e).
Proof.
  intros Hbad Hne.
  assert (E : exn_eqb e JSONDecodeError = false)
    by (destruct e; [exfalso; apply Hne; reflexivity | reflexivity ..]).
  split; intros Hfile.
  - unfold load_users. rewrite Hfile, Hbad. cbn. rewrite E. reflexivity.
  - unfold load_trips. rewrite Hfile, Hbad. cbn. rewrite E. reflexivity.
Qed.

(** Without a backing file the mapping is empty too. *)
Lemma load_absent_is_empty (fs : files) :
  (USERS_FILE fs = None -> load_users json_load fs = Ok (PDict [])) /\
  (TRIPS_FILE fs = None -> load_trips json_load fs = Ok (PDict [])).
Proof.
  split; intros H; [unfold load_users | unfold load_trips]; rewrite H; reflexivity.
Qed.

(** An exception of another class is not caught: a document that is JSON
    but no mapping makes [load_users] raise. *)
Lemma load_users_not_a_mapping (fs : files) (text : string) (l : list value) :
  USERS_FILE fs = Some text -> json_load text = Ok (PList l) ->
  load_users json_load fs = Raise AttributeError.
Proof.
  intros Hfile Hl. unfold load_users. rewrite Hfile, Hl. reflexivity.
Qed.

(** C8: when the users document maps a username to a bare string, the
    legacy form of a password, [load_users] returns a mapping that holds
    for this username the full record: the string as [password], ["user"]
    as [role], [None] as [profile_pic] and empty [bio],
    [favorite_destination] and [goals]. *)
Theorem load_users_upgrades_legacy
    (fs : files) (text : string) (doc : dict) (user password : string) :
  USERS_FILE fs = Some text ->
  json_load text = Ok (PDict doc) ->
  users_document doc ->
  dict_get user doc = Some (PStr password) ->
  exists data,
    load_users json_load fs = Ok (PDict data) /\
    dict_get user data
    = Some (PDict [ ("password", PStr password);
                    ("profile_pic", PNone);
                    ("role", PStr "user");
                    ("bio", PStr "");
                    ("favorite_destination", PStr "");
                    ("goals", PStr "") ]).
Proof.
  intros Hfile Hdoc Hwf Hget.
  destruct (upgrade_users_entries (map fst doc) doc) as (data & Hrun & Hdata).
  - intros u Hin. apply dict_get_key_in. exact Hin.
  - intros k v Hk. apply dict_get_some_in in Hk.
    unfold users_document in Hwf. rewrite Forall_forall in Hwf. apply (Hwf (k, v) Hk).
  - exists data. split.
    + unfold load_users. rewrite Hfile, Hdoc. cbn [bind keys]. rewrite Hrun. reflexivity.
    + rewrite Hdata, Hget.
      rewrite existsb_eqb_in.
      * reflexivity.
      * apply dict_get_some_in in Hget. apply (in_map fst) in Hget. exact Hget.
Qed.

(** C7: for a well-formed trip mapping [T] that the JSON text carries
    faithfully, loading after saving returns [T], so saving what was loaded
    writes the file that saving [T] wrote; the backfill of [load_trips]
    leaves complete records as they are. *)
Theorem save_load_save_trips (fs : files) (T : dict) :
  well_formed_trips T ->
  json_load (json_dump (PDict T)) = Ok (PDict T) ->
  load_trips json_load (save_trips json_dump (PDict T) fs) = Ok (PDict T) /\
  (forall loaded,
      load_trips json_load (save_trips json_dump (PDict T) fs) = Ok loaded ->
      save_trips json_dump loaded (save_trips json_dump (PDict T) fs)
      = save_trips json_dump (PDict T) fs) /\
  backfill_users (PDict T) T = Ok (PDict T).
Proof.
  intros Hwf Hround.
  assert (L : load_trips json_load (save_trips json_dump (PDict T) fs) = Ok (PDict T)).
  { unfold load_trips, save_trips. cbn [TRIPS_FILE]. rewrite Hround. cbn [bind items].
    rewrite (backfill_well_formed T Hwf). reflexivity. }
  split; [exact L | split; [ | exact (backfill_well_formed T Hwf)]].
  intros loaded Hl. rewrite L in Hl. inversion Hl. subst loaded. reflexivity.
Qed.

End Store.

(** The theorems at concrete files, read with [Json.loads] and written with
    [Json.dumps]. *)
(** C6: what the loaders do on backing files that hold no valid document.
    Text that is no JSON gives the empty mapping. A file whose bytes are no
    UTF-8 text makes [json.load] raise [UnicodeDecodeError] while it reads
    the file, and a document with a number of more than 4300 digits makes
    it raise [ValueError]; the loaders catch [JSONDecodeError] only, so
    both exceptions leave [load_users] and [load_trips]. *)
Theorem load_undecodable_raises :
  load_users Json.load malformed_files = Ok (PDict []) /\
  load_trips Json.load malformed_files = Ok (PDict []) /\
  load_users Json.load (mkfiles (Some latin1_document) None) = Raise UnicodeDecodeError /\
  load_trips Json.load (mkfiles None (Some latin1_document)) = Raise UnicodeDecodeError /\
  load_users Json.load (mkfiles (Some long_number_document) None) = Raise ValueError /\
  load_trips Json.load (mkfiles None (Some long_number_document)) = Raise ValueError.
Proof.
  repeat split; vm_compute; reflexivity.
Qed.

Lemma load_users_upgrades_legacy_witness :
  exists data,
    load_users Json.loads legacy_files = Ok (PDict data) /\
    dict_get "alice" data
    = Some (PDict [ ("password", PStr "hunter2");
                    ("profile_pic", PNone);
                    ("role", PStr "user");
                    ("bio", PStr "");
                    ("favorite_destination", PStr "");
                    ("goals", PStr "") ]).
Proof.
  apply (load_users_upgrades_legacy Json.loads legacy_files
           (Json.dumps (PDict legacy_users)) legacy_users "alice" "hunter2").
  - reflexivity.
  - vm_compute. reflexivity.
  - repeat constructor.
  - reflexivity.
Defined.

Lemma save_load_save_trips_witness :
  load_trips Json.loads (save_trips Json.dumps (PDict sample_trips) (mkfiles None None))
  = Ok (PDict sample_trips).
Proof.
  apply (save_load_save_trips Json.loads Json.dumps (mkfiles None None) sample_trips).
  - split.
    + repeat constructor; cbn; intuition discriminate.
    + repeat constructor.
      * eexists [_]. split; [reflexivity | ].
        repeat constructor. intros f Hf. cbn in Hf.
        repeat (destruct Hf as [<- | Hf]; [reflexivity | ]). contradiction.
      * exists []. split; [reflexivity | constructor].
  - vm_compute. reflexivity.
Defined.

Example loads_rejects :
  map Json.loads ["{oops"; ""; "[1, 2,]"; "01"; "nul"; "[1] 2"]
  = [Raise JSONDecodeError; Raise JSONDecodeError; Raise JSONDecodeError;
     Raise JSONDecodeError; Raise JSONDecodeError; Raise JSONDecodeError].
Proof. vm_compute. reflexivity. Qed.

Example loads_values :
  Json.loads " [1, -2.5, true, null, {}, [1e2]] "
  = Ok (PList [PInt 1; PFloat (-2.5); PBool true; PNone; PDict []; PList [PFloat 100]]).
Proof. vm_compute. reflexivity. Qed.

Example loads_dumps_sample :
  Json.loads (Json.dumps (PDict sample_trips)) = Ok (PDict sample_trips).
Proof. vm_compute. reflexivity. Qed.

Example load_trips_backfills :
  load_trips Json.loads (mkfiles None (Some (Json.dumps (PDict [("ana", PList [PDict []])]))))
  = Ok (PDict [("ana", PList [PDict (ReminderSpec.trip "" "")])]).
Proof. vm_compute. reflexivity. Qed.

End PersistenceFacts.

(** ** Total expenses *)

Module InsightsFacts.

Import Obj Insights InsightsSpec.

(** An expense without amount counts for 0. *)
Lemma amount_missing (e : dict) :
  dict_get "amount" e = None -> amount_of (PDict e) = Ok 0%float.
Proof. intros H. unfold amount_of. cbn. rewrite H. reflexivity. Qed.

(** So does one whose amount is [None], empty or zero. *)
Lemma amount_falsy (e : dict) (a : value) :
  dict_get "amount" e = Some a -> truthy a = false -> amount_of (PDict e) = Ok 0%float.
Proof.
  intros H F. unfold amount_of, or_. cbn. rewrite H, F. reflexivity.
Qed.

(** A non-empty string that [float()] rejects is not replaced by 0: the
    exception leaves the loop. *)
Lemma amount_rejected_string (e : dict) (s : string) (es : list value)
    (name : value) (d : Datetime.date) (total : float) (rows : list expense_row) :
  dict_get "amount" e = Some (PStr s) -> s <> "" ->
  Float.of_str s = Raise ValueError ->
  amount_of (PDict e) = Raise ValueError /\
  expense_loop name d (PDict e :: es) total rows = Raise ValueError.
Proof.
  intros H Hne Hbad.
  assert (T : truthy (PStr s) = true).
  { cbn. destruct (String.eqb s "") eqn:E; [ | reflexivity].
    apply String.eqb_eq in E. contradiction. }
  split.
  - unfold amount_of, or_. cbn [get bind]. rewrite H, T. exact Hbad.
  - cbn [expense_loop get bind]. rewrite H. unfold or_. rewrite T.
    cbn [Float.float_]. rewrite Hbad. reflexivity.
Qed.

(** C2: what the accumulation does on the amounts [10.50, 5, "bad"]: it
    raises [ValueError] and yields no total, while the amounts [10.50, 5]
    alone sum to 15.50. *)
Theorem total_expenses_bad_amount_raises (today : Datetime.date) :
  total_expenses today (trips_with [PFloat 10.5; PInt 5; PStr "bad"]) "ana"
  = Raise ValueError /\
  (r <- total_expenses today (trips_with [PFloat 10.5; PInt 5]) "ana" ;; Ok (fst r))
  = Ok 15.5%float.
Proof.
  split; vm_compute; reflexivity.
Qed.

Example float_of_strings :
  map Float.of_str ["10.50"; " 5 "; "1_000.5"; "1e3"; "bad"; ""; "1_"; "0x10"]
  = [Ok 10.5%float; Ok 5%float; Ok 1000.5%float; Ok 1000%float;
     Raise ValueError; Raise ValueError; Raise ValueError; Raise ValueError].
Proof. vm_compute. reflexivity. Qed.

Example float_of_values :
  map Float.float_ [PInt 5; PBool true; PFloat 10.5; PNone; PInt (2 ^ 1024)]
  = [Ok 5%float; Ok 1%float; Ok 10.5%float; Raise TypeError; Raise OverflowError].
Proof. vm_compute. reflexivity. Qed.

Example float_repr_forms :
  map Float.repr [0.1; 10.5; 5; 48.85; 1e22; 1e16; 0.0001; 0.00001; -95.71]%float
  = ["0.1"; "10.5"; "5.0"; "48.85"; "1e+22"; "1e+16"; "0.0001"; "1e-05"; "-95.71"].
Proof. vm_compute. reflexivity. Qed.

End InsightsFacts.

(** ** Login *)

Module AuthFacts.

Import Obj Auth.

(** A text without a dollar sign is a single field. *)
Lemma split_dollar_plain (s cur : string) :
  (forall c, In c (list_ascii_of_string s) -> c <> "$"%char) ->
  split_dollar s cur = [(cur ++ s)%string].
Proof.
  revert cur. induction s as [| c s IH]; intros cur H; cbn [split_dollar].
  - rewrite StrFacts.append_empty_r. reflexivity.
  - destruct (Ascii.eqb c "$") eqn:E.
    + apply Ascii.eqb_eq in E. exfalso. apply (H c); [left; reflexivity | exact E].
    + rewrite IH.
      * rewrite StrFacts.append_assoc. reflexivity.
      * intros c' Hin. apply H. right. exact Hin.
Qed.

Section Bcrypt.

Variable crypt : string -> list string -> result string.

(** A stored value without a dollar sign, as a plain-text password of the
    old schema is, makes [bcrypt.checkpw] raise [ValueError]. *)
Lemma checkpw_plain_text (password hashed : string) :
  (forall c, In c (list_ascii_of_string hashed) -> c <> "$"%char) ->
  checkpw crypt password hashed = Raise ValueError.
Proof.
  intros H. unfold checkpw, hashpw. rewrite (split_dollar_plain hashed EmptyString H).
  cbn [filter]. destruct (nonempty _); reflexivity.
Qed.

(** The handler has no [try]: an exception of the verification leaves it,
    and nothing is shown. *)
Lemma login_button_propagates (today : Datetime.date) (users : dict) (trips : value)
    (username password : string) (s : session) (e : exn) :
  credentials_ok crypt users username password = Raise e ->
  login_button crypt today users trips username password s = (s, [], Raise e).
Proof. intros H. unfold login_button. rewrite H. reflexivity. Qed.

(** A verification that answers [False], and an unknown username, are
    reported as invalid credentials. *)
Lemma login_button_rejects (today : Datetime.date) (users : dict) (trips : value)
    (username password : string) (s : session) :
  credentials_ok crypt users username password = Ok false ->
  login_button crypt today users trips username password s
  = (s, [Error "Invalid credentials."], Ok tt).
Proof. intros H. unfold login_button. rewrite H. reflexivity. Qed.

Lemma credentials_unknown_user (users : dict) (username password : string) :
  dict_get username users = None ->
  credentials_ok crypt users username password = Ok false.
Proof. intros H. unfold credentials_ok, dict_mem. rewrite H. reflexivity. Qed.

(** A user whose stored password has no dollar sign cannot log in, and is
    not told so: the handler ends with [ValueError]. *)
Lemma login_plain_text_raises (today : Datetime.date) (users : dict) (trips : value)
    (username password stored : string) (u : dict) (s : session) :
  dict_get username users = Some (PDict u) ->
  dict_get "password" u = Some (PStr stored) ->
  (forall c, In c (list_ascii_of_string stored) -> c <> "$"%char) ->
  login_button crypt today users trips username password s = (s, [], Raise ValueError).
Proof.
  intros Hu Hp Hplain. apply login_button_propagates.
  unfold credentials_ok, dict_mem. rewrite Hu. cbn [getitem bind]. rewrite Hu.
  cbn [bind getitem]. rewrite Hp. cbn [bind check_password].
  apply checkpw_plain_text. exact Hplain.
Qed.

(** C5: what the Login handler does when the stored hash is a legacy
    plain-text password. With the users that [load_users] returns for the
    document [{"alice": "hunter2"}], logging in as alice ends with
    [ValueError] for every password typed, and no "Invalid credentials."
    is shown. *)
Theorem login_legacy_password_raises
    (today : Datetime.date) (trips : value) (password : string) (s : session) :
  Persistence.load_users Json.loads
    (Persistence.mkfiles (Some (Json.dumps (PDict [("alice", PStr "hunter2")]))) None)
  = Ok (PDict [("alice", PersistenceSpec.legacy_record "hunter2")]) /\
  login_button crypt today [("alice", PersistenceSpec.legacy_record "hunter2")]
    trips "alice" password s
  = (s, [], Raise ValueError).
Proof.
  split.
  - vm_compute. reflexivity.
  - eapply login_plain_text_raises; [reflexivity | reflexivity | ].
    intros c Hin. cbn in Hin.
    repeat (destruct Hin as [<- | Hin]; [discriminate | ]). contradiction.
Qed.

End Bcrypt.

End AuthFacts.


(** * Further properties *)

(** ** What the loaders guarantee *)

Module LoadFacts.

Import Obj Persistence DictFacts PersistenceSpec PersistenceFacts LoadSpec.

(** Assigning to a key that is there keeps the keys. *)
Lemma dict_set_keys (k : string) (v : value) (d : dict) :
  dict_mem k d = true -> map fst (dict_set k v d) = map fst d.
Proof.
  unfold dict_mem. induction d as [| [k' v'] d IH]; cbn; [discriminate | ].
  destruct (String.eqb k k') eqn:E; cbn; [reflexivity | ].
  intros H. rewrite IH by exact H. reflexivity.
Qed.

(** [setdefault] keeps the value of every field that is there. *)
Lemma dict_get_setdefault_keep (f k : string) (x v : value) (d : dict) :
  dict_get f d = Some x -> dict_get f (dict_setdefault k v d) = Some x.
Proof.
  intros H. unfold dict_setdefault. destruct (dict_mem k d) eqn:M; [exact H | ].
  destruct (String.eqb f k) eqn:E.
  - apply String.eqb_eq in E. subst k. unfold dict_mem in M. rewrite H in M. discriminate.
  - apply String.eqb_neq in E. rewrite dict_get_set_other by exact E. exact H.
Qed.

Lemma with_defaults_extends (d : dict) : extends d (with_defaults d).
Proof.
  intros f x H. unfold with_defaults. do 5 apply dict_get_setdefault_keep. exact H.
Qed.

Lemma with_defaults_fields (d : dict) (f : string) :
  In f profile_fields -> dict_mem f (with_defaults d) = true.
Proof.
  unfold with_defaults. cbn. intros [<- | [<- | [<- | [<- | [<- | []]]]]].
  - do 4 apply dict_mem_setdefault_keep. apply dict_mem_setdefault_same.
  - do 3 apply dict_mem_setdefault_keep. apply dict_mem_setdefault_same.
  - do 2 apply dict_mem_setdefault_keep. apply dict_mem_setdefault_same.
  - do 1 apply dict_mem_setdefault_keep. apply dict_mem_setdefault_same.
  - apply dict_mem_setdefault_same.
Qed.

(** A record in loaded form is left as it is. *)
Lemma with_defaults_loaded (r : dict) :
  (forall f, In f profile_fields -> dict_mem f r = true) -> with_defaults r = r.
Proof.
  intros H. unfold with_defaults.
  repeat (rewrite (dict_setdefault_present _ _ r) by (apply H; cbn; tauto)).
  reflexivity.
Qed.

Lemma upgraded_loaded (v : value) : user_entry v -> loaded_user (upgraded v).
Proof.
  destruct v as [ | | | | password | | d]; cbn; try contradiction; intros _.
  - eexists. split; [reflexivity | ].
    cbn. intros f [<- | [<- | [<- | [<- | [<- | []]]]]]; reflexivity.
  - exists (with_defaults d). split; [reflexivity | apply with_defaults_fields].
Qed.

(** The loop of [load_users] keeps the usernames and their order. *)
Lemma upgrade_users_keys (users : list string) (data data' : dict) :
  (forall u, In u users -> exists v, dict_get u data = Some v) ->
  (forall k v, dict_get k data = Some v -> user_entry v) ->
  upgrade_users (PDict data) users = Ok (PDict data') ->
  map fst data' = map fst data.
Proof.
  revert data. induction users as [| u users IH]; intros data Hkeys Hvals; cbn [upgrade_users].
  - intros H. inversion H. reflexivity.
  - destruct (Hkeys u (or_introl eq_refl)) as [v Hv].
    rewrite (upgrade_user_entry data u v Hv (Hvals u v Hv)). cbn [bind]. intros Hrun.
    rewrite (IH (dict_set u (upgraded v) data)); [ | | | exact Hrun].
    + apply dict_set_keys. unfold dict_mem. rewrite Hv. reflexivity.
    + intros u' Hin. destruct (String.eqb u' u) eqn:E.
      * apply String.eqb_eq in E. subst u'. rewrite dict_get_set_same. eauto.
      * apply String.eqb_neq in E. rewrite dict_get_set_other by exact E.
        apply Hkeys. right. exact Hin.
    + intros k w. destruct (String.eqb k u) eqn:E.
      * apply String.eqb_eq in E. subst k. rewrite dict_get_set_same.
        intros H. inversion H. apply upgraded_entry. eauto.
      * apply String.eqb_neq in E. rewrite dict_get_set_other by exact E.
        apply Hvals.
Qed.

(** One turn of the loop on a record in loaded form changes nothing. *)
Lemma upgrade_user_loaded (data : dict) (user : string) (v : value) :
  dict_get user data = Some v -> loaded_user v ->
  upgrade_user (PDict data) user = Ok (PDict data).
Proof.
  intros Hget (r & -> & Hr).
  rewrite (upgrade_user_entry data user (PDict r) Hget I).
  cbn [upgraded]. rewrite (with_defaults_loaded r Hr).
  rewrite (dict_set_get _ _ _ Hget). reflexivity.
Qed.

Lemma upgrade_users_loaded (users : list string) (data : dict) :
  (forall u, In u users -> exists v, dict_get u data = Some v /\ loaded_user v) ->
  upgrade_users (PDict data) users = Ok (PDict data).
Proof.
  induction users as [| u users IH]; intros H; cbn [upgrade_users]; [reflexivity | ].
  destruct (H u (or_introl eq_refl)) as (v & Hv & Hl).
  rewrite (upgrade_user_loaded data u v Hv Hl). cbn [bind].
  apply IH. intros u' Hin. apply H. right. exact Hin.
Qed.

(** The value a turn of the loop finds decides how it ends. *)
Lemma upgrade_user_bad_entry (data : dict) (user : string) (v : value) :
  dict_get user data = Some v -> ~ user_entry v ->
  upgrade_user (PDict data) user = Raise AttributeError.
Proof.
  intros Hget Hbad. unfold upgrade_user. cbn [getitem bind]. rewrite Hget. cbn [bind].
  destruct v; cbn in Hbad; try (exfalso; apply Hbad; exact I);
    cbn [is_str bind]; unfold setdefault_at; cbn [getitem bind]; rewrite Hget; reflexivity.
Qed.

Lemma upgrade_users_bad_entry (users : list string) (data : dict) (user : string) (v : value) :
  (forall u, In u users -> exists w, dict_get u data = Some w) ->
  In user users ->
  dict_get user data = Some v -> ~ user_entry v ->
  upgrade_users (PDict data) users = Raise AttributeError.
Proof.
  revert data. induction users as [| u users IH]; intros data Hkeys Hin Hget Hbad;
    [destruct Hin | ].
  cbn [upgrade_users].
  destruct (Hkeys u (or_introl eq_refl)) as [w Hw].
  assert (D : user_entry w \/ ~ user_entry w) by (destruct w; cbn; tauto).
  destruct D as [Hgood | Hbad'].
  - rewrite (upgrade_user_entry data u w Hw Hgood). cbn [bind].
    assert (Hne : user <> u) by (intros ->; rewrite Hw in Hget; inversion Hget; subst; tauto).
    apply IH.
    + intros u' Hin'. destruct (String.eqb u' u) eqn:E.
      * apply String.eqb_eq in E. subst u'. rewrite dict_get_set_same. eauto.
      * apply String.eqb_neq in E. rewrite dict_get_set_other by exact E.
        apply Hkeys. right. exact Hin'.
    + destruct Hin as [-> | Hin]; [contradiction | exact Hin].
    + rewrite dict_get_set_other by exact Hne. exact Hget.
    + exact Hbad.
  - rewrite (upgrade_user_bad_entry data u w Hw Hbad'). reflexivity.
Qed.

(** The eight [setdefault] calls on a record. *)
Lemma backfill_trip_dict (t : dict) : backfill_trip (PDict t) = Ok (PDict (backfilled t)).
Proof. reflexivity. Qed.

Lemma backfill_trip_not_dict (x : value) :
  is_dict x = false -> backfill_trip x = Raise AttributeError.
Proof. destruct x; try discriminate; reflexivity. Qed.

Lemma backfilled_complete (t : dict) : complete (backfilled t).
Proof.
  intros f Hf. unfold backfilled. cbn in Hf.
  destruct Hf as [<- | [<- | [<- | [<- | [<- | [<- | [<- | [<- | []]]]]]]]].
  - do 7 apply dict_mem_setdefault_keep. apply dict_mem_setdefault_same.
  - do 6 apply dict_mem_setdefault_keep. apply dict_mem_setdefault_same.
  - do 5 apply dict_mem_setdefault_keep. apply dict_mem_setdefault_same.
  - do 4 apply dict_mem_setdefault_keep. apply dict_mem_setdefault_same.
  - do 3 apply dict_mem_setdefault_keep. apply dict_mem_setdefault_same.
  - do 2 apply dict_mem_setdefault_keep. apply dict_mem_setdefault_same.
  - do 1 apply dict_mem_setdefault_keep. apply dict_mem_setdefault_same.
  - apply dict_mem_setdefault_same.
Qed.

Lemma backfilled_extends (t : dict) : extends t (backfilled t).
Proof.
  intros f x H. unfold backfilled. do 8 apply dict_get_setdefault_keep. exact H.
Qed.

(** The inner loop of [load_trips] on a list of records. *)
Lemma backfill_trips_dicts (ts : list dict) (new_trs : list value) :
  backfill_trips (map PDict ts) new_trs
  = Ok (new_trs ++ map (fun t => PDict (backfilled t)) ts).
Proof.
  revert new_trs. induction ts as [| t ts IH]; intros new_trs; cbn [map backfill_trips].
  - rewrite app_nil_r. reflexivity.
  - rewrite backfill_trip_dict. cbn [bind]. rewrite IH, <- app_assoc. reflexivity.
Qed.

(** It stops at the first element that is no record. *)
Lemma backfill_trips_not_dict (ts : list dict) (x : value) (more new_trs : list value) :
  is_dict x = false ->
  backfill_trips (map PDict ts ++ x :: more) new_trs = Raise AttributeError.
Proof.
  intros Hx. revert new_trs. induction ts as [| t ts IH]; intros new_trs; cbn [map app backfill_trips].
  - rewrite (backfill_trip_not_dict x Hx). reflexivity.
  - rewrite backfill_trip_dict. cbn [bind]. apply IH.
Qed.

Lemma loaded_trips_dicts (ts : list dict) :
  loaded_trips (PList (map PDict ts)) = PList (map (fun t => PDict (backfilled t)) ts).
Proof. cbn. rewrite map_map. reflexivity. Qed.

(** The outer loop of [load_trips] over items with distinct usernames that
    [data] has: it ends without an exception, keeps the usernames, and
    stores the backfilled list at each username it went through. *)
Lemma backfill_users_run (its : list (string * value)) (data : dict) :
  NoDup (map fst its) ->
  (forall k v, In (k, v) its ->
               dict_mem k data = true /\ exists ts : list dict, v = PList (map PDict ts)) ->
  exists data',
    backfill_users (PDict data) its = Ok (PDict data') /\
    map fst data' = map fst data /\
    forall k,
      dict_get k data' =
      match dict_get k its with
      | Some v => Some (loaded_trips v)
      | None => dict_get k data
      end.
Proof.
  revert data. induction its as [| [uname trs] its IH]; intros data Hnd H.
  - exists data. repeat split.
  - inversion Hnd as [| ? ? Hnotin Hnd']; subst.
    destruct (H uname trs (or_introl eq_refl)) as (Hmem & ts & ->).
    cbn [backfill_users iter bind]. rewrite backfill_trips_dicts. cbn [bind app setitem].
    destruct (IH (dict_set uname (PList (map (fun t => PDict (backfilled t)) ts)) data) Hnd')
      as (data' & Hrun & Hkeys & Hget).
    + intros k v Hin. destruct (H k v (or_intror Hin)) as (Hm & Hv). split; [ | exact Hv].
      unfold dict_mem in *. destruct (String.eqb k uname) eqn:E.
      * apply String.eqb_eq in E. subst k. rewrite dict_get_set_same. reflexivity.
      * apply String.eqb_neq in E. rewrite dict_get_set_other by exact E. exact Hm.
    + exists data'. split; [exact Hrun | split].
      * rewrite Hkeys. apply dict_set_keys. exact Hmem.
      * intros k. rewrite Hget. cbn [dict_get].
        destruct (String.eqb k uname) eqn:E.
        -- apply String.eqb_eq in E. subst k.
           destruct (dict_get uname its) as [w | ] eqn:G.
           ++ exfalso. apply Hnotin. apply dict_get_some_in in G.
              apply (in_map fst) in G. exact G.
           ++ rewrite dict_get_set_same, loaded_trips_dicts. reflexivity.
        -- apply String.eqb_neq in E. rewrite dict_get_set_other by exact E. reflexivity.
Qed.

Lemma dict_mem_in (k : string) (v : value) (d : dict) :
  In (k, v) d -> dict_mem k d = true.
Proof.
  intros H. unfold dict_mem.
  destruct (dict_get_key_in k d) as [w ->]; [ | reflexivity].
  apply (in_map fst) in H. exact H.
Qed.

(** The outer loop goes through the items in order. *)
Lemma backfill_users_app (its1 its2 : list (string * value)) (data : value) :
  backfill_users data (its1 ++ its2)
  = (d <- backfill_users data its1 ;; backfill_users d its2).
Proof.
  revert data. induction its1 as [| [uname trs] its1 IH]; intros data; cbn [app backfill_users bind].
  - reflexivity.
  - destruct (iter trs) as [ts | e]; cbn [bind]; [ | reflexivity].
    destruct (backfill_trips ts []) as [new_trs | e]; cbn [bind]; [ | reflexivity].
    destruct (setitem data uname (PList new_trs)) as [d | e]; cbn [bind]; [ | reflexivity].
    apply IH.
Qed.

Section Store.

Variable json_load : string -> result value.
Variable json_dump : value -> string.

(** X1: for every users document (a mapping whose values are records or
    bare password strings) [load_users] returns, without an exception, a
    mapping with the same usernames in the same order, in which every
    user's record has the five profile fields and keeps every field the
    stored record had, with its value. *)
Theorem load_users_fills_profile (fs : files) (text : string) (doc : dict) :
  USERS_FILE fs = Some text ->
  json_load text = Ok (PDict doc) ->
  users_document doc ->
  exists data,
    load_users json_load fs = Ok (PDict data) /\
    map fst data = map fst doc /\
    forall user v,
      dict_get user doc = Some v ->
      exists r,
        dict_get user data = Some (PDict r) /\
        (forall f, In f profile_fields -> dict_mem f r = true) /\
        (forall d, v = PDict d -> extends d r).
Proof.
  intros Hfile Hdoc Hwf.
  assert (Hkeys : forall u, In u (map fst doc) -> exists v, dict_get u doc = Some v)
    by (intros u Hin; apply dict_get_key_in; exact Hin).
  assert (Hvals : forall k v, dict_get k doc = Some v -> user_entry v).
  { intros k v Hk. apply dict_get_some_in in Hk.
    unfold users_document in Hwf. rewrite Forall_forall in Hwf. apply (Hwf (k, v) Hk). }
  destruct (upgrade_users_entries (map fst doc) doc Hkeys Hvals) as (data & Hrun & Hdata).
  exists data. split; [ | split].
  - unfold load_users. rewrite Hfile, Hdoc. cbn [bind keys]. rewrite Hrun. reflexivity.
  - apply (upgrade_users_keys (map fst doc)); assumption.
  - intros user v Hget. rewrite Hdata, Hget.
    rewrite existsb_eqb_in
      by (apply dict_get_some_in in Hget; apply (in_map fst) in Hget; exact Hget).
    cbn [option_map].
    destruct (upgraded_loaded v (Hvals user v Hget)) as (r & Hr & Hfields).
    exists r. rewrite Hr. split; [reflexivity | split; [exact Hfields | ]].
    intros d ->. cbn in Hr. inversion Hr. apply with_defaults_extends.
Qed.

(** X2: a users mapping whose records all have the profile fields, as
    every mapping [load_users] returned or Sign Up extended has, comes back
    unchanged from [save_users] followed by [load_users], provided the JSON
    text carries it faithfully. *)
Theorem save_load_users (fs : files) (U : dict) :
  loaded_users U ->
  json_load (json_dump (PDict U)) = Ok (PDict U) ->
  load_users json_load (save_users json_dump (PDict U) fs) = Ok (PDict U).
Proof.
  intros HU Hround. unfold load_users, save_users. cbn [USERS_FILE].
  rewrite Hround. cbn [bind keys].
  rewrite upgrade_users_loaded; [reflexivity | ].
  intros u Hin. destruct (dict_get_key_in u U Hin) as [v Hv].
  exists v. split; [exact Hv | ]. apply (HU u v). apply dict_get_some_in. exact Hv.
Qed.

(** X3: [load_users] swallows only the parse error. When the file holds
    JSON that is no mapping (a list, a number, a string, null) it raises
    [AttributeError], and so it does when some username of the mapping has
    a value that is neither a record nor a string. *)
Theorem load_users_raises_on_other_shapes (fs : files) (text : string) (v : value) :
  USERS_FILE fs = Some text ->
  json_load text = Ok v ->
  (is_dict v = false \/
   exists doc user x, v = PDict doc /\ dict_get user doc = Some x /\ ~ user_entry x) ->
  load_users json_load fs = Raise AttributeError.
Proof.
  intros Hfile Hv H. unfold load_users. rewrite Hfile, Hv. cbn [bind].
  destruct H as [Hnd | (doc & user & x & -> & Hget & Hbad)].
  - destruct v; try discriminate Hnd; reflexivity.
  - cbn [keys bind].
    rewrite (upgrade_users_bad_entry (map fst doc) doc user x); [reflexivity | | | exact Hget | exact Hbad].
    + intros u Hin. apply dict_get_key_in. exact Hin.
    + apply dict_get_some_in in Hget. apply (in_map fst) in Hget. exact Hget.
Qed.

(** X4: for every trips document (distinct usernames, each with a list of
    records) [load_trips] returns, without an exception, a mapping with the
    same usernames in the same order and, for each user, the same trips in
    the same order, each with all eight fields and with every field it had
    kept at its value. *)
Theorem load_trips_fills_fields (fs : files) (text : string) (doc : dict) :
  TRIPS_FILE fs = Some text ->
  json_load text = Ok (PDict doc) ->
  trips_document doc ->
  exists data,
    load_trips json_load fs = Ok (PDict data) /\
    map fst data = map fst doc /\
    forall user ts,
      dict_get user doc = Some (PList (map PDict ts)) ->
      dict_get user data = Some (PList (map (fun t => PDict (backfilled t)) ts)) /\
      forall t, In t ts -> complete (backfilled t) /\ extends t (backfilled t).
Proof.
  intros Hfile Hdoc [Hnd Hvals].
  destruct (backfill_users_run doc doc Hnd) as (data & Hrun & Hkeys & Hget).
  - intros k v Hin. split; [apply (dict_mem_in k v); exact Hin | apply (Hvals k v Hin)].
  - exists data. split; [ | split; [exact Hkeys | ]].
    + unfold load_trips. rewrite Hfile, Hdoc. cbn [bind items]. rewrite Hrun. reflexivity.
    + intros user ts Hu. rewrite Hget, Hu, loaded_trips_dicts. split; [reflexivity | ].
      intros t _. split; [apply backfilled_complete | apply backfilled_extends].
Qed.

(** X5: [load_trips] does not swallow what a malformed entry raises. After
    users whose trips are lists of records, a user whose trips are [null],
    a boolean or a number makes it raise [TypeError], and a user whose list
    holds something that is no record makes it raise [AttributeError]. *)
Theorem load_trips_raises_on_bad_entry
    (fs : files) (text : string) (before after : list (string * value))
    (user : string) (bad : value) :
  TRIPS_FILE fs = Some text ->
  json_load text = Ok (PDict (before ++ (user, bad) :: after)) ->
  trips_document before ->
  (not_iterable bad -> load_trips json_load fs = Raise TypeError) /\
  (forall (ts : list dict) (x : value) (more : list value),
      bad = PList (map PDict ts ++ x :: more) -> is_dict x = false ->
      load_trips json_load fs = Raise AttributeError).
Proof.
  intros Hfile Hdoc [Hnd Hvals].
  destruct (backfill_users_run before (before ++ (user, bad) :: after) Hnd)
    as (data & Hrun & _).
  { intros k v Hin. split; [ | apply (Hvals k v Hin)].
    apply (dict_mem_in k v). apply in_or_app. left. exact Hin. }
  assert (E : load_trips json_load fs
              = try_except (backfill_users (PDict data) ((user, bad) :: after))
                  JSONDecodeError (Ok (PDict []))).
  { unfold load_trips. rewrite Hfile, Hdoc. cbn [bind items].
    rewrite backfill_users_app, Hrun. reflexivity. }
  rewrite E. split.
  - intros Hbad. destruct bad; cbn in Hbad; try contradiction; reflexivity.
  - intros ts x more -> Hx. cbn [backfill_users iter bind].
    rewrite (backfill_trips_not_dict ts x more [] Hx). reflexivity.
Qed.

End Store.

Lemma load_users_fills_profile_witness :
  exists data,
    load_users Json.loads (mkfiles (Some (Json.dumps (PDict mixed_users))) None)
    = Ok (PDict data) /\
    map fst data = ["alice"; "bob"].
Proof.
  destruct (load_users_fills_profile Json.loads
              (mkfiles (Some (Json.dumps (PDict mixed_users))) None)
              (Json.dumps (PDict mixed_users)) mixed_users)
    as (data & Hrun & Hkeys & _).
  - reflexivity.
  - vm_compute. reflexivity.
  - repeat constructor.
  - exists data. split; [exact Hrun | exact Hkeys].
Defined.

Lemma save_load_users_witness :
  load_users Json.loads
    (save_users Json.dumps (PDict [("alice", legacy_record "hunter2")]) (mkfiles None None))
  = Ok (PDict [("alice", legacy_record "hunter2")]).
Proof.
  apply (save_load_users Json.loads Json.dumps).
  - intros k v [E | []]. inversion E. eexists. split; [reflexivity | ].
    cbn. intros f [<- | [<- | [<- | [<- | [<- | []]]]]]; reflexivity.
  - vm_compute. reflexivity.
Defined.

Lemma load_users_raises_on_other_shapes_witness :
  load_users Json.loads (mkfiles (Some "[1, 2]") None) = Raise AttributeError /\
  load_users Json.loads (mkfiles (Some (Json.dumps (PDict [("carl", PNone)]))) None)
  = Raise AttributeError.
Proof.
  split.
  - apply (load_users_raises_on_other_shapes Json.loads _ "[1, 2]" (PList [PInt 1; PInt 2]));
      [reflexivity | vm_compute; reflexivity | left; reflexivity].
  - apply (load_users_raises_on_other_shapes Json.loads _
             (Json.dumps (PDict [("carl", PNone)])) (PDict [("carl", PNone)]));
      [reflexivity | vm_compute; reflexivity | ].
    right. exists [("carl", PNone)], "carl", PNone.
    split; [reflexivity | split; [reflexivity | intros []]].
Defined.

Lemma load_trips_fills_fields_witness :
  exists data,
    load_trips Json.loads (mkfiles None (Some (Json.dumps (PDict sparse_trips))))
    = Ok (PDict data) /\
    map fst data = ["ana"; "ben"].
Proof.
  destruct (load_trips_fills_fields Json.loads
              (mkfiles None (Some (Json.dumps (PDict sparse_trips))))
              (Json.dumps (PDict sparse_trips)) sparse_trips)
    as (data & Hrun & Hkeys & _).
  - reflexivity.
  - vm_compute. reflexivity.
  - split.
    + repeat constructor; cbn; intuition discriminate.
    + intros k v [E | [E | []]]; inversion E.
      * exists [[("destination", PStr "Rome")]; []]. reflexivity.
      * exists []. reflexivity.
  - exists data. split; [exact Hrun | exact Hkeys].
Defined.

Lemma load_trips_raises_on_bad_entry_witness :
  load_trips Json.loads
    (mkfiles None (Some (Json.dumps (PDict [("ben", PList []); ("carl", PNone)]))))
  = Raise TypeError.
Proof.
  apply (load_trips_raises_on_bad_entry Json.loads _
           (Json.dumps (PDict [("ben", PList []); ("carl", PNone)]))
           [("ben", PList [])] [] "carl" PNone).
  - reflexivity.
  - vm_compute. reflexivity.
  - split.
    + repeat constructor. intros [].
    + intros k v [E | []]. inversion E. exists []. reflexivity.
  - exact I.
Defined.

End LoadFacts.

(** ** Badges and the Home page *)

Module BadgeMoreFacts.

Import Badges BadgeFacts Home.

(** The level index of a badge. *)
Lemma level_index_bands (n : Z) :
  snd (fst (get_user_badge n)) =
  if n <? 1 then 0 else if n <? 3 then 1 else if n <? 6 then 2 else if n <? 10 then 3 else 4.
Proof.
  destruct (get_user_badge_bands n) as (B0 & B1 & B2 & B3 & B4).
  destruct (Z.ltb_spec n 1); [rewrite B0 by lia; reflexivity | ].
  destruct (Z.ltb_spec n 3); [rewrite B1 by lia; reflexivity | ].
  destruct (Z.ltb_spec n 6); [rewrite B2 by lia; reflexivity | ].
  destruct (Z.ltb_spec n 10); [rewrite B3 by lia; reflexivity | ].
  rewrite B4 by lia; reflexivity.
Qed.

(** X6: logging more trips never lowers the badge: the level index of
    [get_user_badge] grows with the trip count, and it stays within 0..4. *)
Theorem level_index_monotone (m n : Z) :
  m <= n ->
  snd (fst (get_user_badge m)) <= snd (fst (get_user_badge n)) /\
  0 <= snd (fst (get_user_badge m)) <= 4.
Proof.
  intros H. rewrite !level_index_bands.
  repeat match goal with
         | |- context [?a <? ?b] => destruct (Z.ltb_spec a b)
         end; lia.
Qed.

Lemma level_index_monotone_witness :
  snd (fst (get_user_badge 2)) <= snd (fst (get_user_badge 7)).
Proof.
  apply (level_index_monotone 2 7). lia.
Defined.

(** Below the threshold [t] of the next badge, the card shows [t - n]. *)
Lemma progress_below (n t level : Z) (name : string) :
  get_user_badge n = (name, level, Some t) -> n < t ->
  next_badge_progress n = Some (t - n).
Proof.
  intros E H. unfold next_badge_progress, remaining. rewrite E.
  rewrite Z.max_r by lia. reflexivity.
Qed.

(** The thresholds of the tiers. *)
Lemma tier_thresholds (name : string) (t : Z) :
  In (name, t) tiers -> t = 0 \/ t = 1 \/ t = 3 \/ t = 6 \/ t = 10.
Proof.
  unfold tiers. cbn [In]. intros H.
  repeat (destruct H as [H | H]; [inversion H; lia | ]). destruct H.
Qed.

(** X7: on the Home page, a user with 0 to 9 trips is shown "r to go",
    where [n + r] is the least threshold of a tier above the trip count
    [n], so that [r] is between 1 and 4 and that many more trips put the
    badge one level up; the [max] with 0 never takes effect. From 10 trips
    on there is no next threshold: the card shows "Maxed" and [remaining]
    is 0. *)
Theorem next_badge_progress_exact (n : Z) :
  0 <= n ->
  (n < 10 ->
   exists r,
     next_badge_progress n = Some r /\
     1 <= r <= 4 /\
     snd (get_user_badge n) = Some (n + r) /\
     (exists name, In (name, n + r) tiers) /\
     (forall name t, In (name, t) tiers -> n < t -> n + r <= t) /\
     snd (fst (get_user_badge (n + r))) = snd (fst (get_user_badge n)) + 1) /\
  (10 <= n ->
   next_badge_progress n = None /\
   snd (get_user_badge n) = None /\
   remaining (snd (get_user_badge n)) n = 0).
Proof.
  intros Hn. destruct (get_user_badge_bands n) as (B0 & B1 & B2 & B3 & B4). split.
  - intros Hlt.
    assert (T : exists t name level name',
               get_user_badge n = (name, level, Some t) /\ n < t <= n + 4 /\
               In (name', t) tiers /\
               (forall name2 t2, In (name2, t2) tiers -> n < t2 -> t <= t2) /\
               snd (fst (get_user_badge t)) = level + 1).
    { destruct (Z_lt_le_dec n 1);
        [exists 1, "New Traveler", 0, "Explorer" | destruct (Z_lt_le_dec n 3);
        [exists 3, "Explorer", 1, "Adventurer" | destruct (Z_lt_le_dec n 6);
        [exists 6, "Adventurer", 2, "Globetrotter"
        | exists 10, "Globetrotter", 3, "World Citizen"]]];
        (split; [auto with zarith | split; [lia | split; [cbn; tauto | split; [ | reflexivity]]]]);
        intros name2 t2 Hin Ht; apply tier_thresholds in Hin; lia. }
    destruct T as (t & name & level & name' & E & Ht & Hin & Hleast & Hlevel).
    exists (t - n). replace (n + (t - n)) with t by lia.
    rewrite (progress_below n t level name E) by lia. rewrite E. cbn [fst snd].
    repeat split; try lia; try assumption.
    exists name'. exact Hin.
  - intros Hge. unfold next_badge_progress, remaining. rewrite B4 by lia.
    repeat split.
Qed.

Lemma next_badge_progress_exact_witness :
  exists r,
    next_badge_progress 4 = Some r /\
    1 <= r <= 4 /\
    snd (get_user_badge 4) = Some (4 + r) /\
    (exists name, In (name, 4 + r) tiers) /\
    (forall name t, In (name, t) tiers -> 4 < t -> 4 + r <= t) /\
    snd (fst (get_user_badge (4 + r))) = snd (fst (get_user_badge 4)) + 1.
Proof.
  apply (next_badge_progress_exact 4); lia.
Defined.

End BadgeMoreFacts.

(** ** The coordinate fallback and letter case *)

Module GeoMoreFacts.

Import Str Geo StrSpec StrFacts.

Lemma is_space_lower_char (c : ascii) : is_space (lower_char c) = is_space c.
Proof. destruct c as [[] [] [] [] [] [] [] []]; reflexivity. Qed.

Lemma lower_char_idempotent (c : ascii) : lower_char (lower_char c) = lower_char c.
Proof. destruct c as [[] [] [] [] [] [] [] []]; reflexivity. Qed.

Lemma lower_idempotent (s : string) : lower (lower s) = lower s.
Proof.
  induction s as [| c s IH]; cbn; [reflexivity | ].
  rewrite lower_char_idempotent, IH. reflexivity.
Qed.




















End GeoMoreFacts.

(** ** Chatbot *)

Module ChatbotFacts.

Import Str StrSpec StrFacts Chatbot.

Lemma first_response_None (items : list (string * string)) (text : string) :
  first_response items text = None <->
  forall k a, In (k, a) items -> ~ occurs k text.
Proof.
  induction items as [| [k0 a0] items IH]; cbn [first_response].
  - split; [intros _ ? ? [] | reflexivity].
  - destruct (contains text k0) eqn:C.
    + split; [discriminate | ].
      intros H. exfalso. apply (H k0 a0 (or_introl eq_refl)).
      apply contains_occurs. exact C.
    + rewrite IH. split.
      * intros H k a [E | Hin]; [inversion E; subst; apply contains_not_occurs; exact C | eauto].
      * intros H k a Hin. apply (H k a). right. exact Hin.
Qed.

Lemma first_response_in (items : list (string * string)) (text answer : string) :
  first_response items text = Some answer -> exists k, In (k, answer) items.
Proof.
  induction items as [| [k0 a0] items IH]; cbn [first_response]; [discriminate | ].
  destruct (contains text k0).
  - intros E. inversion E. subst. exists k0. left. reflexivity.
  - intros E. destruct (IH E) as [k Hk]. exists k. right. exact Hk.
Qed.

(** X9: the chatbot ignores letter case; it answers with the fallback
    sentence exactly when none of its four keywords occurs in the
    lower-cased message; and a message in which "hello" occurs gets the
    greeting, whatever other keywords it holds. *)
Theorem chatbot_keywords (user_input other : string) :
  lower other = lower user_input ->
  chatbot_response other = chatbot_response user_input /\
  (chatbot_response user_input = default_response <->
   forall k a, In (k, a) responses -> ~ occurs k (lower user_input)) /\
  (occurs "hello" (lower user_input) ->
   chatbot_response user_input = "Hello! Welcome to TravelViz. How can I help you today?").
Proof.
  intros Hcase. unfold chatbot_response. split; [rewrite Hcase; reflexivity | split].
  - rewrite <- first_response_None.
    destruct (first_response responses (lower user_input)) as [answer | ] eqn:E.
    + split; [ | discriminate]. intros Hd. exfalso.
      destruct (first_response_in _ _ _ E) as [k Hin]. subst answer.
      cbn in Hin. repeat (destruct Hin as [Hin | Hin]; [discriminate Hin | ]). exact Hin.
    + split; reflexivity.
  - intros Hocc. apply contains_occurs in Hocc. cbn [responses first_response].
    rewrite Hocc. reflexivity.
Qed.

Lemma chatbot_keywords_witness :
  chatbot_response "HELLO there, bye" = chatbot_response "Hello There, Bye".
Proof.
  exact (proj1 (chatbot_keywords "Hello There, Bye" "HELLO there, bye" eq_refl)).
Defined.

End ChatbotFacts.

(** ** Map rows *)

Module MapFacts.

Import Obj MapPage ReminderSpec PageSpec.

Lemma get_field (t : dict) (k : string) (default : value) :
  get (PDict t) k default = Ok (field t k default).
Proof. reflexivity. Qed.




(** X11: when a trip record lacks a coordinate (missing or [null]) and its
    destination is a string, the fallback alone decides: the trip is on
    the map exactly when the fallback knows the destination, and then at
    the fallback's coordinates; a single coordinate the record has is not
    used. When the record has both coordinates as floats, the row is at
    these, and the destination is not consulted. *)
Theorem map_row_coordinates (t : dict) :
  (forall s,
      field t "destination" (PStr "") = PStr s ->
      is_none (field t "lat" PNone) = true \/ is_none (field t "lon" PNone) = true ->
      map_row_of (PDict t)
      = Ok (match Geo.fallback_coords_for_destination s with
            | Some (la, lo) =>
                Some (mkmap_row (PStr s) la lo (field t "start_date" (PStr "")))
            | None => None
            end)) /\
  (forall a b,
      field t "lat" PNone = PFloat a -> field t "lon" PNone = PFloat b ->
      map_row_of (PDict t)
      = Ok (Some (mkmap_row (field t "destination" (PStr "")) a b
                    (field t "start_date" (PStr ""))))).
Proof.
  split.
  - intros s Hs Hmiss. unfold map_row_of. rewrite !get_field, Hs. cbn [bind fallback_of].
    assert (M : is_none (field t "lat" PNone) || is_none (field t "lon" PNone) = true)
      by (destruct Hmiss as [-> | ->]; [reflexivity | apply orb_true_r]).
    rewrite M.
    destruct (Geo.fallback_coords_for_destination s) as [[la lo] | ]; cbn [bind fst snd].
    + reflexivity.
    + unfold floats_or_none, float_or_none.
      destruct Hmiss as [E | E].
      * rewrite E. cbn [bind].
        destruct (is_none (field t "lon" PNone)); cbn [bind]; [reflexivity | ].
        destruct (Float.float_ (field t "lon" PNone)); reflexivity.
      * rewrite E.
        destruct (is_none (field t "lat" PNone)); cbn [bind]; [reflexivity | ].
        destruct (Float.float_ (field t "lat" PNone)); reflexivity.
  - intros a b Ha Hb. unfold map_row_of. rewrite !get_field, Ha, Hb. reflexivity.
Qed.

Lemma map_row_coordinates_witness :
  map_row_of (PDict [("destination", PStr "Paris"); ("lat", PFloat 1.5)])
  = Ok (Some (mkmap_row (PStr "Paris") 48.85 2.35 (PStr ""))).
Proof.
  exact (proj1 (map_row_coordinates [("destination", PStr "Paris"); ("lat", PFloat 1.5)])
           "Paris" eq_refl (or_intror eq_refl)).
Defined.

End MapFacts.

(** ** Most visited destination *)

Module StatsFacts.

Import Obj Stats StrSpec ReminderSpec PageSpec.

Lemma count_of_incr (k d : string) (counts : list (string * Z)) :
  count_of k (count_incr d counts)
  = count_of k counts + (if String.eqb k d then 1 else 0).
Proof.
  induction counts as [| [k' n] counts IH]; cbn [count_incr count_of].
  - destruct (String.eqb k d); reflexivity.
  - destruct (String.eqb d k') eqn:E; cbn [count_of].
    + apply String.eqb_eq in E. subst k'. destruct (String.eqb k d); lia.
    + destruct (String.eqb k k') eqn:E'; [ | exact IH].
      apply String.eqb_eq in E'. subst k'.
      rewrite String.eqb_sym, E. lia.
Qed.

(** The keys after one more destination: a new one goes last. *)
Lemma keys_incr (d : string) (counts : list (string * Z)) :
  map fst (count_incr d counts)
  = if existsb (String.eqb d) (map fst counts) then map fst counts else map fst counts ++ [d].
Proof.
  induction counts as [| [k' n] counts IH]; cbn [count_incr map existsb fst app]; [reflexivity | ].
  destruct (String.eqb d k'); cbn [map fst orb]; [reflexivity | ].
  rewrite IH. destruct (existsb (String.eqb d) (map fst counts)); reflexivity.
Qed.

Lemma tally_snoc (ds : list string) (d : string) :
  tally (ds ++ [d]) = count_incr d (tally ds).
Proof. unfold tally. rewrite fold_left_app. reflexivity. Qed.

Lemma times_snoc (k d : string) (ds : list string) :
  times k (ds ++ [d]) = times k ds + (if String.eqb k d then 1 else 0).
Proof.
  unfold times. rewrite count_occ_app. cbn [count_occ].
  destruct (string_dec d k) as [-> | Hne].
  - rewrite String.eqb_refl. lia.
  - destruct (String.eqb k d) eqn:E; [apply String.eqb_eq in E; congruence | lia].
Qed.

Lemma count_of_tally (k : string) (ds : list string) :
  count_of k (tally ds) = times k ds.
Proof.
  induction ds as [| d ds IH] using rev_ind; [reflexivity | ].
  rewrite tally_snoc, count_of_incr, times_snoc, IH. reflexivity.
Qed.

Lemma existsb_eqb_iff (d : string) (ks : list string) :
  existsb (String.eqb d) ks = true <-> In d ks.
Proof.
  rewrite existsb_exists. split.
  - intros (x & Hin & E). apply String.eqb_eq in E. subst x. exact Hin.
  - intros Hin. exists d. split; [exact Hin | apply String.eqb_refl].
Qed.

(** The keys of the counts are the destinations met, without repeats and
    in the order they were first met: what is met before the first [k] is
    among the keys before [k]. *)
Lemma tally_keys (ds : list string) :
  NoDup (map fst (tally ds)) /\
  (forall x, In x (map fst (tally ds)) <-> In x ds) /\
  (forall a k b, map fst (tally ds) = a ++ k :: b ->
                 exists l1 l2, ds = l1 ++ k :: l2 /\ forall x, In x l1 -> In x a).
Proof.
  induction ds as [| d ds (Hnd & Hin & Hord)] using rev_ind.
  - cbn. split; [constructor | split; [tauto | ]].
    intros a k b H. destruct a; discriminate.
  - rewrite tally_snoc, keys_incr.
    destruct (existsb (String.eqb d) (map fst (tally ds))) eqn:E.
    + apply existsb_eqb_iff in E. split; [exact Hnd | split].
      * intros x. rewrite Hin, in_app_iff. cbn. split; [tauto | ].
        intros [H | [<- | []]]; [exact H | apply Hin; exact E].
      * intros a k b H. destruct (Hord a k b H) as (l1 & l2 & -> & Hl).
        exists l1, (l2 ++ [d]). split; [rewrite <- app_assoc; reflexivity | exact Hl].
    + assert (Hnot : ~ In d (map fst (tally ds))).
      { intros H. apply existsb_eqb_iff in H. congruence. }
      split; [ | split].
      * apply NoDup_app; [exact Hnd | repeat constructor; intros [] | ].
        intros x Hx [<- | []]. contradiction.
      * intros x. rewrite !in_app_iff, Hin. reflexivity.
      * intros a k b H.
        destruct b as [| y b] using rev_ind.
        -- assert (map fst (tally ds) = a /\ d = k) as [Ha <-].
           { change (a ++ [k]) with (a ++ [k]) in H. apply app_inj_tail in H. exact H. }
           exists ds, []. split; [reflexivity | ].
           intros x Hx. rewrite <- Ha. apply Hin. exact Hx.
        -- clear IHb. rewrite app_comm_cons, app_assoc in H.
           apply app_inj_tail in H. destruct H as [H _].
           destruct (Hord a k b H) as (l1 & l2 & -> & Hl).
           exists l1, (l2 ++ [d]). split; [rewrite <- app_assoc; reflexivity | exact Hl].
Qed.

(** With distinct keys, an item holds the count of its key. *)
Lemma count_of_in (k : string) (n : Z) (counts : list (string * Z)) :
  NoDup (map fst counts) -> In (k, n) counts -> count_of k counts = n.
Proof.
  induction counts as [| [k' n'] counts IH]; cbn [map fst count_of]; [intros _ [] | ].
  intros Hnd [E | Hin].
  - inversion E. subst. rewrite String.eqb_refl. reflexivity.
  - inversion Hnd as [| ? ? Hnotin Hnd']; subst.
    destruct (String.eqb k k') eqn:E.
    + apply String.eqb_eq in E. subst k'. exfalso. apply Hnotin.
      apply (in_map fst) in Hin. exact Hin.
    + apply IH; assumption.
Qed.

(** [max] returns the first of the items with the greatest count. *)
Lemma max_by_count_first (items : list (string * Z)) (best : string * Z) :
  (forall x, In x (best :: items) -> snd x <= snd (max_by_count items best)) /\
  exists a b,
    best :: items = a ++ max_by_count items best :: b /\
    forall x, In x a -> snd x < snd (max_by_count items best).
Proof.
  revert best. induction items as [| item items IH]; intros best; cbn [max_by_count].
  - split.
    + intros x [<- | []]. lia.
    + exists [], []. split; [reflexivity | intros x []].
  - destruct (Z.ltb_spec (snd best) (snd item)) as [Hlt | Hge].
    + destruct (IH item) as (Hmax & a & b & Hdec & Ha).
      split.
      * intros x [<- | Hx]; [ | apply Hmax; exact Hx].
        specialize (Hmax item (or_introl eq_refl)). lia.
      * exists (best :: a), b. split; [cbn; rewrite Hdec; reflexivity | ].
        intros x [<- | Hx]; [ | apply Ha; exact Hx].
        specialize (Hmax item (or_introl eq_refl)). lia.
    + destruct (IH best) as (Hmax & a & b & Hdec & Ha).
      split.
      * intros x [<- | [<- | Hx]].
        -- apply Hmax. left. reflexivity.
        -- specialize (Hmax best (or_introl eq_refl)). lia.
        -- apply Hmax. right. exact Hx.
      * destruct a as [| a0 a].
        -- cbn in Hdec. injection Hdec as Hb Hi.
           exists [], (item :: items). split; [cbn; f_equal; exact Hb | intros x []].
        -- cbn in Hdec. injection Hdec as Hb Hi. subst a0.
           exists (best :: item :: a), b. split; [cbn; do 2 f_equal; exact Hi | ].
           assert (Hbest : snd best < snd (max_by_count items best))
             by (apply Ha; left; reflexivity).
           intros x [<- | [<- | Hx]]; [exact Hbest | lia | apply Ha; right; exact Hx].
Qed.

(** The loop over records with text destinations counts them. *)
Lemma dest_loop_tally (ts : list dict) (counts : list (string * Z)) :
  Forall has_text_destination ts ->
  dest_loop (map PDict ts) counts
  = Ok (fold_left (fun c d => count_incr d c) (map dest_of ts) counts).
Proof.
  intros H. revert counts. induction H as [| t ts [s Hs] Hts IH]; intros counts; cbn [map dest_loop fold_left].
  - reflexivity.
  - assert (D : dest_of t = Str.strip s) by (unfold dest_of; rewrite Hs; reflexivity).
    rewrite D. cbn [get bind]. fold (field t "destination" (PStr "")).
    rewrite Hs. apply IH.
Qed.

(** The card shows the first of the most frequent trimmed destinations. *)
Lemma most_visited_first_of_maxima (ts : list dict) :
  Forall has_text_destination ts ->
  exists r,
    most_visited (map PDict ts) = Ok r /\
    (ts = [] -> r = placeholder) /\
    (ts <> [] ->
     In r (map dest_of ts) /\
     (forall s, times s (map dest_of ts) <= times r (map dest_of ts)) /\
     (forall s, s <> r -> times s (map dest_of ts) = times r (map dest_of ts) ->
                first_before r s (map dest_of ts))).
Proof.
  intros H. unfold most_visited. rewrite (dest_loop_tally ts [] H). cbn [bind].
  fold (tally (map dest_of ts)).
  destruct (tally_keys (map dest_of ts)) as (Hnd & Hin & Hord).
  pose proof (count_of_tally) as Hcount.
  destruct (tally (map dest_of ts)) as [| first rest] eqn:T.
  - exists placeholder. split; [reflexivity | split; [reflexivity | ]].
    intros Hne. exfalso. destruct ts as [| t ts]; [congruence | ].
    apply (Hin (dest_of t)). left. reflexivity.
  - destruct (max_by_count_first rest first) as (Hmax & a & b & Hdec & Ha).
    set (r := max_by_count rest first) in *.
    exists (fst r). split; [reflexivity | split].
    + intros ->. cbn in T. discriminate.
    + intros _.
      assert (Hr : In r (first :: rest)) by (rewrite Hdec; apply in_elt).
      assert (Cr : times (fst r) (map dest_of ts) = snd r).
      { rewrite <- Hcount, T. apply count_of_in; [exact Hnd | ].
        destruct r; exact Hr. }
      assert (Cx : forall x, In x (first :: rest) -> times (fst x) (map dest_of ts) = snd x).
      { intros x Hx. rewrite <- Hcount, T. apply count_of_in; [exact Hnd | ].
        destruct x; exact Hx. }
      split; [ | split].
      * apply Hin. apply (in_map fst) in Hr. exact Hr.
      * intros s. destruct (in_dec string_dec s (map dest_of ts)) as [Hs | Hs].
        -- apply Hin in Hs. apply in_map_iff in Hs. destruct Hs as (x & <- & Hx).
           rewrite (Cx x Hx), Cr. apply Hmax. exact Hx.
        -- unfold times at 1. rewrite (proj1 (count_occ_not_In string_dec _ _) Hs).
           rewrite Cr. specialize (Hmax first (or_introl eq_refl)).
           assert (0 <= times (fst first) (map dest_of ts)) by (unfold times; lia).
           rewrite (Cx first (or_introl eq_refl)) in *. cbn. lia.
      * intros s Hne Htie.
        assert (Hkeys : map fst (first :: rest) = map fst a ++ fst r :: map fst b)
          by (rewrite Hdec, map_app; reflexivity).
        destruct (Hord _ _ _ Hkeys) as (l1 & l2 & Hds & Hl1).
        exists l1, l2. split; [exact Hds | ].
        intros Hs. apply Hl1 in Hs. apply in_map_iff in Hs.
        destruct Hs as (x & Hfx & Hx).
        assert (Hxin : In x (first :: rest)) by (rewrite Hdec; apply in_or_app; left; exact Hx).
        specialize (Ha x Hx). rewrite <- (Cx x Hxin), Hfx, Htie, Cr in Ha. lia.
Qed.

(** The trimmed destination of a record is its destination without the
    whitespace at its two ends. *)
Lemma dest_of_trimmed (t : dict) (text : string) :
  field t "destination" (PStr "") = PStr text ->
  exists a b,
    text = (a ++ dest_of t ++ b)%string /\ blank a /\ blank b /\ trimmed (dest_of t).
Proof.
  intros E. unfold dest_of. rewrite E. apply StrFacts.strip_spec.
Qed.

(** X12: for trip records whose destinations are strings (or missing), the
    "Most Visited" card is computed without an exception. Without trips it
    shows the placeholder; otherwise it shows a trimmed destination that no
    other occurs more often than, and among those that occur as often, the
    one the list of trips reaches first. The trimmed destination of a
    record is what is left of its destination between a run of whitespace
    characters at its start and one at its end, and neither starts nor ends
    with a whitespace character. *)
Theorem most_visited_is_first_maximum (ts : list dict) :
  Forall has_text_destination ts ->
  exists r,
    most_visited (map PDict ts) = Ok r /\
    (ts = [] -> r = placeholder) /\
    (ts <> [] ->
     In r (map dest_of ts) /\
     (forall s, times s (map dest_of ts) <= times r (map dest_of ts)) /\
     (forall s, s <> r -> times s (map dest_of ts) = times r (map dest_of ts) ->
                first_before r s (map dest_of ts))) /\
    (forall t text,
       field t "destination" (PStr "") = PStr text ->
       exists a b,
         text = (a ++ dest_of t ++ b)%string /\ blank a /\ blank b /\
         trimmed (dest_of t)).
Proof.
  intros H. destruct (most_visited_first_of_maxima ts H) as (r & Hrun & Hnil & Hcons).
  exists r. repeat split; try assumption; try (apply Hcons; assumption).
  intros t text. apply dest_of_trimmed.
Qed.

Lemma most_visited_is_first_maximum_witness :
  exists r,
    most_visited (map PDict [ [("destination", PStr "Tokyo")];
                              [("destination", PStr " Paris")];
                              [("destination", PStr "Paris ")] ])
    = Ok r /\ r = "Paris".
Proof.
  destruct (most_visited_is_first_maximum
              [ [("destination", PStr "Tokyo")];
                [("destination", PStr " Paris")];
                [("destination", PStr "Paris ")] ])
    as (r & Hrun & _).
  - repeat constructor; eexists; reflexivity.
  - exists r. split; [exact Hrun | ].
    vm_compute in Hrun. inversion Hrun. reflexivity.
Defined.

End StatsFacts.

(** ** Upcoming trips *)

Module UpcomingFacts.

Import Obj Datetime Reminders DateSpec DateFacts ReminderSpec PageSpec Home.

(** [parse_date_str] returns valid dates only. *)
Lemma parse_date_str_valid (v : value) (d : date) :
  parse_date_str v = Some d -> valid_date d.
Proof.
  intros P. destruct (parse_text v d P) as [text ->].
  apply parse_reads in P. destruct P as (ty & tm & td & _ & _ & _ & _ & V). exact V.
Qed.

(** On days of the calendar the comparison of the fields is the comparison
    of the ordinals. *)
Lemma date_ge_ordinal (a b : date) :
  calendar_date a -> calendar_date b ->
  date_ge a b = true <-> toordinal b <= toordinal a.
Proof.
  intros Ca Cb. rewrite (toordinal_order a b Ca Cb). unfold date_ge.
  destruct (Z.eqb_spec (year a) (year b)) as [Ey | Ny].
  - destruct (Z.eqb_spec (month a) (month b)) as [Em | Nm].
    + rewrite Z.leb_le. lia.
    + rewrite Z.ltb_lt. lia.
  - rewrite Z.ltb_lt. lia.
Qed.

(** A trip starts today or later when its start date reads as a day that
    is some number of days after today. *)
Lemma starts_on_or_after_later (today : date) (t : dict) :
  valid_date today ->
  starts_on_or_after today t = true <->
  exists text d n,
    field t "start_date" (PStr "") = PStr text /\ reads_as text d /\ d = days_later n today.
Proof.
  intros [Ct _]. unfold starts_on_or_after. split.
  - destruct (parse_date_str (field t "start_date" (PStr ""))) as [d | ] eqn:P;
      [ | discriminate].
    intros H. apply Z.leb_le in H.
    destruct (parse_text _ d P) as [text E]. rewrite E in P.
    apply parse_reads in P.
    assert (Cd : calendar_date d).
    { destruct P as (ty & tm & td & _ & _ & _ & _ & V). apply V. }
    exists text, d, (Z.to_nat (toordinal d - toordinal today)).
    split; [exact E | split; [exact P | ]].
    apply (days_between_later d today _ Cd Ct). unfold days_between. lia.
  - intros (text & d & n & E & R & Hd).
    rewrite E. rewrite (proj2 (parse_reads text d) R). apply Z.leb_le.
    subst d. rewrite (toordinal_days_later n today Ct). lia.
Qed.

(** The counting loop on a list of records. *)
Lemma upcoming_loop_counts (today : date) (ts : list dict) (n : Z) :
  valid_date today ->
  upcoming_loop today (map PDict ts) n
  = Ok (n + Z.of_nat (List.length (filter (starts_on_or_after today) ts))).
Proof.
  intros V. revert n. induction ts as [| t ts IH]; intros n; cbn [map upcoming_loop filter].
  - cbn. f_equal. lia.
  - cbn [get bind]. fold (field t "start_date" (PStr "")). unfold starts_on_or_after at 1.
    destruct (parse_date_str (field t "start_date" (PStr ""))) as [d | ] eqn:P; [ | apply IH].
    pose proof (date_ge_ordinal d today (proj1 (parse_date_str_valid _ _ P)) (proj1 V)) as G.
    destruct (date_ge d today).
    + destruct (Z.leb_spec (toordinal today) (toordinal d)) as [ | Hlt];
        [ | exfalso; pose proof (proj1 G eq_refl); lia].
      rewrite IH. cbn [List.length]. f_equal. lia.
    + destruct (Z.leb_spec (toordinal today) (toordinal d)) as [Hle | ];
        [pose proof (proj2 G Hle); discriminate | apply IH].
Qed.

(** A trip that is due a reminder starts today or later. *)
Lemma due_starts_on_or_after (today : date) (t : dict) (r : toast) :
  due today t = Some r -> starts_on_or_after today t = true.
Proof.
  unfold due, days_until_start, starts_on_or_after, days_between.
  destruct (parse_date_str (field t "start_date" (PStr ""))) as [d | ]; [ | discriminate].
  destruct (Z.leb_spec 0 (toordinal d - toordinal today)); cbn [andb]; [ | discriminate].
  intros _. apply Z.leb_le. lia.
Qed.

Lemma select_le_upcoming (today : date) (ts : list dict) :
  (List.length (select today ts) <= List.length (filter (starts_on_or_after today) ts))%nat.
Proof.
  induction ts as [| t ts IH]; cbn [select filter]; [apply Nat.le_refl | ].
  destruct (due today t) as [r | ] eqn:D.
  - rewrite (due_starts_on_or_after today t r D). cbn. apply le_n_S. exact IH.
  - destruct (starts_on_or_after today t); cbn; [apply Nat.le_trans with (1 := IH) | exact IH].
    apply Nat.le_succ_diag_r.
Qed.

(** X13: on the Home page, for a list of trip records, the "Upcoming Trips"
    number is computed without an exception and is the number of trips
    whose start date parses and is today or later: a trip is counted
    exactly when its start date is a text that reads as a date of the
    calendar, by the format [%Y-%m-%d], which lies some number of days,
    zero included, after today. The number is at most the number of trips,
    and at least the number of reminders [trigger_reminders] shows for the
    same trips on the same day. *)
Theorem upcoming_count_counts (today : date) (ts : list dict) :
  valid_date today ->
  upcoming_count today (map PDict ts)
  = Ok (Z.of_nat (List.length (filter (starts_on_or_after today) ts))) /\
  (forall t,
     starts_on_or_after today t = true <->
     exists text d n,
       field t "start_date" (PStr "") = PStr text /\ reads_as text d /\
       d = days_later n today) /\
  (List.length (filter (starts_on_or_after today) ts) <= List.length ts)%nat /\
  (List.length (select today ts) <= List.length (filter (starts_on_or_after today) ts))%nat /\
  (forall shown,
     shows today ts shown ->
     (List.length shown <= List.length (filter (starts_on_or_after today) ts))%nat).
Proof.
  intros V. split; [ | split; [ | split; [ | split]]].
  - unfold upcoming_count. rewrite (upcoming_loop_counts today ts 0 V). reflexivity.
  - intros t. apply starts_on_or_after_later. exact V.
  - apply filter_length_le.
  - apply select_le_upcoming.
  - intros shown H. rewrite (ReminderFacts.shows_select today ts shown V H).
    apply select_le_upcoming.
Qed.

Lemma upcoming_count_counts_witness :
  upcoming_count (mkdate 2025 6 1)
    (map PDict [trip "Rome" "2025-06-03"; trip "Oslo" "2025-05-10"; trip "Lima" "2026-01-01"])
  = Ok 2.
Proof.
  assert (V : valid_date (mkdate 2025 6 1)) by (vm_compute; intuition discriminate).
  exact (proj1 (upcoming_count_counts (mkdate 2025 6 1)
           [trip "Rome" "2025-06-03"; trip "Oslo" "2025-05-10"; trip "Lima" "2026-01-01"] V)).
Defined.

End UpcomingFacts.

(** ** Total expenses on float amounts *)

Module ExpenseFacts.

Import Obj Insights InsightsSpec ReminderSpec PageSpec.

(** A float amount counts for itself, a zero for [0.0]. *)
Lemma amount_of_float (e : dict) (x : float) :
  priced e x -> amount_of (PDict e) = Ok (counted x).
Proof.
  unfold priced, amount_of, counted, or_. intros H. cbn [get bind]. rewrite H.
  cbn [truthy]. destruct (PrimFloat.eqb x 0); cbn [negb]; [vm_compute | ]; reflexivity.
Qed.

Lemma fold_add_snoc (xs : list float) (x acc : float) :
  fold_left PrimFloat.add (xs ++ [x]) acc = PrimFloat.add (fold_left PrimFloat.add xs acc) x.
Proof. rewrite fold_left_app. reflexivity. Qed.

(** The loop over the expenses of one trip. *)
Lemma expense_loop_priced (name : value) (d : Datetime.date) (es : list dict)
    (xs : list float) :
  Forall2 priced es xs ->
  forall (acc : float) (rows : list expense_row),
  exists more,
    expense_loop name d (map PDict es) acc rows
    = Ok (fold_left PrimFloat.add (map counted xs) acc, rows ++ more) /\
    map row_amount more = map counted xs.
Proof.
  induction 1 as [| e x es xs He Hes IH]; intros acc rows.
  - exists []. cbn. rewrite app_nil_r. split; reflexivity.
  - cbn [map expense_loop].
    pose proof (amount_of_float e x He) as A. unfold amount_of in A.
    cbn [get bind] in A |- *. rewrite A. cbn [bind].
    destruct (IH (PrimFloat.add acc (counted x))
                 (rows ++ [mkrow name d (match dict_get "category" e with
                                         | Some v => v | None => PStr "" end) (counted x)]))
      as [more [E M]].
    eexists. rewrite E. rewrite <- app_assoc. split; [reflexivity | ].
    cbn. rewrite M. reflexivity.
Qed.

(** The loop over the trips. *)
Lemma trip_loop_priced (today : Datetime.date) (ts : list dict) (ams : list (list float)) :
  Forall2 priced_trip ts ams ->
  forall (acc : float) (rows : list expense_row),
  exists more,
    trip_loop today (map PDict ts) acc rows
    = Ok (fold_left PrimFloat.add (map (fun xs => running_sum (map counted xs)) ams) acc,
          rows ++ more) /\
    map row_amount more = map counted (List.concat ams).
Proof.
  induction 1 as [| t xs ts ams Ht Hts IH]; intros acc rows.
  - exists []. cbn. rewrite app_nil_r. split; reflexivity.
  - destruct Ht as [es [Hes Hp]].
    cbn [map trip_loop get bind]. rewrite Hes. cbn [iter bind].
    destruct (expense_loop_priced
                (match dict_get "destination" t with Some v => v | None => PStr "(unknown)" end)
                (match Reminders.parse_date_str
                         (match dict_get "start_date" t with Some v => v | None => PStr "" end)
                 with Some d => d | None => today end)
                es xs Hp 0%float rows) as [m1 [E1 M1]].
    rewrite E1. cbn [bind].
    destruct (IH (PrimFloat.add acc (running_sum (map counted xs))) (rows ++ m1))
      as [m2 [E2 M2]].
    exists (m1 ++ m2). unfold running_sum in *. rewrite E2, <- app_assoc.
    split; [reflexivity | ].
    cbn [List.concat]. rewrite !map_app, M1, M2. reflexivity.
Qed.

(** X14: when the user's trips are records whose expenses are records with
    float amounts, as the expense form stores them, the Insights
    accumulation ends without an exception. The total is the sum, trip after
    trip, of each trip's own running sum (a zero amount counting as 0.0),
    and there is one chart row per expense, in order, with that amount. *)
Theorem total_expenses_float_amounts (today : Datetime.date) (trips : dict)
    (username : string) (ts : list dict) (ams : list (list float)) :
  dict_get username trips = Some (PList (map PDict ts)) ->
  Forall2 priced_trip ts ams ->
  exists rows,
    total_expenses today (PDict trips) username
    = Ok (running_sum (map (fun xs => running_sum (map counted xs)) ams), rows) /\
    map row_amount rows = map counted (List.concat ams).
Proof.
  intros Hu Hts. unfold total_expenses. cbn [get bind]. rewrite Hu. cbn [iter bind].
  destruct (trip_loop_priced today ts ams Hts 0%float []) as [rows [E M]].
  exists rows. rewrite E. split; [reflexivity | exact M].
Qed.

Lemma total_expenses_float_amounts_witness :
  exists rows,
    total_expenses (Datetime.mkdate 2025 6 1) (PDict PersistenceSpec.sample_trips) "ana"
    = Ok (10.5%float, rows) /\
    map row_amount rows = [10.5%float].
Proof.
  apply (total_expenses_float_amounts (Datetime.mkdate 2025 6 1)
           PersistenceSpec.sample_trips "ana"
           [ [ ("destination", PStr "Rome");
               ("start_date", PStr "2025-06-03");
               ("end_date", PStr "2025-06-08");
               ("notes", PStr "");
               ("expenses",
                PList [ PDict [ ("category", PStr "Food");
                                ("description", PStr "dinner");
                                ("amount", PFloat 10.5) ] ]);
               ("checklist",
                PList [ PDict [ ("text", PStr "passport");
                                ("done", PBool false) ] ]);
               ("lat", PFloat 41.9);
               ("lon", PFloat 12.5) ] ]
           [ [10.5%float] ]).
  - reflexivity.
  - repeat constructor.
    exists [ [ ("category", PStr "Food"); ("description", PStr "dinner");
               ("amount", PFloat 10.5) ] ].
    split; [reflexivity | repeat constructor].
Defined.

End ExpenseFacts.

(** ** Sign Up, Login and the menu *)

Module SignUpFacts.

Import Obj Persistence Auth Sidebar SignUp DictFacts LoadSpec.

Lemma dict_set_in (k k0 : string) (v v0 : value) (d : dict) :
  In (k, v) (dict_set k0 v0 d) -> In (k, v) d \/ (k, v) = (k0, v0).
Proof.
  induction d as [| [k' v'] d IH]; cbn.
  - intros [E | []]. right. symmetry. exact E.
  - destruct (String.eqb k0 k') eqn:E.
    + apply String.eqb_eq in E. subst k'. intros [H | H].
      * right. symmetry. exact H.
      * left. right. exact H.
    + intros [H | H]; [left; left; exact H | ].
      destruct (IH H) as [H' | H']; [left; right; exact H' | right; exact H'].
Qed.

Lemma dict_get_set_absent (k k0 : string) (v v0 : value) (d : dict) :
  dict_mem k0 d = false -> dict_get k d = Some v -> dict_get k (dict_set k0 v0 d) = Some v.
Proof.
  intros M H. rewrite dict_get_set_other; [exact H | ].
  intros ->. unfold dict_mem in M. rewrite H in M. discriminate.
Qed.

Section Handler.

Variable crypt : string -> list string -> result string.
Variable json_dump : value -> string.

(** X15: whatever is entered, the Sign Up button never changes or removes
    an existing account. Either the mapping and the files are left as they
    were, or the handler ended without an exception, the username was new,
    neither entry was empty, and the file holds the extended mapping. *)
Theorem signup_keeps_accounts (salt : string) (profile_image : option (result unit))
    (users : dict) (new_user new_pass : string) (fs : files) :
  let '(users', fs', _, r) :=
    signup_button crypt json_dump salt profile_image users new_user new_pass fs in
  (forall k v, dict_get k users = Some v -> dict_get k users' = Some v) /\
  ((users' = users /\ fs' = fs) \/
   (r = Ok tt /\ dict_mem new_user users = false /\ new_user <> "" /\ new_pass <> "" /\
    USERS_FILE fs' = Some (json_dump (PDict users')) /\ TRIPS_FILE fs' = TRIPS_FILE fs)).
Proof.
  unfold signup_button.
  destruct (dict_mem new_user users) eqn:M; [split; [intros k v H; exact H | left; split; reflexivity] | ].
  destruct (String.eqb_spec new_user ""); cbn [orb];
    [split; [intros k v H; exact H | left; split; reflexivity] | ].
  destruct (String.eqb_spec new_pass ""); cbn [orb];
    [split; [intros k v H; exact H | left; split; reflexivity] | ].
  destruct (img_filename new_user profile_image) as [img | e];
    [ | split; [intros k v H; exact H | left; split; reflexivity]].
  destruct (hash_password crypt salt new_pass) as [hashed | e];
    [ | split; [intros k v H; exact H | left; split; reflexivity]].
  split.
  - intros k v H. apply dict_get_set_absent; assumption.
  - right. repeat split; assumption.
Qed.

(** X16: signing up and logging in compose. When the username is new, both
    entries are non-empty, the picture (if any) is saved, and bcrypt
    produces a hash and accepts it for the same password, the Sign Up button
    ends without an exception with a mapping that has the new account with
    all profile fields; on that mapping the Login button with the same
    entries opens a session for the username with the role "user", whose
    menu does not offer the Admin Panel. *)
Theorem signup_then_login (salt hashed : string) (profile_image : option (result unit))
    (img : value) (users : dict) (new_user new_pass : string) (fs : files)
    (today : Datetime.date) (trips : value) (s : session) :
  dict_mem new_user users = false ->
  new_user <> "" -> new_pass <> "" ->
  img_filename new_user profile_image = Ok img ->
  hash_password crypt salt new_pass = Ok hashed ->
  checkpw crypt new_pass hashed = Ok true ->
  loaded_users users ->
  exists users' fs' shown,
    signup_button crypt json_dump salt profile_image users new_user new_pass fs
    = (users', fs', shown, Ok tt) /\
    loaded_users users' /\
    (let '(s', _, _) := login_button crypt today users' trips new_user new_pass s in
     s' = mksession true new_user (PStr "user") /\
     ~ In "Admin Panel" (menu_options s')).
Proof.
  intros M Hu Hp Himg Hhash Hcheck HU.
  unfold signup_button. rewrite M.
  destruct (String.eqb_spec new_user ""); [contradiction | ].
  destruct (String.eqb_spec new_pass ""); [contradiction | ].
  cbn [orb]. rewrite Himg, Hhash.
  do 3 eexists. split; [reflexivity | split].
  - intros k v Hin. destruct (dict_set_in _ _ _ _ _ Hin) as [H | H].
    + apply (HU k v H).
    + injection H as _ ->. eexists. split; [reflexivity | ].
      intros f Hf. cbn in Hf.
      repeat (destruct Hf as [<- | Hf]; [reflexivity | ]). destruct Hf.
  - unfold login_button, credentials_ok, dict_mem. cbn [getitem bind].
    rewrite dict_get_set_same. cbn [getitem bind dict_get String.eqb Ascii.eqb Bool.eqb].
    cbn [check_password]. rewrite Hcheck.
    cbn [get dict_get String.eqb Ascii.eqb Bool.eqb].
    destruct (Reminders.trigger_reminders today new_user trips) as [ts [[] | e]];
      (split; [reflexivity | ]); cbn; intuition discriminate.
Qed.

End Handler.

Lemma signup_then_login_witness :
  exists users' fs' shown,
    signup_button sample_crypt Json.dumps "$2b$12$salt" None [] "ana" "secret"
      (mkfiles None None)
    = (users', fs', shown, Ok tt) /\
    loaded_users users' /\
    (let '(s', _, _) :=
       login_button sample_crypt (Datetime.mkdate 2025 6 1) users' (PDict []) "ana" "secret"
         (mksession false "" (PStr "user")) in
     s' = mksession true "ana" (PStr "user") /\
     ~ In "Admin Panel" (menu_options s')).
Proof.
  apply (signup_then_login sample_crypt Json.dumps "$2b$12$salt" "$2b$12$saltsecret"
           None PNone [] "ana" "secret" (mkfiles None None) (Datetime.mkdate 2025 6 1)
           (PDict []) (mksession false "" (PStr "user")));
    try reflexivity; try discriminate.
  intros k v [].
Defined.

End SignUpFacts.

(** ** Saving a trip *)

Module PlannerFacts.

Import Obj Persistence Planner DictFacts PersistenceSpec ReminderSpec DateSpec MapPage.

(** The keys after an assignment to a new key. *)
Lemma dict_set_keys_new (k : string) (v : value) (d : dict) :
  dict_mem k d = false -> map fst (dict_set k v d) = map fst d ++ [k].
Proof.
  unfold dict_mem. induction d as [| [k' v'] d IH]; cbn; [reflexivity | ].
  destruct (String.eqb k k') eqn:E; [discriminate | ].
  intros H. cbn. rewrite IH by exact H. reflexivity.
Qed.

Lemma dict_mem_not_in (k : string) (d : dict) :
  dict_mem k d = false -> ~ In k (map fst d).
Proof.
  intros M Hin. destruct (dict_get_key_in k d Hin) as [v Hv].
  unfold dict_mem in M. rewrite Hv in M. discriminate.
Qed.

(** An assignment keeps the usernames distinct. *)
Lemma dict_set_nodup (k : string) (v : value) (d : dict) :
  NoDup (map fst d) -> NoDup (map fst (dict_set k v d)).
Proof.
  intros H. destruct (dict_mem k d) eqn:M.
  - rewrite LoadFacts.dict_set_keys by exact M. exact H.
  - rewrite dict_set_keys_new by exact M.
    apply NoDup_app; [exact H | repeat constructor; intros [] | ].
    intros x Hx [E | []]. subst x. apply (dict_mem_not_in k d M Hx).
Qed.

(** The trip the planner builds has all the fields. *)
Lemma new_trip_complete (destination : string) (start_date end_date : Datetime.date)
    (notes lat_input lon_input : string) :
  complete (new_trip destination start_date end_date notes lat_input lon_input).
Proof.
  unfold new_trip. destruct (coords lat_input lon_input) as [la lo].
  intros f Hf. cbn in Hf.
  repeat (destruct Hf as [<- | Hf]; [reflexivity | ]). destruct Hf.
Qed.

Lemma new_trip_field (destination : string) (start_date end_date : Datetime.date)
    (notes lat_input lon_input : string) :
  let t := new_trip destination start_date end_date notes lat_input lon_input in
  field t "destination" (PStr "") = PStr destination /\
  field t "start_date" (PStr "") = PStr (isoformat start_date) /\
  field t "lat" PNone = fst (coords lat_input lon_input) /\
  field t "lon" PNone = snd (coords lat_input lon_input).
Proof.
  unfold new_trip. destruct (coords lat_input lon_input) as [la lo].
  repeat split.
Qed.

Section Handler.

Variable json_dump : value -> string.

(** X17: on a well-formed trip mapping, the Save Trip button with a
    non-empty destination and a valid start date ends without an exception.
    The user's list is the former list followed by the new trip, the other
    users' lists are untouched, the mapping is still well formed and is
    what the file holds. The stored start date parses back to the date that
    was picked, and the reminders shown are those of the extended list:
    when today is a valid date they are, in the order of the list, one for
    each trip whose start date reads as a day at most 3 days after today.
    When both coordinate entries are non-empty and accepted by [float],
    the Map page places the new trip at exactly these coordinates. *)
Theorem save_trip_appends (today : Datetime.date) (username : string) (trips : dict)
    (destination : string) (start_date end_date : Datetime.date)
    (notes lat_input lon_input : string) (fs : files) :
  well_formed_trips trips ->
  destination <> "" ->
  valid_date start_date ->
  let t := new_trip destination start_date end_date notes lat_input lon_input in
  exists olds,
    field trips username (PList []) = PList (map PDict olds) /\
    let trips' := dict_set username (PList (map PDict (olds ++ [t]))) trips in
    save_trip_button json_dump today username trips destination start_date end_date
      notes lat_input lon_input fs
    = (trips', mkfiles (USERS_FILE fs) (Some (json_dump (PDict trips'))),
       [Saved destination; Toasts (select today (olds ++ [t]))], Ok tt) /\
    well_formed_trips trips' /\
    (forall k, k <> username -> dict_get k trips' = dict_get k trips) /\
    Reminders.parse_date_str (field t "start_date" (PStr "")) = Some start_date /\
    (forall a b,
        lat_input <> "" -> lon_input <> "" ->
        Float.of_str lat_input = Ok a -> Float.of_str lon_input = Ok b ->
        map_row_of (PDict t)
        = Ok (Some (mkmap_row (PStr destination) a b (PStr (isoformat start_date))))) /\
    (valid_date today -> shows today (olds ++ [t]) (select today (olds ++ [t]))).
Proof.
  intros [Hnd Hall] Hdest Hvalid t.
  assert (Holds : exists olds,
             field trips username (PList []) = PList (map PDict olds) /\
             Forall complete olds).
  { unfold field. destruct (dict_get username trips) as [v | ] eqn:G.
    - apply dict_get_some_in in G. rewrite Forall_forall in Hall.
      pose proof (Hall _ G) as H0. cbn [snd] in H0.
      destruct H0 as [ts [-> Hts]]. exists ts. split; [reflexivity | exact Hts].
    - exists []. split; [reflexivity | constructor]. }
  destruct Holds as [olds [Holds Hcomplete]]. exists olds. split; [exact Holds | ].
  cbv zeta. split; [ | split; [ | split; [ | split; [ | split]]]].
  - unfold save_trip_button. unfold field in Holds. rewrite Holds.
    destruct (String.eqb_spec destination ""); [contradiction | ]. cbn [negb append].
    fold t. replace (map PDict olds ++ [PDict t]) with (map PDict (olds ++ [t]))
      by (rewrite map_app; reflexivity).
    assert (R : Reminders.trigger_reminders today username
                  (PDict (dict_set username (PList (map PDict (olds ++ [t]))) trips))
                = (select today (olds ++ [t]), Ok tt)).
    { unfold Reminders.trigger_reminders. cbn [get]. rewrite dict_get_set_same.
      cbn [iter]. apply (ReminderFacts.reminder_loop_select today (olds ++ [t]) []). }
    rewrite R. reflexivity.
  - split; [apply dict_set_nodup; exact Hnd | ].
    rewrite Forall_forall. intros [k v] Hin. cbn [snd].
    destruct (SignUpFacts.dict_set_in _ _ _ _ _ Hin) as [H | H].
    + rewrite Forall_forall in Hall. apply (Hall (k, v) H).
    + injection H as _ ->. exists (olds ++ [t]). split; [reflexivity | ].
      apply Forall_app. split; [exact Hcomplete | ].
      constructor; [apply new_trip_complete | constructor].
  - intros k Hk. apply dict_get_set_other. exact Hk.
  - subst t.
    destruct (new_trip_field destination start_date end_date notes lat_input lon_input)
      as (_ & -> & _). apply DateFacts.parse_isoformat. exact Hvalid.
  - intros a b Hla Hlo Ha Hb. subst t.
    destruct (new_trip_field destination start_date end_date notes lat_input lon_input)
      as (Fd & Fs & Fla & Flo).
    assert (C : coords lat_input lon_input = (PFloat a, PFloat b)).
    { unfold coords, coord.
      destruct (String.eqb_spec lat_input ""); [contradiction | ].
      destruct (String.eqb_spec lon_input ""); [contradiction | ].
      rewrite Ha, Hb. reflexivity. }
    rewrite C in Fla, Flo. cbn [fst snd] in Fla, Flo.
    unfold map_row_of. rewrite !MapFacts.get_field.
    rewrite Fd, Fs, Fla, Flo. reflexivity.
  - intros V. apply ReminderFacts.select_shows. exact V.
Qed.

End Handler.

Lemma save_trip_appends_witness :
  exists trips' fs' shown,
    save_trip_button Json.dumps (Datetime.mkdate 2025 6 1) "ben" sample_trips
      "Paris" (Datetime.mkdate 2025 6 3) (Datetime.mkdate 2025 6 8) "" "48.85" "2.35"
      (mkfiles None None)
    = (trips', fs', shown, Ok tt) /\
    well_formed_trips trips'.
Proof.
  assert (W : well_formed_trips sample_trips).
  { split; [repeat constructor; cbn; intuition discriminate | ].
    repeat constructor; cbn [snd].
    - eexists [_]. split; [reflexivity | ]. repeat constructor.
      intros f Hf. cbn in Hf.
      repeat (destruct Hf as [<- | Hf]; [reflexivity | ]). destruct Hf.
    - exists []. split; [reflexivity | constructor]. }
  assert (V : valid_date (Datetime.mkdate 2025 6 3))
    by (vm_compute; repeat split; discriminate).
  destruct (save_trip_appends Json.dumps (Datetime.mkdate 2025 6 1) "ben" sample_trips
              "Paris" (Datetime.mkdate 2025 6 3) (Datetime.mkdate 2025 6 8) "" "48.85" "2.35"
              (mkfiles None None) W ltac:(discriminate) V)
    as (olds & _ & E & W' & _).
  do 3 eexists. split; [exact E | exact W'].
Defined.

End PlannerFacts.

(** ** Adding an expense *)

Module AddExpenseFacts.

Import Obj Persistence Insights Expenses DictFacts ReminderSpec PageSpec.

(** A positive amount counts for itself. *)
Lemma counted_positive (x : float) :
  PrimFloat.ltb 0%float x = true -> counted x = x.
Proof.
  intros H. unfold counted. destruct (PrimFloat.eqb x 0) eqn:E; [ | reflexivity].
  rewrite FloatAxioms.ltb_spec in H. rewrite FloatAxioms.eqb_spec in E.
  revert H E. destruct (FloatOps.Prim2SF x) as [ [] | [] | | [] m e]; cbn; congruence.
Qed.

Lemma Forall2_priced_snoc (es : list dict) (xs : list float) (e : dict) (x : float) :
  Forall2 priced es xs -> priced e x -> Forall2 priced (es ++ [e]) (xs ++ [x]).
Proof.
  intros H He. apply Forall2_app; [exact H | repeat constructor; exact He].
Qed.

(** The element of index [length before], and what is around it. *)
Lemma split_at_index (before after : list dict) (t : dict) :
  let l := map (A:=dict) PDict before ++ PDict t :: map (A:=dict) PDict after in
  nth_error l (List.length before) = Some (PDict t) /\
  firstn (List.length before) l = map PDict before /\
  skipn (S (List.length before)) l = map PDict after.
Proof.
  induction before as [| b before IH]; cbn; [repeat split | ].
  destruct IH as (H1 & H2 & H3). cbn in H3. repeat split; [exact H1 | | exact H3].
  f_equal. exact H2.
Qed.

Section Handler.

Variable json_dump : value -> string.

(** X18: the Add Expense button keeps the trips fit for the Insights
    total. When the user's trips are records whose expenses have float
    amounts, the description is not empty and the amount is positive, the
    handler ends without an exception; the trip of the button has one more
    expense, last, with exactly this amount, its other fields and the other
    trips are as before, and the total of the Insights page on the new
    mapping is computed without an exception, from the former amounts and
    the new one. *)
Theorem add_expense_keeps_totals (today : Datetime.date) (username : string) (trips : dict)
    (before after : list dict) (t : dict) (ab aa : list (list float)) (xs : list float)
    (category desc : string) (amount : float) (fs : files) :
  dict_get username trips = Some (PList (map PDict (before ++ t :: after))) ->
  Forall2 priced_trip before ab -> priced_trip t xs -> Forall2 priced_trip after aa ->
  desc <> "" -> PrimFloat.ltb 0%float amount = true ->
  exists t' rows,
    let trips' := dict_set username (PList (map PDict (before ++ t' :: after))) trips in
    add_expense_button json_dump username trips (List.length before) category desc amount fs
    = (trips', save_trips json_dump (PDict trips') fs, [], Ok tt) /\
    priced_trip t' (xs ++ [amount]) /\
    (forall f, f <> "expenses" -> dict_get f t' = dict_get f t) /\
    total_expenses today (PDict trips') username
    = Ok (running_sum (map (fun ys => running_sum (map counted ys))
                         (ab ++ (xs ++ [amount]) :: aa)), rows) /\
    map row_amount rows
    = map counted (List.concat ab ++ xs) ++ amount :: map counted (List.concat aa).
Proof.
  intros Hu Hb [es [Hes Hp]] Ha Hdesc Hpos.
  set (e := [ ("category", PStr category); ("description", PStr desc);
              ("amount", PFloat amount) ]).
  set (t' := dict_set "expenses" (PList (map PDict (es ++ [e]))) t).
  assert (P' : priced_trip t' (xs ++ [amount])).
  { exists (es ++ [e]). split; [apply dict_get_set_same | ].
    apply Forall2_priced_snoc; [exact Hp | reflexivity]. }
  assert (All : Forall2 priced_trip (before ++ t' :: after) (ab ++ (xs ++ [amount]) :: aa)).
  { apply Forall2_app; [exact Hb | constructor; [exact P' | exact Ha]]. }
  destruct (ExpenseFacts.trip_loop_priced today _ _ All 0%float []) as [rows [E M]].
  exists t', rows. cbv zeta. split; [ | split; [exact P' | split; [ | split]]].
  - unfold add_expense_button. rewrite Hu. cbv beta iota.
    rewrite map_app. cbn [map].
    destruct (split_at_index before after t) as (Hnth & Hfirst & Hskip).
    cbv zeta in Hnth, Hfirst, Hskip. rewrite Hnth.
    destruct (String.eqb_spec desc ""); [contradiction | ]. rewrite Hpos. cbn [negb andb].
    unfold append_at. cbn [getitem bind]. rewrite Hes. cbn [bind Planner.append].
    unfold t'. rewrite Hfirst, Hskip, !map_app. reflexivity.
  - intros f Hf. unfold t'. apply dict_get_set_other. exact Hf.
  - unfold total_expenses. cbn [get bind]. rewrite dict_get_set_same. cbn [iter bind].
    rewrite E. reflexivity.
  - rewrite M, concat_app. cbn [List.concat]. rewrite !map_app. cbn [map].
    rewrite (counted_positive amount Hpos).
    rewrite <- !app_assoc. reflexivity.
Qed.

End Handler.

Lemma add_expense_keeps_totals_witness :
  exists trips' fs' rows,
    add_expense_button Json.dumps "ana"
      [("ana", PList [PDict (trip "Rome" "2025-06-03")])] 0 "Food" "dinner" 12.5%float
      (mkfiles None None)
    = (trips', fs', [], Ok tt) /\
    total_expenses (Datetime.mkdate 2025 6 1) (PDict trips') "ana" = Ok (12.5%float, rows).
Proof.
  destruct (add_expense_keeps_totals Json.dumps (Datetime.mkdate 2025 6 1) "ana"
              [("ana", PList [PDict (trip "Rome" "2025-06-03")])]
              [] [] (trip "Rome" "2025-06-03") [] [] []
              "Food" "dinner" 12.5%float (mkfiles None None))
    as (t' & rows & E & _ & _ & T & _).
  - reflexivity.
  - constructor.
  - exists []. split; [reflexivity | constructor].
  - constructor.
  - discriminate.
  - reflexivity.
  - do 3 eexists. split; [exact E | exact T].
Defined.

End AddExpenseFacts.

(** ** Changing the password *)

Module SettingsFacts.

Import Obj Persistence Auth SignUp Settings DictFacts ReminderSpec.

Section Handler.

Variable crypt : string -> list string -> result string.
Variable json_dump : value -> string.

(** X19: changing the password keeps everything else. When the user of
    the session has a record, the new password is not empty, and bcrypt
    produces a hash and accepts it for this password, the handler ends
    without an exception; only the password field of this user's record is
    different, the usernames and their order are the same, the file holds
    the new mapping, and the Login button with the new password opens a
    session with the role the record had. *)
Theorem update_password_then_login (salt hashed username : string) (users r : dict)
    (new_pass : string) (fs : files) (today : Datetime.date) (trips : value) (s : session) :
  dict_get username users = Some (PDict r) ->
  new_pass <> "" ->
  hash_password crypt salt new_pass = Ok hashed ->
  checkpw crypt new_pass hashed = Ok true ->
  let users' := dict_set username (PDict (dict_set "password" (PStr hashed) r)) users in
  update_password_button crypt json_dump salt username users new_pass fs
  = (users', mkfiles (Some (json_dump (PDict users'))) (TRIPS_FILE fs),
     [Updated "Password updated successfully!"], Ok tt) /\
  map fst users' = map fst users /\
  (forall k, k <> username -> dict_get k users' = dict_get k users) /\
  (forall f, f <> "password" ->
     dict_get f (dict_set "password" (PStr hashed) r) = dict_get f r) /\
  (let '(s', _, _) := login_button crypt today users' trips username new_pass s in
   s' = mksession true username (field r "role" (PStr "user"))).
Proof.
  intros Hu Hp Hhash Hcheck users'.
  split; [ | split; [ | split; [ | split]]].
  - unfold update_password_button, setitem_at.
    destruct (String.eqb_spec new_pass ""); [contradiction | ]. cbn [negb].
    rewrite Hhash. cbn [bind getitem]. rewrite Hu. reflexivity.
  - apply LoadFacts.dict_set_keys. unfold dict_mem. rewrite Hu. reflexivity.
  - intros k Hk. apply dict_get_set_other. exact Hk.
  - intros f Hf. apply dict_get_set_other. exact Hf.
  - unfold login_button, credentials_ok, dict_mem, users'. cbn [getitem bind].
    rewrite !dict_get_set_same. cbn [getitem bind]. rewrite dict_get_set_same.
    cbn [bind check_password]. rewrite Hcheck. cbn [get bind].
    rewrite dict_get_set_other by discriminate. fold (field r "role" (PStr "user")).
    destruct (Reminders.trigger_reminders today username trips) as [ts [[] | e]]; reflexivity.
Qed.

End Handler.

Lemma update_password_then_login_witness :
  let users := [("bob", PDict [("password", PStr "old"); ("role", PStr "admin")])] in
  let users' := [("bob", PDict [("password", PStr "$2b$12$saltsecret");
                                 ("role", PStr "admin")])] in
  fst (fst (fst (update_password_button sample_crypt Json.dumps "$2b$12$salt" "bob" users
                   "secret" (mkfiles None None)))) = users' /\
  fst (fst (login_button sample_crypt (Datetime.mkdate 2025 6 1) users' (PDict []) "bob"
              "secret" (mksession false "" (PStr "user"))))
  = mksession true "bob" (PStr "admin").
Proof.
  cbv zeta.
  pose proof (update_password_then_login sample_crypt Json.dumps "$2b$12$salt"
                "$2b$12$saltsecret" "bob"
                [("bob", PDict [("password", PStr "old"); ("role", PStr "admin")])]
                [("password", PStr "old"); ("role", PStr "admin")]
                "secret" (mkfiles None None) (Datetime.mkdate 2025 6 1) (PDict [])
                (mksession false "" (PStr "user"))
                eq_refl ltac:(discriminate) eq_refl eq_refl) as H.
  cbv zeta in H. destruct H as (E & _ & _ & _ & L).
  split; [rewrite E; reflexivity | ].
  revert L.
  destruct (login_button sample_crypt (Datetime.mkdate 2025 6 1) _ (PDict []) "bob" "secret"
              (mksession false "" (PStr "user"))) as [[s' sh] res].
  intros ->. reflexivity.
Defined.

End SettingsFacts.
